(** * SleepNest: duration calculator and inline cell-edit controller

  A shallow embedding of the two table components of the client,
  [SleepLog] and [FeedingLog]: the pure time arithmetic of the sleep
  form, and the event handlers of both tables as transitions of an
  explicit component state (React state hooks, the timer queue of the
  event loop, and the mutation observer of the query library). *)

From Stdlib Require Import ZArith List String Ascii Bool Lia DecimalString.
Import ListNotations.
Open Scope string_scope.
Open Scope list_scope.
Open Scope Z_scope.

(** ** JavaScript values *)

Module Js.

(** Numbers are kept as exact decimals, [mantissa * 10 ^ exponent]; the
    rounding of a long literal to a double is not modelled. *)
Inductive Number :=
| NaN
| Infinity (negative : bool)
| Dec (mantissa exponent : Z).

Inductive Value :=
| Null
| Str (s : string)
| Num (n : Number).

Definition code (c : ascii) : Z := Z.of_nat (nat_of_ascii c).

(** White space that [parseInt] and [parseFloat] skip (the ASCII part). *)
Definition isWhiteSpace (c : ascii) : bool :=
  let n := code c in
  ((9 <=? n) && (n <=? 13)) || (n =? 32).

Fixpoint trimStart (s : string) : string :=
  match s with
  | String c rest => if isWhiteSpace c then trimStart rest else s
  | EmptyString => EmptyString
  end.

Definition digitValue (radix : Z) (c : ascii) : option Z :=
  let n := code c in
  let v := if (48 <=? n) && (n <=? 57) then Some (n - 48)
           else if (97 <=? n) && (n <=? 102) then Some (n - 87)
           else if (65 <=? n) && (n <=? 70) then Some (n - 55)
           else None in
  match v with
  | Some d => if d <? radix then Some d else None
  | None => None
  end.

(** The longest run of digits at the head of [s]: its value onto [acc],
    how many digits were read, and what follows. *)
Fixpoint readDigits (radix : Z) (acc : Z) (count : Z) (s : string)
  : Z * Z * string :=
  match s with
  | String c rest =>
      match digitValue radix c with
      | Some d => readDigits radix (acc * radix + d) (count + 1) rest
      | None => (acc, count, s)
      end
  | EmptyString => (acc, count, s)
  end.

Definition readSign (s : string) : bool * string :=
  match s with
  | String "-" rest => (true, rest)
  | String "+" rest => (false, rest)
  | _ => (false, s)
  end.

Definition signed (negative : bool) (v : Z) : Z := if negative then - v else v.

(** [parseInt(s)], no radix given. *)
Definition parseInt (s : string) : Number :=
  let (negative, s) := readSign (trimStart s) in
  let (radix, s) :=
    match s with
    | String "0" (String "x" rest) => (16, rest)
    | String "0" (String "X" rest) => (16, rest)
    | _ => (10, s)
    end in
  let '(v, count, _) := readDigits radix 0 0 s in
  if count =? 0 then NaN else Dec (signed negative v) 0.

(** The exponent part [e±digits], when well formed. *)
Definition readExponent (s : string) : Z :=
  match s with
  | String c rest =>
      if (code c =? 101) || (code c =? 69) then
        let (negative, rest) := readSign rest in
        let '(v, count, _) := readDigits 10 0 0 rest in
        if count =? 0 then 0 else signed negative v
      else 0
  | EmptyString => 0
  end.

(** [parseFloat(s)]: the longest prefix that is a decimal literal. *)
Definition parseFloat (s : string) : Number :=
  let (negative, s) := readSign (trimStart s) in
  if prefix "Infinity" s then Infinity negative
  else
    let '(ipart, icount, s) := readDigits 10 0 0 s in
    let '(mant, fcount, s) :=
      match s with
      | String "." rest => readDigits 10 ipart 0 rest
      | _ => (ipart, 0, s)
      end in
    if (icount =? 0) && (fcount =? 0) then NaN
    else Dec (signed negative mant) (readExponent s - fcount).

(** An integer as text, as in a template literal. *)
Definition show (z : Z) : string := NilZero.string_of_int (Z.to_int z).

Fixpoint zeros (n : nat) : string :=
  match n with O => "" | S k => "0" ++ zeros k end.

(** Trailing zeros of the mantissa moved into the exponent. *)
Fixpoint normalize (fuel : nat) (m e : Z) : Z * Z :=
  match fuel with
  | O => (m, e)
  | S k => if (m =? 0) then (0, 0)
           else if (m mod 10 =? 0) then normalize k (m / 10) (e + 1)
           else (m, e)
  end.

(** The exponent part of a number text: the sign, always written, and
    the digits. *)
Definition exponentText (n : Z) : string :=
  (if n <? 0 then "-" else "+") ++ show (Z.abs n).

(** [n.toString()]. With [digits] the [k] decimal digits of the number,
    none of them a trailing zero, and [n] the place of the decimal
    point after the first [n] of them: the digits are written out in
    full for [0 < n <= 21] and behind ["0."] for [-6 < n <= 0], and in
    exponent notation otherwise. *)
Definition numberToString (n : Number) : string :=
  match n with
  | NaN => "NaN"
  | Infinity negative => if negative then "-Infinity" else "Infinity"
  | Dec m e =>
      let (m, e) := normalize (Z.to_nat (Z.log2 (Z.abs m) + 1)) m e in
      if m =? 0 then "0"
      else
        let digits := show (Z.abs m) in
        let k := Z.of_nat (String.length digits) in
        let n := k + e in
        (if m <? 0 then "-" else "")
        ++ (if (k <=? n) && (n <=? 21) then digits ++ zeros (Z.to_nat (n - k))
            else if (0 <? n) && (n <=? 21) then
              substring 0 (Z.to_nat n) digits ++ "."
              ++ substring (Z.to_nat n) (Z.to_nat (k - n)) digits
            else if (-6 <? n) && (n <=? 0) then
              "0." ++ zeros (Z.to_nat (- n)) ++ digits
            else if k =? 1 then digits ++ "e" ++ exponentText (n - 1)
            else substring 0 1 digits ++ "."
                 ++ substring 1 (Z.to_nat (k - 1)) digits
                 ++ "e" ++ exponentText (n - 1))
  end.

(** [v?.toString()]: undefined for [null]. *)
Definition toString (v : Value) : option string :=
  match v with
  | Null => None
  | Str s => Some s
  | Num n => Some (numberToString n)
  end.

End Js.


(** ** Text and numbers of the time inputs *)

Module JsText.
Import Js.

Fixpoint trimEnd (s : string) : string :=
  match s with
  | EmptyString => EmptyString
  | String c rest =>
      match trimEnd rest with
      | EmptyString => if isWhiteSpace c then EmptyString else String c EmptyString
      | kept => String c kept
      end
  end.

Definition trim (s : string) : string := trimEnd (trimStart s).

Definition isEmpty (s : string) : bool :=
  match s with EmptyString => true | _ => false end.

(** Digits in [radix] and nothing else, at least one. *)
Definition wholeDigits (radix : Z) (s : string) : Number :=
  let '(v, count, rest) := readDigits radix 0 0 s in
  if (count =? 0) || negb (isEmpty rest) then NaN else Dec v 0.

(** An unsigned decimal literal and nothing else: [Infinity], digits
    with an optional fraction, or a fraction alone, then an optional
    exponent. *)
Definition unsignedDecimal (negative : bool) (s : string) : Number :=
  if String.eqb s "Infinity" then Infinity negative
  else
    let '(ipart, icount, s1) := readDigits 10 0 0 s in
    let '(mant, fcount, s2) :=
      match s1 with
      | String "." rest => readDigits 10 ipart 0 rest
      | _ => (ipart, 0, s1)
      end in
    if (icount =? 0) && (fcount =? 0) then NaN
    else
      match s2 with
      | EmptyString => Dec (signed negative mant) (- fcount)
      | String c rest =>
          if (code c =? 101) || (code c =? 69) then
            let (eneg, digits) := readSign rest in
            let '(ev, ecount, s3) := readDigits 10 0 0 digits in
            if (ecount =? 0) || negb (isEmpty s3) then NaN
            else Dec (signed negative mant) (signed eneg ev - fcount)
          else NaN
      end.

(** [Number(s)] of a string: white space around the literal is dropped,
    the empty string is 0, a literal with a radix prefix takes no sign,
    and anything left over makes the whole [NaN]. *)
Definition toNumber (s : string) : Number :=
  match trim s with
  | EmptyString => Dec 0 0
  | String "0" (String "x" rest) => wholeDigits 16 rest
  | String "0" (String "X" rest) => wholeDigits 16 rest
  | String "0" (String "o" rest) => wholeDigits 8 rest
  | String "0" (String "O" rest) => wholeDigits 8 rest
  | String "0" (String "b" rest) => wholeDigits 2 rest
  | String "0" (String "B" rest) => wholeDigits 2 rest
  | literal => let (negative, rest) := readSign literal in unsignedDecimal negative rest
  end.

(** The integer a date setter makes of a finite number (it drops the
    fraction); [None] for [NaN] and the infinities, which make the date
    invalid. *)
Definition finiteInteger (n : Number) : option Z :=
  match n with
  | Dec m e => Some (if 0 <=? e then m * 10 ^ e else Z.quot m (10 ^ (- e)))
  | _ => None
  end.

(** [s.split(sep)] for a separator of one character. *)
Fixpoint split (sep : ascii) (s : string) : list string :=
  match s with
  | EmptyString => [EmptyString]
  | String c rest =>
      if Ascii.eqb c sep then EmptyString :: split sep rest
      else match split sep rest with
           | head :: tail => String c head :: tail
           | [] => [String c EmptyString]
           end
  end.

End JsText.

(** ** JavaScript dates *)

Module JsDate.

(** A time value: milliseconds since the first instant of 1970, UTC. *)
Definition Date := Z.

Definition MS_PER_MINUTE : Z := 60000.
Definition MS_PER_HOUR : Z := 3600000.
Definition MS_PER_DAY : Z := 86400000.

(** A Date object holds a time value no further than 8.64e15 ms from
    the epoch; what falls outside makes it an Invalid Date, [None]. *)
Definition timeClip (t : Z) : option Date :=
  if Z.abs t <=? 8640000000000000 then Some t else None.

(** *** Local time *)

(** A time zone: the offset of local time from UTC (in milliseconds)
    before the first change, and the changes of the offset in order of
    their instants. *)
Record Transition := { instant : Z; offsetAfter : Z }.

Record Zone := { offsetBefore : Z; transitions : list Transition }.

(** The offset in force at the instant [t]. *)
Fixpoint offsetAt (o : Z) (ts : list Transition) (t : Z) : Z :=
  match ts with
  | [] => o
  | tr :: rest => if t <? instant tr then o else offsetAt (offsetAfter tr) rest t
  end.

(** [LocalTime(t)]: the local time value of an instant. *)
Definition LocalTime (z : Zone) (t : Z) : Z :=
  t + offsetAt (offsetBefore z) (transitions z) t.

(** The offset by which a local time value is read. A local time that
    comes twice, where the clocks are set back, is the earlier of the
    two; one that is skipped, where they are set forward, is read by
    the offset from before the change. *)
Fixpoint offsetOfLocal (o : Z) (ts : list Transition) (local : Z) : Z :=
  match ts with
  | [] => o
  | tr :: rest =>
      if (local - o <? instant tr) || (local - offsetAfter tr <? instant tr)
      then o
      else offsetOfLocal (offsetAfter tr) rest local
  end.

(** [UTC(t)]: the instant of a local time value. *)
Definition UTC (z : Zone) (local : Z) : Z :=
  local - offsetOfLocal (offsetBefore z) (transitions z) local.

(** The day of a local time value, and its seconds and milliseconds. *)
Definition startOfDay (local : Z) : Z := (local / MS_PER_DAY) * MS_PER_DAY.

Definition secondsAndMs (local : Z) : Z := local mod MS_PER_MINUTE.

(** [MakeDate(Day(t), MakeTime(h, m, SecFromTime(t), msFromTime(t)))] on
    a local time value: hour and minute are replaced, and out-of-range
    arguments carry over. *)
Definition makeTime (h m : Z) (local : Z) : Z :=
  startOfDay local + h * MS_PER_HOUR + m * MS_PER_MINUTE + secondsAndMs local.

(** [d.setHours(h, m)] on a valid date, with integer arguments. *)
Definition setHours (z : Zone) (h m : Z) (d : Date) : option Date :=
  timeClip (UTC z (makeTime h m (LocalTime z d))).

(** [d.setDate(d.getDate() + n)]: [n] calendar days later at the same
    local time of day. *)
Definition addDate (z : Zone) (n : Z) (d : Date) : option Date :=
  timeClip (UTC z (LocalTime z d + n * MS_PER_DAY)).

(** [d.getHours()] and [d.getMinutes()]. *)
Definition getHours (z : Zone) (d : Date) : Z :=
  (LocalTime z d mod MS_PER_DAY) / MS_PER_HOUR.

Definition getMinutes (z : Zone) (d : Date) : Z :=
  (LocalTime z d mod MS_PER_HOUR) / MS_PER_MINUTE.

(** date-fns [differenceInMinutes(left, right)] of two valid dates: full
    minutes between the instants, rounded towards zero. *)
Definition differenceInMinutes (left right : Date) : Z :=
  Z.quot (left - right) MS_PER_MINUTE.

(** date-fns [addHours] and [addMinutes]: so many milliseconds later. *)
Definition addHours (d : Date) (amount : Z) : Date := d + amount * MS_PER_HOUR.
Definition addMinutes (d : Date) (amount : Z) : Date := d + amount * MS_PER_MINUTE.

(** Around the instant [t] the zone keeps the one offset [c]: at every
    instant within two days of [t], and for every local time value
    within two days of the local time of [t]; and [t] lies two days
    inside the range of time values. *)
Definition steady (z : Zone) (c : Z) (t : Date) : Prop :=
  (forall u, t - 2 * MS_PER_DAY <= u <= t + 2 * MS_PER_DAY ->
     offsetAt (offsetBefore z) (transitions z) u = c
     /\ offsetOfLocal (offsetBefore z) (transitions z) (u + c) = c)
  /\ Z.abs t + 2 * MS_PER_DAY <= 8640000000000000.

End JsDate.

(** ** The sleep form: duration preview and record creation *)

Module SleepForm.
Import Js JsText JsDate.

Inductive SleepType := nap | night.

(** The hour and the minute that [setHours] is given. *)
Record Clock := { hours : Z; minutes : Z }.

(** [const [h, m] = value.split(":").map(Number)] as [setHours(h, m)]
    takes it: the first two parts, each a finite number cut to an
    integer. [None] when a part is missing or is not a finite number:
    the date is then invalid. A cleared time input holds the empty
    text, which has one part only. *)
Definition clockOfString (value : string) : option Clock :=
  match map toNumber (split ":" value) with
  | h :: m :: _ =>
      match finiteInteger h, finiteInteger m with
      | Some h', Some m' => Some {| hours := h'; minutes := m' |}
      | _, _ => None
      end
  | _ => None
  end.

(** Two digits, with a leading zero below ten. *)
Definition pad2 (n : Z) : string := (if n <? 10 then "0" else "") ++ show n.

(** The text a time input holds for a clock of the day, ["HH:mm"]. *)
Definition clockText (c : Clock) : string :=
  pad2 (hours c) ++ ":" ++ pad2 (minutes c).

(** The values of the form: the date as the calendar gives it, a valid
    Date object, or [undefined] ([None]) once the selected day has been
    clicked again; the two times as the texts of their inputs. *)
Record FormValues := {
  date : option Date;
  startTime : string;
  endTime : string;
  sleepType : SleepType;
  notes : string
}.

Record Range := { min : Z; max : Z }.

Definition recommendedDurations (t : SleepType) : Range :=
  match t with
  | nap => {| min := 20; max := 180 |}
  | night => {| min := 420; max := 780 |}
  end.

(** The three colour classes of the duration preview, under the names
    the specification gives them. *)
Inductive DurationClassification :=
| BelowRecommended
| WithinRecommended
| AboveRecommended.

Definition className (c : DurationClassification) : string :=
  match c with
  | BelowRecommended => "text-yellow-500"
  | AboveRecommended => "text-red-500"
  | WithinRecommended => "text-green-500"
  end.

(** [minutes < min ? yellow : minutes > max ? red : green]. *)
Definition classify (mins : Z) (t : SleepType) : DurationClassification :=
  let r := recommendedDurations t in
  if mins <? min r then BelowRecommended
  else if mins >? max r then AboveRecommended
  else WithinRecommended.

(** The class for the minutes computed; for [NaN] ([None]) neither
    comparison holds, which leaves the last branch. *)
Definition durationClass (mins : option Z) (t : SleepType) : string :=
  match mins with
  | Some m => className (classify m t)
  | None => className WithinRecommended
  end.

(** [d.setHours(h, m)] with the numbers read from [value], on a Date
    object; [None] is an Invalid Date. *)
Definition setClock (z : Zone) (value : string) (d : option Date) : option Date :=
  match d, clockOfString value with
  | Some t, Some c => setHours z (hours c) (minutes c) t
  | _, _ => None
  end.

(** [a < b] on Date objects: false when either is invalid. *)
Definition before (a b : option Date) : bool :=
  match a, b with
  | Some x, Some y => x <? y
  | _, _ => false
  end.

(** [if (end < start) end.setDate(end.getDate() + 1)]. *)
Definition rollOver (z : Zone) (startDateTime endDateTime : option Date)
  : option Date :=
  if before endDateTime startDateTime then
    match endDateTime with
    | Some e => addDate z 1 e
    | None => None
    end
  else endDateTime.

(** [differenceInMinutes] on Date objects: [NaN] when either is invalid. *)
Definition minutesBetween (left right : option Date) : option Z :=
  match left, right with
  | Some l, Some r => Some (differenceInMinutes l r)
  | _, _ => None
  end.

(** The [minutes] constant of [calculateDuration], [None] for [NaN], in
    the time zone [z] of the browser. The function reads the clock
    twice ([new Date()] for the start, again for the end): [now1] and
    [now2] are the two readings. *)
Definition calculateDuration_minutes (z : Zone) (now1 now2 : Date)
    (form : FormValues) : option Z :=
  let startDateTime := setClock z (startTime form) (Some now1) in
  let endDateTime := setClock z (endTime form) (Some now2) in
  let endDateTime := rollOver z startDateTime endDateTime in
  minutesBetween endDateTime startDateTime.

Record DurationView := { text : string; class : string }.

(** [Math.floor(minutes / 60)] and [minutes % 60] in the text
    [`${hours}h ${remainingMinutes}m`]. *)
Definition calculateDuration (z : Zone) (now1 now2 : Date) (form : FormValues)
  : DurationView :=
  let mins := calculateDuration_minutes z now1 now2 form in
  {| text := match mins with
             | Some m => show (m / 60) ++ "h " ++ show (Z.rem m 60) ++ "m"
             | None => "NaNh NaNm"
             end;
     class := durationClass mins (sleepType form) |}.

(** The record [createMutation] hands to [createSleepLog]; its dates are
    Date objects, which may be invalid. *)
Record InsertSleep := {
  ins_startTime : option Date;
  ins_endTime : option Date;
  ins_sleepType : SleepType;
  ins_notes : string
}.

Definition createMutation_mutationFn (z : Zone) (data : FormValues) : InsertSleep :=
  (* new Date(data.date): an Invalid Date when no day is selected *)
  let startDateTime := setClock z (startTime data) (date data) in
  let endDateTime := setClock z (endTime data) (date data) in
  (* If end time is before start time, assume it's the next day *)
  let endDateTime := rollOver z startDateTime endDateTime in
  {| ins_startTime := startDateTime;
     ins_endTime := endDateTime;
     ins_sleepType := sleepType data;
     ins_notes := notes data |}.

(** A stored sleep record and the duration the table shows for it:
    [differenceInMinutes(new Date(log.endTime!), new Date(log.startTime))];
    [new Date(null)] is the epoch. *)
Record Sleep := {
  id : Z;
  sl_startTime : Date;
  sl_endTime : option Date;
  sl_sleepType : SleepType;
  sl_notes : option string
}.

Definition rowDuration (log : Sleep) : Z :=
  differenceInMinutes
    (match sl_endTime log with Some e => e | None => 0 end)
    (sl_startTime log).

(** The record as stored once the collaborator has given it an
    identifier. An Invalid Date goes over the wire as [null]; the start
    time is a column that takes no [null], so nothing is stored for an
    invalid start. *)
Definition stored (newId : Z) (r : InsertSleep) : option Sleep :=
  match ins_startTime r with
  | Some s =>
      Some {| id := newId;
              sl_startTime := s;
              sl_endTime := ins_endTime r;
              sl_sleepType := ins_sleepType r;
              sl_notes := Some (ins_notes r) |}
  | None => None
  end.

(** Wall-clock readings of one day. *)
Definition valid_clock (c : Clock) : Prop :=
  0 <= hours c <= 23 /\ 0 <= minutes c <= 59.

(** Minutes since midnight. *)
Definition clockMinutes (c : Clock) : Z := hours c * 60 + minutes c.

(** Two readings of the clock, as local time values, fall in the same
    minute, the second not before the first. *)
Definition same_minute (local1 local2 : Z) : Prop :=
  local1 <= local2 /\ local1 / MS_PER_MINUTE = local2 / MS_PER_MINUTE.

End SleepForm.


(** ** What both tables share: hooks, timers, the mutation observer *)

Module Runtime.
Import Js.

(** [update(id, { [field]: value })]: one field of one record. *)
Record UpdateCall := { upd_id : Z; upd_field : string; upd_value : Value }.

(** An update on its way to the storage collaborator. *)
Record Mutation := { mutationId : nat; variables : UpdateCall }.

Record Toast := {
  toast_title : option string;
  toast_description : string;
  toast_duration : option Z;
  toast_variant : option string
}.

(** The callbacks the components hand to [setTimeout]. *)
Inductive TimerAction :=
| DebouncedUpdate (call : UpdateCall)  (* the delayed commit of SleepLog *)
| ClearHighlight                       (* () => setHighlightedField(null) *)
| FocusField (field : string).         (* focus the next input, FeedingLog *)

(** A live timer. Handles are positive, hence truthy. *)
Record Timer := { handle : positive; due : Z; action : TimerAction }.

(** What the timer callbacks of a table read and change in the document
    (which element holds the focus, what the inputs hold), and the
    document of a table just mounted. *)
Class Table (R : Type) := {
  Dom : Type;
  blank : Dom
}.

(** The state of one table component, over its record type [R]: the
    event loop ([now], [timers]), the React state and refs the component
    declares, the cached list of its query with the number of refreshes
    requested, the observer behind [updateMutation], what reached the
    collaborators ([requests] with the time of the call, [toasts]), and
    the [document] as the callbacks find it. *)
Record State (R : Type) {T : Table R} := {
  now : Z;
  timers : list Timer;
  nextHandle : positive;
  editingId : option Z;
  savingField : option (Z * string);
  highlightedField : option (Z * string);
  editTimeoutRef : option positive;
  records : list R;
  invalidations : nat;
  inFlight : list Mutation;
  nextMutationId : nat;
  currentMutation : option nat;
  requests : list (Z * UpdateCall);
  toasts : list Toast;
  document : Dom
}.
Arguments now {R T} _.
Arguments timers {R T} _.
Arguments nextHandle {R T} _.
Arguments editingId {R T} _.
Arguments savingField {R T} _.
Arguments highlightedField {R T} _.
Arguments editTimeoutRef {R T} _.
Arguments records {R T} _.
Arguments invalidations {R T} _.
Arguments inFlight {R T} _.
Arguments nextMutationId {R T} _.
Arguments currentMutation {R T} _.
Arguments requests {R T} _.
Arguments toasts {R T} _.
Arguments document {R T} _.

(** The component as mounted at time [t0] over the fetched list [l]. *)
Definition initial {R} {T : Table R} (t0 : Z) (l : list R) : State R :=
  {| now := t0; timers := []; nextHandle := 1%positive;
     editingId := None; savingField := None; highlightedField := None;
     editTimeoutRef := None; records := l; invalidations := 0%nat;
     inFlight := []; nextMutationId := 0%nat; currentMutation := None;
     requests := []; toasts := []; document := blank |}.

Definition set_now {R} {T : Table R} (v : Z) (st : State R) : State R :=
  {| now := v; timers := timers st; nextHandle := nextHandle st;
     editingId := editingId st; savingField := savingField st;
     highlightedField := highlightedField st;
     editTimeoutRef := editTimeoutRef st; records := records st;
     invalidations := invalidations st; inFlight := inFlight st;
     nextMutationId := nextMutationId st;
     currentMutation := currentMutation st; requests := requests st;
     toasts := toasts st;
     document := document st |}.

Definition set_timers {R} {T : Table R} (v : list Timer) (st : State R) : State R :=
  {| now := now st; timers := v; nextHandle := nextHandle st;
     editingId := editingId st; savingField := savingField st;
     highlightedField := highlightedField st;
     editTimeoutRef := editTimeoutRef st; records := records st;
     invalidations := invalidations st; inFlight := inFlight st;
     nextMutationId := nextMutationId st;
     currentMutation := currentMutation st; requests := requests st;
     toasts := toasts st;
     document := document st |}.

Definition set_nextHandle {R} {T : Table R} (v : positive) (st : State R) : State R :=
  {| now := now st; timers := timers st; nextHandle := v;
     editingId := editingId st; savingField := savingField st;
     highlightedField := highlightedField st;
     editTimeoutRef := editTimeoutRef st; records := records st;
     invalidations := invalidations st; inFlight := inFlight st;
     nextMutationId := nextMutationId st;
     currentMutation := currentMutation st; requests := requests st;
     toasts := toasts st;
     document := document st |}.

Definition set_editingId {R} {T : Table R} (v : option Z) (st : State R) : State R :=
  {| now := now st; timers := timers st; nextHandle := nextHandle st;
     editingId := v; savingField := savingField st;
     highlightedField := highlightedField st;
     editTimeoutRef := editTimeoutRef st; records := records st;
     invalidations := invalidations st; inFlight := inFlight st;
     nextMutationId := nextMutationId st;
     currentMutation := currentMutation st; requests := requests st;
     toasts := toasts st;
     document := document st |}.

Definition set_savingField {R} {T : Table R} (v : option (Z * string)) (st : State R) : State R :=
  {| now := now st; timers := timers st; nextHandle := nextHandle st;
     editingId := editingId st; savingField := v;
     highlightedField := highlightedField st;
     editTimeoutRef := editTimeoutRef st; records := records st;
     invalidations := invalidations st; inFlight := inFlight st;
     nextMutationId := nextMutationId st;
     currentMutation := currentMutation st; requests := requests st;
     toasts := toasts st;
     document := document st |}.

Definition set_highlightedField {R} {T : Table R} (v : option (Z * string)) (st : State R) : State R :=
  {| now := now st; timers := timers st; nextHandle := nextHandle st;
     editingId := editingId st; savingField := savingField st;
     highlightedField := v; editTimeoutRef := editTimeoutRef st;
     records := records st; invalidations := invalidations st;
     inFlight := inFlight st; nextMutationId := nextMutationId st;
     currentMutation := currentMutation st; requests := requests st;
     toasts := toasts st;
     document := document st |}.

Definition set_editTimeoutRef {R} {T : Table R} (v : option positive) (st : State R) : State R :=
  {| now := now st; timers := timers st; nextHandle := nextHandle st;
     editingId := editingId st; savingField := savingField st;
     highlightedField := highlightedField st; editTimeoutRef := v;
     records := records st; invalidations := invalidations st;
     inFlight := inFlight st; nextMutationId := nextMutationId st;
     currentMutation := currentMutation st; requests := requests st;
     toasts := toasts st;
     document := document st |}.

Definition set_records {R} {T : Table R} (v : list R) (st : State R) : State R :=
  {| now := now st; timers := timers st; nextHandle := nextHandle st;
     editingId := editingId st; savingField := savingField st;
     highlightedField := highlightedField st;
     editTimeoutRef := editTimeoutRef st; records := v;
     invalidations := invalidations st; inFlight := inFlight st;
     nextMutationId := nextMutationId st;
     currentMutation := currentMutation st; requests := requests st;
     toasts := toasts st;
     document := document st |}.

Definition set_invalidations {R} {T : Table R} (v : nat) (st : State R) : State R :=
  {| now := now st; timers := timers st; nextHandle := nextHandle st;
     editingId := editingId st; savingField := savingField st;
     highlightedField := highlightedField st;
     editTimeoutRef := editTimeoutRef st; records := records st;
     invalidations := v; inFlight := inFlight st;
     nextMutationId := nextMutationId st;
     currentMutation := currentMutation st; requests := requests st;
     toasts := toasts st;
     document := document st |}.

Definition set_inFlight {R} {T : Table R} (v : list Mutation) (st : State R) : State R :=
  {| now := now st; timers := timers st; nextHandle := nextHandle st;
     editingId := editingId st; savingField := savingField st;
     highlightedField := highlightedField st;
     editTimeoutRef := editTimeoutRef st; records := records st;
     invalidations := invalidations st; inFlight := v;
     nextMutationId := nextMutationId st;
     currentMutation := currentMutation st; requests := requests st;
     toasts := toasts st;
     document := document st |}.

Definition set_nextMutationId {R} {T : Table R} (v : nat) (st : State R) : State R :=
  {| now := now st; timers := timers st; nextHandle := nextHandle st;
     editingId := editingId st; savingField := savingField st;
     highlightedField := highlightedField st;
     editTimeoutRef := editTimeoutRef st; records := records st;
     invalidations := invalidations st; inFlight := inFlight st;
     nextMutationId := v; currentMutation := currentMutation st;
     requests := requests st; toasts := toasts st;
     document := document st |}.

Definition set_currentMutation {R} {T : Table R} (v : option nat) (st : State R) : State R :=
  {| now := now st; timers := timers st; nextHandle := nextHandle st;
     editingId := editingId st; savingField := savingField st;
     highlightedField := highlightedField st;
     editTimeoutRef := editTimeoutRef st; records := records st;
     invalidations := invalidations st; inFlight := inFlight st;
     nextMutationId := nextMutationId st; currentMutation := v;
     requests := requests st; toasts := toasts st;
     document := document st |}.

Definition set_requests {R} {T : Table R} (v : list (Z * UpdateCall)) (st : State R) : State R :=
  {| now := now st; timers := timers st; nextHandle := nextHandle st;
     editingId := editingId st; savingField := savingField st;
     highlightedField := highlightedField st;
     editTimeoutRef := editTimeoutRef st; records := records st;
     invalidations := invalidations st; inFlight := inFlight st;
     nextMutationId := nextMutationId st;
     currentMutation := currentMutation st; requests := v;
     toasts := toasts st;
     document := document st |}.

Definition set_toasts {R} {T : Table R} (v : list Toast) (st : State R) : State R :=
  {| now := now st; timers := timers st; nextHandle := nextHandle st;
     editingId := editingId st; savingField := savingField st;
     highlightedField := highlightedField st;
     editTimeoutRef := editTimeoutRef st; records := records st;
     invalidations := invalidations st; inFlight := inFlight st;
     nextMutationId := nextMutationId st;
     currentMutation := currentMutation st; requests := requests st;
     toasts := v;
     document := document st |}.

Definition set_document {R} {T : Table R} (v : Dom) (st : State R) : State R :=
  {| now := now st; timers := timers st; nextHandle := nextHandle st;
     editingId := editingId st; savingField := savingField st;
     highlightedField := highlightedField st;
     editTimeoutRef := editTimeoutRef st; records := records st;
     invalidations := invalidations st; inFlight := inFlight st;
     nextMutationId := nextMutationId st;
     currentMutation := currentMutation st; requests := requests st;
     toasts := toasts st; document := v |}.

(** *** Timers *)

Definition setTimeout {R} {T : Table R} (a : TimerAction) (delay : Z) (st : State R)
  : positive * State R :=
  let h := nextHandle st in
  (h, set_nextHandle (Pos.succ h)
        (set_timers (timers st ++ [{| handle := h; due := now st + delay; action := a |}])
           st)).

Definition clearTimeout {R} {T : Table R} (h : positive) (st : State R) : State R :=
  set_timers (filter (fun t => negb (Pos.eqb (handle t) h)) (timers st)) st.

(** The timer to fire next among those due by [deadline], and the queue
    without it: the earliest, and of two equally early the one set first. *)
Fixpoint pick (deadline : Z) (ts : list Timer) : option (Timer * list Timer) :=
  match ts with
  | [] => None
  | t :: rest =>
      match pick deadline rest with
      | Some (u, rest') =>
          if (due t <=? deadline) && (due t <=? due u)
          then Some (t, rest) else Some (u, t :: rest')
      | None => if due t <=? deadline then Some (t, rest) else None
      end
  end.

(** *** The mutation observer *)

(** [updateMutation.mutate(variables, callbacks)]: the request goes out
    at once, and the observer now follows this mutation only. *)
Definition mutate {R} {T : Table R} (call : UpdateCall) (st : State R) : State R :=
  let m := nextMutationId st in
  set_requests (requests st ++ [(now st, call)])
    (set_currentMutation (Some m)
       (set_nextMutationId (S m)
          (set_inFlight (inFlight st ++ [{| mutationId := m; variables := call |}])
             st))).

(** The callbacks of a table: those of [useMutation], run for every
    mutation, and those passed to [mutate], run after them and only for
    the mutation the observer still follows (the latest call). *)
Record Callbacks (R : Type) {T : Table R} := {
  onSuccess : State R -> State R;
  onError : State R -> State R;
  mutate_onSuccess : UpdateCall -> State R -> State R;
  mutate_onError : UpdateCall -> State R -> State R
}.
Arguments onSuccess {R T} _ _.
Arguments onError {R T} _ _.
Arguments mutate_onSuccess {R T} _ _ _.
Arguments mutate_onError {R T} _ _ _.

Definition isLatest {R} {T : Table R} (m : nat) (st : State R) : bool :=
  match currentMutation st with
  | Some c => Nat.eqb c m
  | None => false
  end.

(** The collaborator answers mutation [m]: [ok] when the update
    resolved, otherwise it rejected. *)
Definition settle {R} {T : Table R} (cb : Callbacks R) (m : nat) (ok : bool) (st : State R)
  : State R :=
  match find (fun x => Nat.eqb (mutationId x) m) (inFlight st) with
  | None => st
  | Some mu =>
      let st := set_inFlight
                  (filter (fun x => negb (Nat.eqb (mutationId x) m)) (inFlight st)) st in
      if ok then
        let st := onSuccess cb st in
        if isLatest m st then mutate_onSuccess cb (variables mu) st else st
      else
        let st := onError cb st in
        if isLatest m st then mutate_onError cb (variables mu) st else st
  end.

Definition toast {R} {T : Table R} (t : Toast) (st : State R) : State R :=
  set_toasts (toasts st ++ [t]) st.

Definition invalidateQueries {R} {T : Table R} (st : State R) : State R :=
  set_invalidations (S (invalidations st)) st.

Definition isDestructive (t : Toast) : bool :=
  match toast_variant t with
  | Some v => String.eqb v "destructive"
  | None => false
  end.

(** What both tables do first in the [onSuccess] they pass to [mutate]:
    a notice, the mark, and the timer that clears it. The handle of
    that timer is dropped. *)
Definition markSaved {R} {T : Table R} (call : UpdateCall) (st : State R) : State R :=
  let st := toast {| toast_title := None;
                     toast_description := "Changes saved successfully";
                     toast_duration := Some 2000;
                     toast_variant := None |} st in
  let st := set_highlightedField (Some (upd_id call, upd_field call)) st in
  snd (setTimeout ClearHighlight 1000 st).

(** *** Firing timers *)

(** What the focus callback of a table does:
    [document.querySelector(...)?.focus()] for the field it was set
    for, with the blur that moving the focus causes. *)
Class FocusCallback (R : Type) {T : Table R} :=
  focusField : string -> State R -> State R.

(** The body of a timer callback. *)
Definition fire {R} {T : Table R} {F : FocusCallback R}
    (a : TimerAction) (st : State R) : State R :=
  match a with
  | DebouncedUpdate call =>
      let st := mutate call st in
      let st := set_editingId None st in
      let st := set_savingField None st in
      set_editTimeoutRef None st
  | ClearHighlight => set_highlightedField None st
  | FocusField field => focusField field st
  end.

(** Timers due by [deadline] fire in order, the clock standing at the
    due time of each. No callback sets a timer, so [fuel] as long as
    the queue is enough. *)
Fixpoint run_timers {R} {T : Table R} {F : FocusCallback R}
    (fuel : nat) (deadline : Z) (st : State R) : State R :=
  match fuel with
  | O => st
  | S k =>
      match pick deadline (timers st) with
      | None => st
      | Some (t, rest) =>
          run_timers k deadline
            (fire (action t) (set_now (Z.max (now st) (due t)) (set_timers rest st)))
      end
  end.

(** [dt] milliseconds pass with no other event. *)
Definition advance {R} {T : Table R} {F : FocusCallback R}
    (dt : Z) (st : State R) : State R :=
  let deadline := now st + Z.max 0 dt in
  set_now deadline (run_timers (List.length (timers st)) deadline st).

(** The commits that wait for their settle delay: the live timers whose
    callback sends an update. *)
Definition isCommit (t : Timer) : bool :=
  match action t with
  | DebouncedUpdate _ => true
  | _ => false
  end.

Definition pendingCommits {R} {T : Table R} (st : State R) : list Timer :=
  filter isCommit (timers st).

Definition isFocus (t : Timer) : bool :=
  match action t with
  | FocusField _ => true
  | _ => false
  end.

(** The focus timers of a queue that are due by [deadline]. *)
Definition dueFocus (deadline : Z) (ts : list Timer) : list Timer :=
  filter (fun t => isFocus t && (due t <=? deadline)) ts.

Definition isClear (t : Timer) : bool :=
  match action t with
  | ClearHighlight => true
  | _ => false
  end.

(** The record and the field a timer will commit, if it is a commit. *)
Definition commitKey (t : Timer) : option (Z * string) :=
  match action t with
  | DebouncedUpdate call => Some (upd_id call, upd_field call)
  | _ => None
  end.

(** The queue is sound: handles are all different and were handed out
    before [nextHandle], and no live timer is overdue. *)
Definition queued {R} {T : Table R} (st : State R) : Prop :=
  NoDup (map handle (timers st))
  /\ Forall (fun t => (handle t < nextHandle st)%positive) (timers st)
  /\ Forall (fun t => now st <= due t) (timers st).

(** The focus callback of a table keeps out of the event loop, the refs,
    the edit mode and the marks. *)
Class FocusFrame (R : Type) {T : Table R} {F : FocusCallback R} : Prop := {
  focus_timers : forall f st, timers (focusField f st) = timers st;
  focus_now : forall f st, now (focusField f st) = now st;
  focus_nextHandle : forall f st, nextHandle (focusField f st) = nextHandle st;
  focus_highlightedField :
    forall f st, highlightedField (focusField f st) = highlightedField st;
  focus_editTimeoutRef :
    forall f st, editTimeoutRef (focusField f st) = editTimeoutRef st;
  focus_editingId : forall f st, editingId (focusField f st) = editingId st;
  focus_records : forall f st, records (focusField f st) = records st;
  focus_invalidations :
    forall f st, invalidations (focusField f st) = invalidations st;
  focus_toasts : forall f st, toasts (focusField f st) = toasts st
}.

(** A table whose focus callback does nothing at all. *)
Class FocusQuiet (R : Type) {T : Table R} {F : FocusCallback R} : Prop :=
  focus_quiet : forall f st, focusField f st = st.

End Runtime.


(** ** The sleep table *)

Module SleepLog.
Import Js Runtime.

Definition Sleep := SleepForm.Sleep.

(** The callbacks of the sleep table read nothing off the document, and
    the table sets no focus timer. *)
#[global] Instance sleepDocument : Table Sleep := {| Dom := unit; blank := tt |}.

#[global] Instance sleepFocus : FocusCallback Sleep := fun _ st => st.

Definition updateMutation : Callbacks Sleep :=
  {| onSuccess := fun st =>
       let st := invalidateQueries st in
       let st := toast {| toast_title := Some "Success";
                          toast_description := "Sleep log updated successfully";
                          toast_duration := None;
                          toast_variant := None |} st in
       set_editingId None st;
     onError := fun st =>
       toast {| toast_title := Some "Error";
                toast_description := "Failed to update sleep log";
                toast_duration := None;
                toast_variant := Some "destructive" |} st;
     mutate_onSuccess := fun call st => markSaved call st;
     mutate_onError := fun _ st => st |}.

(** The commit is put off by 500 ms; a timer already waiting, for
    whatever record and field, is cleared first. The component defines
    the handler; its table renders no control that calls it yet. *)
Definition handleInlineEdit (sleep : Sleep) (field : string) (value : Value)
    (st : State Sleep) : State Sleep :=
  let st := match editTimeoutRef st with
            | Some h => clearTimeout h st
            | None => st
            end in
  let st := set_savingField (Some (SleepForm.id sleep, field)) st in
  let (h, st) :=
    setTimeout
      (DebouncedUpdate {| upd_id := SleepForm.id sleep;
                          upd_field := field;
                          upd_value := value |})
      500 st in
  set_editTimeoutRef (Some h) st.

(** [mousedown] on the document; [outside] when the card is mounted and
    does not contain the target. *)
Definition handleClickOutside (outside : bool) (st : State Sleep) : State Sleep :=
  if outside then
    let st := match editTimeoutRef st with
              | Some h => set_editTimeoutRef None (clearTimeout h st)
              | None => st
              end in
    set_editingId None st
  else st.

Inductive Event :=
| InlineEdit (sleep : Sleep) (field : string) (value : Value)
| MouseDown (outside : bool)
| Tick (dt : Z)
| Settled (m : nat) (ok : bool)
| Refetched (l : list Sleep).

Definition step (st : State Sleep) (e : Event) : State Sleep :=
  match e with
  | InlineEdit sleep field value => handleInlineEdit sleep field value st
  | MouseDown outside => handleClickOutside outside st
  | Tick dt => advance dt st
  | Settled m ok => settle updateMutation m ok st
  | Refetched l => set_records l st
  end.

Definition run (evs : list Event) (st : State Sleep) : State Sleep :=
  fold_left step evs st.

Definition reachable (st : State Sleep) : Prop :=
  exists t0 l evs, st = run evs (initial t0 l).

(** [editTimeoutRef] names the waiting commit, when there is one, and
    there is no other. *)
Definition linked (st : State Sleep) : Prop :=
  match editTimeoutRef st with
  | None => pendingCommits st = []
  | Some h => exists t, pendingCommits st = [t] /\ handle t = h
  end.

Definition invariant (st : State Sleep) : Prop := linked st /\ queued st.

(** The timer [handleInlineEdit] sets when called in [st]. *)
Definition commitTimer (sleep : Sleep) (field : string) (value : Value)
    (st : State Sleep) : Timer :=
  {| handle := nextHandle st;
     due := now st + 500;
     action := DebouncedUpdate {| upd_id := SleepForm.id sleep;
                                  upd_field := field;
                                  upd_value := value |} |}.

End SleepLog.


(** ** The feeding table *)

Module FeedingLog.
Import Js Runtime.

Record Feeding := {
  id : Z;
  timestamp : string;
  feedingType : string;
  duration : Z;
  amount : option Number;
  notes : option string
}.

(** [feeding[field]]; [None] is [undefined]. *)
Definition getField (feeding : Feeding) (field : string) : option Value :=
  if String.eqb field "id" then Some (Num (Dec (id feeding) 0))
  else if String.eqb field "timestamp" then Some (Str (timestamp feeding))
  else if String.eqb field "feedingType" then Some (Str (feedingType feeding))
  else if String.eqb field "duration" then Some (Num (Dec (duration feeding) 0))
  else if String.eqb field "amount" then
    Some (match amount feeding with Some n => Num n | None => Null end)
  else if String.eqb field "notes" then
    Some (match notes feeding with Some s => Str s | None => Null end)
  else None.

(** [feeding[field]?.toString()]. *)
Definition fieldText (feeding : Feeding) (field : string) : option string :=
  match getField feeding field with
  | Some v => toString v
  | None => None
  end.

(** An element carrying [data-editing="true"]: its [data-field] and its
    [value] property. *)
Record Element := { dataField : string; value : string }.

(** The current [value] of the controls of the row in edit mode. The
    select trigger is a button; no [value] is given to it in the
    component, and what it reads as is left to the caller. *)
Record Controls := {
  triggerValue : string;
  durationValue : string;
  amountValue : string;
  notesValue : string
}.

Definition isBottle (feeding : Feeding) : bool :=
  String.eqb (feedingType feeding) "bottle".

(** The marked elements of a table row in edit mode, in document order. *)
Definition rowElements (c : Controls) (feeding : Feeding) : list Element :=
  [ {| dataField := "feedingType"; value := triggerValue c |};
    {| dataField := "duration"; value := durationValue c |} ]
  ++ (if isBottle feeding
      then [ {| dataField := "amount"; value := amountValue c |} ] else [])
  ++ [ {| dataField := "notes"; value := notesValue c |} ].

(** Those of a card of the narrow layout, whose select trigger is not
    marked. *)
Definition cardElements (c : Controls) (feeding : Feeding) : list Element :=
  [ {| dataField := "duration"; value := durationValue c |} ]
  ++ (if isBottle feeding
      then [ {| dataField := "amount"; value := amountValue c |} ] else [])
  ++ [ {| dataField := "notes"; value := notesValue c |} ].

Definition isEditing (editing : option Z) (feeding : Feeding) : bool :=
  match editing with
  | Some e => e =? id feeding
  | None => false
  end.

(** All elements matching [[data-editing="true"]], in document order:
    the table comes first, the cards after it. *)
Definition editingElements (feedings : list Feeding) (editing : option Z)
    (table cards : Controls) : list Element :=
  flat_map (fun f => if isEditing editing f then rowElements table f else []) feedings
  ++ flat_map (fun f => if isEditing editing f then cardElements cards f else []) feedings.

(** [document.querySelector('[data-editing="true"]')]: the first match. *)
Definition querySelector (document : list Element) : option Element :=
  hd_error document.

(** [document.querySelector('[data-field="f"][data-editing="true"]')],
    which the focus callbacks call: the first marked element of that
    field. *)
Definition focusTarget (document : list Element) (field : string)
  : option Element :=
  find (fun el => String.eqb (dataField el) field) document.

(** What the callbacks meet in the document: whether the wide layout
    is displayed (the table; the cards are then hidden, and the other
    way round), which marked element of the displayed layout holds the
    focus (the place of its row in the list and its [data-field]), and
    what the controls of the table and of the cards hold. *)
Record Document := {
  wide : bool;
  activeElement : option (nat * string);
  tableControls : Controls;
  cardControls : Controls
}.

Definition noControls : Controls :=
  {| triggerValue := ""; durationValue := ""; amountValue := ""; notesValue := "" |}.

#[global] Instance feedingDocument : Table Feeding :=
  {| Dom := Document;
     blank := {| wide := true; activeElement := None;
                 tableControls := noControls; cardControls := noControls |} |}.

Definition set_activeElement (v : option (nat * string)) (dom : Document)
  : Document :=
  {| wide := wide dom; activeElement := v;
     tableControls := tableControls dom; cardControls := cardControls dom |}.

Definition updateMutation : Callbacks Feeding :=
  {| onSuccess := fun st =>
       let st := invalidateQueries st in
       let st := toast {| toast_title := Some "Success";
                          toast_description := "Feeding log updated successfully";
                          toast_duration := None;
                          toast_variant := None |} st in
       set_editingId None st;
     onError := fun st =>
       toast {| toast_title := Some "Error";
                toast_description := "Failed to update feeding log";
                toast_duration := None;
                toast_variant := Some "destructive" |} st;
     mutate_onSuccess := fun call st =>
       let st := markSaved call st in
       let st := set_editingId None st in
       set_savingField None st;
     mutate_onError := fun _ st =>
       let st := set_savingField None st in
       toast {| toast_title := Some "Error";
                toast_description := "Failed to save changes";
                toast_duration := None;
                toast_variant := Some "destructive" |} st |}.

(** The update goes out at once. *)
Definition handleInlineEdit (feeding : Feeding) (field : string) (value : Value)
    (st : State Feeding) : State Feeding :=
  let st := set_savingField (Some (id feeding, field)) st in
  mutate {| upd_id := id feeding; upd_field := field; upd_value := value |} st.

(** [field === 'amount' ? (value ? parseFloat(value) : null) : value],
    as written in [handleKeyDown] and in [handleClickOutside]. *)
Definition keyedValue (field : string) (value : string) : Value :=
  if String.eqb field "amount" then
    if String.eqb value "" then Null else Num (parseFloat value)
  else Str value.

(** The [onBlur] of the input rendered for [field]; the select trigger
    of the feeding type has none. *)
Definition input_onBlur (feeding : Feeding) (field : string) (value : string)
    (st : State Feeding) : State Feeding :=
  if String.eqb field "duration" then
    handleInlineEdit feeding "duration" (Num (parseInt value)) st
  else if String.eqb field "amount" then
    handleInlineEdit feeding "amount"
      (if String.eqb value "" then Null else Num (parseFloat value)) st
  else if String.eqb field "notes" then
    handleInlineEdit feeding "notes" (Str value) st
  else st.

Definition editableFields : list string :=
  ["feedingType"; "duration"; "amount"; "notes"].

Fixpoint indexOf (x : string) (l : list string) (i : Z) : Z :=
  match l with
  | [] => -1
  | y :: rest => if String.eqb x y then i else indexOf x rest (i + 1)
  end.

Definition nextField (field : string) : string :=
  let currentIndex := indexOf field editableFields 0 in
  nth (Z.to_nat (Z.rem (currentIndex + 1) (Z.of_nat (List.length editableFields))))
      editableFields "".

(** [handleKeyDown(e, feeding, field)] on the input of [field], which
    holds the focus and the text [value]. [target.blur()] takes the
    focus off that input, so its [onBlur] runs before the handler
    returns, and no element of the table holds the focus afterwards. *)
Definition handleKeyDown (key : string) (value : string)
    (feeding : Feeding) (field : string) (st : State Feeding) : State Feeding :=
  if String.eqb key "Enter" then
    handleInlineEdit feeding field (keyedValue field value) st
  else if String.eqb key "Escape" then
    let st := set_editingId None st in
    let st := input_onBlur feeding field value st in
    set_document (set_activeElement None (document st)) st
  else if String.eqb key "Tab" then
    let st :=
      match fieldText feeding field with
      | Some shown =>
          if String.eqb value shown then st
          else handleInlineEdit feeding field (keyedValue field value) st
      | None => handleInlineEdit feeding field (keyedValue field value) st
      end in
    let st := set_editingId (Some (id feeding)) st in
    snd (setTimeout (FocusField (nextField field)) 0 st)
  else st.

Definition handleClickOutside (outside : bool) (document : list Element)
    (st : State Feeding) : State Feeding :=
  if outside then
    let st :=
      match editingId st with
      | Some editing =>
          match querySelector document with
          | Some activeInput =>
              let field := dataField activeInput in
              match find (fun f => id f =? editing) (records st) with
              | Some feeding =>
                  handleInlineEdit feeding field
                    (keyedValue field (value activeInput)) st
              | None => st
              end
          | None => st
          end
      | None => st
      end in
    set_editingId None st
  else st.

(** *** Moving the focus *)

(** What a control of the table holds, by its [data-field]. *)
Definition controlValue (c : Controls) (field : string) : string :=
  if String.eqb field "feedingType" then triggerValue c
  else if String.eqb field "duration" then durationValue c
  else if String.eqb field "amount" then amountValue c
  else if String.eqb field "notes" then notesValue c
  else "".

(** The row in edit mode has a marked element for [field] in the table. *)
Definition hasElement (feeding : Feeding) (field : string) : bool :=
  existsb (fun el => String.eqb (dataField el) field) (rowElements noControls feeding).

(** The place in the list of the row whose element the query for
    [field] finds: the first row in edit mode that has one. *)
Fixpoint targetRow (feedings : list Feeding) (editing : option Z)
    (field : string) (i : nat) : option nat :=
  match feedings with
  | [] => None
  | f :: rest =>
      if isEditing editing f && hasElement f field then Some i
      else targetRow rest editing field (S i)
  end.

(** The element that holds the focus loses it. When it is an input of
    the table that is still mounted, its [onBlur] runs with what the
    input holds; the select trigger has no [onBlur]. *)
Definition blurActive (st : State Feeding) : State Feeding :=
  match activeElement (document st) with
  | Some (row, field) =>
      match nth_error (records st) row with
      | Some feeding =>
          if isEditing (editingId st) feeding && hasElement feeding field
          then input_onBlur feeding field
                 (controlValue (tableControls (document st)) field) st
          else st
      | None => st
      end
  | None => st
  end.

(** [document.querySelector(`[data-field="${field}"][data-editing="true"]`)?.focus()].
    The first match is an element of the table. It takes the focus only
    while the table is displayed, and nothing happens when it holds the
    focus already; otherwise the element that held the focus is blurred
    first. *)
Definition focus (field : string) (st : State Feeding) : State Feeding :=
  let dom := document st in
  match focusTarget (editingElements (records st) (editingId st)
                       (tableControls dom) (cardControls dom)) field with
  | Some _ =>
      match targetRow (records st) (editingId st) field 0 with
      | Some row =>
          if negb (wide dom) then st
          else
            match activeElement dom with
            | Some (row', field') =>
                if Nat.eqb row' row && String.eqb field' field then st
                else set_document (set_activeElement (Some (row, field)) dom)
                       (blurActive st)
            | None => set_document (set_activeElement (Some (row, field)) dom) st
            end
      | None => st
      end
  | None => st
  end.

#[global] Instance feedingFocus : FocusCallback Feeding := focus.

Inductive Event :=
(* a cell is clicked, or Enter is pressed on it while it is shown *)
| Activate (feeding : Feeding)
| AmountCellClick (feeding : Feeding)
(* the Edit / Done entry of the row menu *)
| MenuEdit (feeding : Feeding)
| KeyDown (key value : string) (feeding : Feeding) (field : string)
| Blur (feeding : Feeding) (field value : string)
(* the select of the feeding type, in the table and in a card *)
| TableSelectChange (feeding : Feeding) (value : string)
| CardSelectChange (feeding : Feeding) (value : string)
| SelectOpenChange (open : bool)
| TriggerKeyDown (key : string)
| MouseDown (outside : bool) (table cards : Controls)
(* the user moves the focus, types, or the layout changes: from now on
   the callbacks find the document as [dom] *)
| DocumentChanged (dom : Document)
| Tick (dt : Z)
| Settled (m : nat) (ok : bool)
| Refetched (l : list Feeding).

Definition step (st : State Feeding) (e : Event) : State Feeding :=
  match e with
  | Activate feeding => set_editingId (Some (id feeding)) st
  | AmountCellClick feeding =>
      if isBottle feeding then set_editingId (Some (id feeding)) st else st
  | MenuEdit feeding =>
      set_editingId (if isEditing (editingId st) feeding then None
                     else Some (id feeding)) st
  | KeyDown key value feeding field => handleKeyDown key value feeding field st
  | Blur feeding field value => input_onBlur feeding field value st
  | TableSelectChange feeding value =>
      let st := handleInlineEdit feeding "feedingType" (Str value) st in
      snd (setTimeout (FocusField "duration") 0 st)
  | CardSelectChange feeding value =>
      handleInlineEdit feeding "feedingType" (Str value) st
  | SelectOpenChange open => if open then st else set_editingId None st
  | TriggerKeyDown key =>
      if String.eqb key "Escape" then set_editingId None st
      else if String.eqb key "Tab" then
        (* the trigger, which has no [onBlur], holds the focus *)
        focus "duration" (set_document (set_activeElement None (document st)) st)
      else st
  | MouseDown outside table cards =>
      handleClickOutside outside
        (editingElements (records st) (editingId st) table cards) st
  | DocumentChanged dom => set_document dom st
  | Tick dt => advance dt st
  | Settled m ok => settle updateMutation m ok st
  | Refetched l => set_records l st
  end.

Definition run (evs : list Event) (st : State Feeding) : State Feeding :=
  fold_left step evs st.

Definition reachable (st : State Feeding) : Prop :=
  exists t0 l evs, st = run evs (initial t0 l).

(** The feeding table never sets a commit timer and never writes its
    [editTimeoutRef]. *)
Definition invariant (st : State Feeding) : Prop :=
  pendingCommits st = [] /\ editTimeoutRef st = None /\ queued st.

End FeedingLog.


(** ** Sample records and event sequences *)

Module Scenarios.
Import Js Runtime.

(** Universal time, and New York as it keeps time from November 2023 to
    March 2025: five hours behind, four from 10 March 2024, 07:00 UTC,
    and five again from 3 November 2024, 06:00 UTC. *)
Definition utc : JsDate.Zone :=
  {| JsDate.offsetBefore := 0; JsDate.transitions := [] |}.

Definition newYork : JsDate.Zone :=
  {| JsDate.offsetBefore := -18000000;
     JsDate.transitions :=
       [ {| JsDate.instant := 1710054000000; JsDate.offsetAfter := -14400000 |};
         {| JsDate.instant := 1730613600000; JsDate.offsetAfter := -18000000 |} ] |}.

(** A night from 22:00 to 06:00, on the form of 29 November 2024. *)
Definition form_22_06 : SleepForm.FormValues :=
  {| SleepForm.date := Some 1732838400000;
     SleepForm.startTime := "22:00";
     SleepForm.endTime := "06:00";
     SleepForm.sleepType := SleepForm.night;
     SleepForm.notes := "" |}.

(** The same night on the form of 2 November 2024, noon in New York:
    the night in which the clocks there are set back. *)
Definition form_clocks_set_back : SleepForm.FormValues :=
  {| SleepForm.date := Some 1730563200000;
     SleepForm.startTime := "22:00";
     SleepForm.endTime := "06:00";
     SleepForm.sleepType := SleepForm.night;
     SleepForm.notes := "" |}.


Definition sleep1 : SleepForm.Sleep :=
  {| SleepForm.id := 1;
     SleepForm.sl_startTime := 1732885200000;
     SleepForm.sl_endTime := Some 1732888800000;
     SleepForm.sl_sleepType := SleepForm.nap;
     SleepForm.sl_notes := None |}.

Definition sleep2 : SleepForm.Sleep :=
  {| SleepForm.id := 2;
     SleepForm.sl_startTime := 1732917600000;
     SleepForm.sl_endTime := Some 1732946400000;
     SleepForm.sl_sleepType := SleepForm.night;
     SleepForm.sl_notes := None |}.

(** The notes of record 1 are edited and, 100 ms later, those of
    record 2. *)
Definition editOfRecord1 : list SleepLog.Event :=
  [ SleepLog.InlineEdit sleep1 "notes" (Str "restless"); SleepLog.Tick 100 ].

Definition feeding7 : FeedingLog.Feeding :=
  {| FeedingLog.id := 7;
     FeedingLog.timestamp := "2024-11-29T05:09:27.066Z";
     FeedingLog.feedingType := "bottle";
     FeedingLog.duration := 20;
     FeedingLog.amount := Some (Dec 45 (-1));
     FeedingLog.notes := None |}.

Definition feeding8 : FeedingLog.Feeding :=
  {| FeedingLog.id := 8;
     FeedingLog.timestamp := "2024-11-29T08:30:00.000Z";
     FeedingLog.feedingType := "breast";
     FeedingLog.duration := 15;
     FeedingLog.amount := None;
     FeedingLog.notes := Some "calm" |}.

Definition feedingTable : State FeedingLog.Feeding :=
  initial 0 [feeding7; feeding8].

(** Row 7 is opened and 45 is typed into its duration input. *)
Definition typed45 : FeedingLog.Controls :=
  {| FeedingLog.triggerValue := "";
     FeedingLog.durationValue := "45";
     FeedingLog.amountValue := "4.5";
     FeedingLog.notesValue := "" |}.

(** Enter on the duration of row 7; the update is rejected 100 ms later. *)
Definition rejectedEnter : list FeedingLog.Event :=
  [ FeedingLog.Activate feeding7;
    FeedingLog.KeyDown "Enter" "45" feeding7 "duration";
    FeedingLog.Tick 100;
    FeedingLog.Settled 0 false ].

(** Two commits of the duration of row 7, saved at 100 ms and at 700 ms. *)
Definition firstSave : list FeedingLog.Event :=
  [ FeedingLog.Activate feeding7;
    FeedingLog.KeyDown "Enter" "45" feeding7 "duration";
    FeedingLog.Tick 100;
    FeedingLog.Settled 0 true ].

Definition secondEdit : list FeedingLog.Event :=
  firstSave
  ++ [ FeedingLog.Tick 500;
       FeedingLog.Activate feeding7;
       FeedingLog.KeyDown "Enter" "50" feeding7 "duration";
       FeedingLog.Tick 100 ].

(** The duration of row 7 and the notes of row 8 are committed one after
    the other, before either update has been answered. *)
Definition twoInFlight : list FeedingLog.Event :=
  [ FeedingLog.Activate feeding7;
    FeedingLog.Blur feeding7 "duration" "45";
    FeedingLog.Activate feeding8;
    FeedingLog.Blur feeding8 "notes" "fussy" ].

End Scenarios.


(** ** Statements of the specification that the code does not meet *)

Module Stated.
Import Js Runtime.

(** The duration calculator: whatever the moment and the place, an end
    clock before the start clock gives (24 h - start) + end minutes, and
    the result is never negative. *)
Definition rollover_adds_24_hours : Prop :=
  forall z now1 now2 form s e,
    now1 <= now2 ->
    SleepForm.clockOfString (SleepForm.startTime form) = Some s ->
    SleepForm.clockOfString (SleepForm.endTime form) = Some e ->
    SleepForm.valid_clock s -> SleepForm.valid_clock e ->
    exists m,
      SleepForm.calculateDuration_minutes z now1 now2 form = Some m
      /\ 0 <= m
      /\ (SleepForm.clockMinutes e < SleepForm.clockMinutes s ->
          m = (24 * 60 - SleepForm.clockMinutes s) + SleepForm.clockMinutes e).

(** The scenario of the classification: 22:00 to 06:00 is 480 minutes,
    whenever it is computed. *)
Definition night_scenario_is_480 : Prop :=
  forall z now1 now2 day note,
    now1 <= now2 ->
    SleepForm.calculateDuration_minutes z now1 now2
      {| SleepForm.date := day; SleepForm.startTime := "22:00";
         SleepForm.endTime := "06:00"; SleepForm.sleepType := SleepForm.night;
         SleepForm.notes := note |} = Some 480.


(** Section 5: commits of different keys wait side by side, and
    scheduling one never cancels another (sleep table). *)
Definition two_commits_pending : Prop :=
  exists st t1 t2,
    SleepLog.reachable st
    /\ In t1 (pendingCommits st) /\ In t2 (pendingCommits st)
    /\ commitKey t1 <> commitKey t2.

Definition scheduling_spares_other_keys : Prop :=
  forall st sleep field value t,
    SleepLog.reachable st -> In t (pendingCommits st) ->
    commitKey t <> Some (SleepForm.id sleep, field) ->
    In t (pendingCommits (SleepLog.handleInlineEdit sleep field value st)).

Definition independent_pending_commits : Prop :=
  two_commits_pending /\ scheduling_spares_other_keys.

(** Section 7: a rejected update returns the edit target to Idle. *)
Definition failure_returns_to_idle : Prop :=
  forall st m mu,
    FeedingLog.reachable st ->
    find (fun x => Nat.eqb (mutationId x) m) (inFlight st) = Some mu ->
    editingId (settle FeedingLog.updateMutation m false st) = None.

(** Section 4.6: a mark stays for its own full second, whatever marks
    were made before it. *)
Definition mark_lasts_its_window : Prop :=
  forall st m mu dt,
    FeedingLog.reachable st ->
    find (fun x => Nat.eqb (mutationId x) m) (inFlight st) = Some mu ->
    currentMutation st = Some m ->
    0 <= dt < 1000 ->
    highlightedField (advance dt (settle FeedingLog.updateMutation m true st))
    = Some (upd_id (variables mu), upd_field (variables mu)).

End Stated.


(** ** The sleep form: presets and the texts it shows *)

Module SleepPresets.
Import Js JsText JsDate SleepForm.

Definition clockOfDate (z : Zone) (d : Date) : Clock :=
  {| hours := getHours z d; minutes := getMinutes z d |}.

(** date-fns [format(d, "HH:mm")] of a valid date: its local hour and
    minute. *)
Definition format_HHmm (z : Zone) (d : Date) : string :=
  clockText (clockOfDate z d).

Record PresetDuration := {
  label : string;
  preset_hours : Z;
  preset_minutes : Z;
  tooltip : option string
}.

Definition napPresets : list PresetDuration :=
  [ {| label := "30min"; preset_hours := 0; preset_minutes := 30;
       tooltip := Some "Quick power nap" |};
    {| label := "1h"; preset_hours := 1; preset_minutes := 0;
       tooltip := Some "Standard nap duration" |};
    {| label := "1.5h"; preset_hours := 1; preset_minutes := 30;
       tooltip := Some "Full sleep cycle" |};
    {| label := "2h"; preset_hours := 2; preset_minutes := 0;
       tooltip := Some "Long nap" |} ].

Definition nightPresets : list PresetDuration :=
  [ {| label := "8h"; preset_hours := 8; preset_minutes := 0;
       tooltip := Some "Minimum recommended sleep" |};
    {| label := "10h"; preset_hours := 10; preset_minutes := 0;
       tooltip := Some "Optimal sleep duration" |};
    {| label := "12h"; preset_hours := 12; preset_minutes := 0;
       tooltip := Some "Maximum recommended sleep" |} ].

(** The presets the form offers for a sleep type. *)
Definition presetsFor (t : SleepType) : list PresetDuration :=
  match t with nap => napPresets | night => nightPresets end.

(** The length of a preset in minutes. *)
Definition presetLength (p : PresetDuration) : Z :=
  preset_hours p * 60 + preset_minutes p.

(** [addMinutes(addHours(startDate, hours), minutes)] on a Date object. *)
Definition addPreset (startDate : option Date) (preset : PresetDuration)
  : option Date :=
  match startDate with
  | Some d =>
      match timeClip (addHours d (preset_hours preset)) with
      | Some d' => timeClip (addMinutes d' (preset_minutes preset))
      | None => None
      end
  | None => None
  end.

(** The text [applyPreset] puts into the end-time field; [today] is its
    [new Date()]. [format] throws on an Invalid Date: [None], and the
    field is left as it is. *)
Definition applyPreset (z : Zone) (today : Date) (start : string)
    (preset : PresetDuration) : option string :=
  let startDate := setClock z start (Some today) in
  match addPreset startDate preset with
  | Some endDate => Some (format_HHmm z endDate)
  | None => None
  end.

(** [form.setValue("endTime", value)]. *)
Definition setEndTime (value : string) (form : FormValues) : FormValues :=
  {| date := date form; startTime := startTime form; endTime := value;
     sleepType := sleepType form; notes := notes form |}.

(** The form after a press on the button of [preset]. *)
Definition pressPreset (z : Zone) (today : Date) (preset : PresetDuration)
    (form : FormValues) : FormValues :=
  match applyPreset z today (startTime form) preset with
  | Some value => setEndTime value form
  | None => form
  end.

(** All of [l], when none is missing. *)
Fixpoint allOf {A : Type} (l : list (option A)) : option (list A) :=
  match l with
  | [] => Some []
  | Some x :: rest =>
      match allOf rest with
      | Some xs => Some (x :: xs)
      | None => None
      end
  | None :: _ => None
  end.

(** The quick picks under the nap presets, computed while the form is
    rendered; [None] when [format] throws. *)
Definition getRecommendedEndTimes (z : Zone) (today : Date) (start : string)
  : option (list string) :=
  let startDate := setClock z start (Some today) in
  allOf (map (fun preset =>
                match addPreset startDate preset with
                | Some endTime => Some (format_HHmm z endTime)
                | None => None
                end)
             napPresets).

(** The two numbers of a duration text, [Math.floor(d / 60)] and
    [d % 60], and the text made of them. *)
Definition durationParts (d : Z) : Z * Z := (d / 60, Z.rem d 60).

Definition durationText (d : Z) : string :=
  show (fst (durationParts d)) ++ "h " ++ show (snd (durationParts d)) ++ "m".

(** The duration column of the sleep table. *)
Definition rowDurationText (log : Sleep) : string := durationText (rowDuration log).

(** The [defaultValues] of the form; the component reads the clock once
    for each of the three fields. *)
Definition defaultValues (z : Zone) (now1 now2 now3 : Date) : option FormValues :=
  match timeClip (addHours now3 8) with
  | Some later =>
      Some {| date := Some now1; startTime := format_HHmm z now2;
              endTime := format_HHmm z later;
              sleepType := night; notes := "" |}
  | None => None
  end.

(** The classes from too short to too long. *)
Definition rank (c : DurationClassification) : Z :=
  match c with
  | BelowRecommended => 0
  | WithinRecommended => 1
  | AboveRecommended => 2
  end.

(** Whether the text of a clock reads back as that clock. *)
Definition readsBack (h m : Z) : bool :=
  match clockOfString (clockText {| hours := h; minutes := m |}) with
  | Some c => (hours c =? h) && (minutes c =? m)
  | None => false
  end.

(** The integers from 0 up to, not including, [n]. *)
Definition range (n : nat) : list Z := map Z.of_nat (seq 0 n).

End SleepPresets.


(** ** More of the two tables *)

Module TableViews.
Import Js Runtime.

(** What a cell of the table shows for a row and a field. In edit mode
    the cell holds a control: the select shows the label of the stored
    feeding type, an input shows the text it holds. Out of edit mode
    the cell shows the stored value. *)
Definition typeLabel (t : string) : string :=
  if String.eqb t "breast" then "Breastfeeding"
  else if String.eqb t "bottle" then "Bottle"
  else if String.eqb t "solids" then "Solids"
  else "".

Definition truthy (n : Number) : bool :=
  match n with
  | NaN => false
  | Infinity _ => true
  | Dec m _ => negb (m =? 0)
  end.

Definition storedText (feeding : FeedingLog.Feeding) (field : string) : string :=
  if String.eqb field "feedingType" then FeedingLog.feedingType feeding
  else if String.eqb field "duration" then
    numberToString (Dec (FeedingLog.duration feeding) 0) ++ " minutes"
  else if String.eqb field "amount" then
    if FeedingLog.isBottle feeding then
      match FeedingLog.amount feeding with
      | Some n => if truthy n then numberToString n ++ " ounces" else "-"
      | None => "-"
      end
    else ""
  else if String.eqb field "notes" then
    match FeedingLog.notes feeding with Some s => s | None => "" end
  else "".

Definition cellText (st : State FeedingLog.Feeding) (table : FeedingLog.Controls)
    (feeding : FeedingLog.Feeding) (field : string) : string :=
  if FeedingLog.isEditing (editingId st) feeding then
    if String.eqb field "feedingType" then typeLabel (FeedingLog.feedingType feeding)
    else if String.eqb field "amount" && negb (FeedingLog.isBottle feeding) then ""
    else FeedingLog.controlValue table field
  else storedText feeding field.

(** [savingField?.id === feeding.id && savingField?.field === field]:
    the cell shows the spinner. *)
Definition showsSpinner (st : State FeedingLog.Feeding)
    (feeding : FeedingLog.Feeding) (field : string) : bool :=
  match savingField st with
  | Some (i, f) => (i =? FeedingLog.id feeding) && String.eqb f field
  | None => false
  end.

(** The update the observer follows, while it is in flight. *)
Definition latestInFlight {R} {T : Table R} (st : State R) : option Mutation :=
  match currentMutation st with
  | Some m => find (fun x => Nat.eqb (mutationId x) m) (inFlight st)
  | None => None
  end.

(** The spinner stands for the update the observer follows. *)
Definition spinnerFollows (st : State FeedingLog.Feeding) : Prop :=
  match savingField st with
  | Some key =>
      exists mu, latestInFlight st = Some mu
                 /\ key = (upd_id (variables mu), upd_field (variables mu))
  | None => True
  end.

(** Mutation identifiers are handed out in order: those in flight were
    all handed out before [nextMutationId]. *)
Definition freshIds {R} {T : Table R} (st : State R) : Prop :=
  Forall (fun x => (mutationId x < nextMutationId st)%nat) (inFlight st).

(** What holds of the updates of the feeding table at any time. *)
Definition tracked (st : State FeedingLog.Feeding) : Prop :=
  freshIds st /\ spinnerFollows st.

(** One edit of the sleep table and the time until the next event. *)
Record Edit := {
  edit_sleep : SleepLog.Sleep;
  edit_field : string;
  edit_value : Value;
  edit_gap : Z
}.

(** A run of edits, each followed by its gap. *)
Definition burstEvents (burst : list Edit) : list SleepLog.Event :=
  flat_map (fun e => [ SleepLog.InlineEdit (edit_sleep e) (edit_field e) (edit_value e);
                       SleepLog.Tick (edit_gap e) ]) burst.

Definition burstLength (burst : list Edit) : Z :=
  fold_right (fun e total => edit_gap e + total) 0 burst.

End TableViews.


(** ** Deleting a record *)

Module DeleteFlow.
Import Runtime.

(** What a table says when a delete succeeds or fails. *)
Record Messages := { deleted : string; failed : string }.

Definition sleepMessages : Messages :=
  {| deleted := "Sleep log deleted successfully";
     failed := "Failed to delete sleep log" |}.

Definition feedingMessages : Messages :=
  {| deleted := "Feeding log deleted successfully";
     failed := "Failed to delete feeding log" |}.

(** The part of a table component the delete dialog works on:
    [deleteConfirmId], whether [deleteMutation] is pending, the calls
    made to the delete operation, the refreshes requested, the notices. *)
Record State := {
  deleteConfirmId : option Z;
  isPending : bool;
  deleteCalls : list Z;
  refreshes : nat;
  notices : list Toast
}.

Definition initial : State :=
  {| deleteConfirmId := None; isPending := false; deleteCalls := [];
     refreshes := 0%nat; notices := [] |}.

Definition setDeleteConfirmId (v : option Z) (st : State) : State :=
  {| deleteConfirmId := v; isPending := isPending st;
     deleteCalls := deleteCalls st; refreshes := refreshes st;
     notices := notices st |}.

(** [deleteConfirmId && deleteMutation.mutate(deleteConfirmId)], on a
    button that is disabled while the mutation is pending. *)
Definition deleteClick (st : State) : State :=
  if isPending st then st
  else
    match deleteConfirmId st with
    | Some id =>
        if id =? 0 then st
        else {| deleteConfirmId := deleteConfirmId st; isPending := true;
                deleteCalls := deleteCalls st ++ [id];
                refreshes := refreshes st; notices := notices st |}
    | None => st
    end.

(** The collaborator answers the pending delete. *)
Definition settled (msg : Messages) (ok : bool) (st : State) : State :=
  if isPending st then
    if ok then
      {| deleteConfirmId := None; isPending := false;
         deleteCalls := deleteCalls st; refreshes := S (refreshes st);
         notices := notices st
                    ++ [{| toast_title := Some "Success";
                           toast_description := deleted msg;
                           toast_duration := None;
                           toast_variant := None |}] |}
    else
      {| deleteConfirmId := deleteConfirmId st; isPending := false;
         deleteCalls := deleteCalls st; refreshes := refreshes st;
         notices := notices st
                    ++ [{| toast_title := Some "Error";
                           toast_description := failed msg;
                           toast_duration := None;
                           toast_variant := Some "destructive" |}] |}
  else st.

Inductive Event :=
| MenuDelete (id : Z)   (* the Delete entry of a row menu *)
| DialogDismissed       (* onOpenChange of the dialog *)
| CancelClick
| DeleteClick
| Settled (ok : bool).

Definition step (msg : Messages) (st : State) (e : Event) : State :=
  match e with
  | MenuDelete id => setDeleteConfirmId (Some id) st
  | DialogDismissed => setDeleteConfirmId None st
  | CancelClick => setDeleteConfirmId None st
  | DeleteClick => deleteClick st
  | Settled ok => settled msg ok st
  end.

Definition run (msg : Messages) (evs : list Event) (st : State) : State :=
  fold_left (step msg) evs st.

(** The dialog is shown: [open={!!deleteConfirmId}]. *)
Definition dialogOpen (st : State) : bool :=
  match deleteConfirmId st with
  | Some id => negb (id =? 0)
  | None => false
  end.

End DeleteFlow.

(** * Properties *)

(** ** Duration arithmetic *)

Module SleepFormFacts.
Import Js JsText JsDate SleepForm Scenarios.

Lemma makeTime_decompose (c : Clock) (local : Z) :
  makeTime (hours c) (minutes c) local
  = startOfDay local + clockMinutes c * MS_PER_MINUTE + secondsAndMs local.
Proof. unfold makeTime, clockMinutes, MS_PER_HOUR, MS_PER_MINUTE. lia. Qed.

Lemma secondsAndMs_bounds (d : Z) : 0 <= secondsAndMs d < MS_PER_MINUTE.
Proof. unfold secondsAndMs, MS_PER_MINUTE. apply Z.mod_pos_bound. lia. Qed.

Lemma startOfDay_bounds (d : Z) : startOfDay d <= d < startOfDay d + MS_PER_DAY.
Proof.
  unfold startOfDay, MS_PER_DAY.
  pose proof (Z.div_mod d 86400000 ltac:(lia)).
  pose proof (Z.mod_pos_bound d 86400000 ltac:(lia)). lia.
Qed.

Lemma clockMinutes_bounds (c : Clock) :
  valid_clock c -> 0 <= clockMinutes c < 1440.
Proof. unfold valid_clock, clockMinutes. lia. Qed.

(** Two readings of the same minute lie in the same day and keep their
    order inside the minute. *)
Lemma same_minute_parts (local1 local2 : Z) :
  same_minute local1 local2 ->
  startOfDay local1 = startOfDay local2
  /\ secondsAndMs local1 <= secondsAndMs local2
  /\ local1 <= local2 < local1 + MS_PER_MINUTE.
Proof.
  unfold same_minute, startOfDay, secondsAndMs, MS_PER_DAY, MS_PER_MINUTE.
  intros [Hle Hq]. split; [| split].
  - replace 86400000 with (60000 * 1440) by reflexivity.
    rewrite <- !Z.div_div by lia. now rewrite Hq.
  - rewrite !Z.mod_eq by lia. rewrite Hq. lia.
  - pose proof (Z.div_mod local1 60000 ltac:(lia)).
    pose proof (Z.div_mod local2 60000 ltac:(lia)).
    pose proof (Z.mod_pos_bound local1 60000 ltac:(lia)).
    pose proof (Z.mod_pos_bound local2 60000 ltac:(lia)). lia.
Qed.

(** Full minutes of a non-negative span: [k] minutes and a rest below
    one minute. *)
Lemma quot_minutes (k r : Z) :
  0 <= k -> 0 <= r < MS_PER_MINUTE ->
  Z.quot (k * MS_PER_MINUTE + r) MS_PER_MINUTE = k.
Proof.
  unfold MS_PER_MINUTE. intros Hk Hr.
  rewrite Z.quot_div_nonneg by lia.
  symmetry. apply Z.div_unique with (r := r); lia.
Qed.

(** *** A zone that keeps its offset *)

Lemma steady_LocalTime (z : Zone) (c : Z) (t u : Date) :
  steady z c t -> t - 2 * MS_PER_DAY <= u <= t + 2 * MS_PER_DAY ->
  LocalTime z u = u + c.
Proof.
  intros [H _] Hu. unfold LocalTime. now rewrite (proj1 (H u Hu)).
Qed.

Lemma steady_UTC (z : Zone) (c : Z) (t : Date) (local : Z) :
  steady z c t ->
  t + c - 2 * MS_PER_DAY <= local <= t + c + 2 * MS_PER_DAY ->
  UTC z local = local - c.
Proof.
  intros [H _] Hl. unfold UTC.
  replace local with ((local - c) + c) at 2 by lia.
  rewrite (proj2 (H (local - c) ltac:(lia))). reflexivity.
Qed.

Lemma steady_timeClip (z : Zone) (c : Z) (t u : Date) :
  steady z c t -> t - 2 * MS_PER_DAY <= u <= t + 2 * MS_PER_DAY ->
  timeClip u = Some u.
Proof.
  intros [_ H] Hu. unfold timeClip.
  destruct (Z.leb_spec (Z.abs u) 8640000000000000); [reflexivity | lia].
Qed.

(** [setHours] to a clock of the day, on a date within a day of an
    instant around which the offset is kept. *)
Lemma setHours_steady (z : Zone) (c : Z) (t d : Date) (cl : Clock) :
  steady z c t -> t - MS_PER_DAY <= d <= t + MS_PER_DAY -> valid_clock cl ->
  setHours z (hours cl) (minutes cl) d
  = Some (startOfDay (d + c) + clockMinutes cl * MS_PER_MINUTE
          + secondsAndMs (d + c) - c).
Proof.
  intros Hst Hd Hcl. unfold setHours.
  rewrite (steady_LocalTime z c t d Hst) by (unfold MS_PER_DAY in *; lia).
  rewrite makeTime_decompose.
  apply clockMinutes_bounds in Hcl.
  pose proof (startOfDay_bounds (d + c)) as Hday.
  pose proof (secondsAndMs_bounds (d + c)) as Hsec.
  assert (Hin : d + c - MS_PER_DAY
                <= startOfDay (d + c) + clockMinutes cl * MS_PER_MINUTE
                   + secondsAndMs (d + c)
                <= d + c + MS_PER_DAY)
    by (unfold MS_PER_DAY, MS_PER_MINUTE in *; lia).
  rewrite (steady_UTC z c t) by (exact Hst || (unfold MS_PER_DAY in *; lia)).
  apply (steady_timeClip z c t); [exact Hst | unfold MS_PER_DAY in *; lia].
Qed.

(** One calendar day later, on a date within a day of such an instant. *)
Lemma addDate_steady (z : Zone) (c : Z) (t d : Date) :
  steady z c t -> t - MS_PER_DAY <= d <= t + MS_PER_DAY ->
  addDate z 1 d = Some (d + MS_PER_DAY).
Proof.
  intros Hst Hd. unfold addDate.
  rewrite (steady_LocalTime z c t d Hst) by (unfold MS_PER_DAY in *; lia).
  rewrite (steady_UTC z c t) by (exact Hst || (unfold MS_PER_DAY in *; lia)).
  replace (d + c + 1 * MS_PER_DAY - c) with (d + MS_PER_DAY) by lia.
  apply (steady_timeClip z c t); [exact Hst | unfold MS_PER_DAY in *; lia].
Qed.

(** A zone without changes keeps its offset everywhere. *)
Lemma steady_fixed (c : Z) (t : Date) :
  Z.abs t + 2 * MS_PER_DAY <= 8640000000000000 ->
  steady {| offsetBefore := c; transitions := [] |} c t.
Proof. intros H. split; [intros u _; split; reflexivity | exact H]. Qed.

(** New York keeps four hours behind through July 2024. *)
Lemma steady_newYork_summer (t : Date) :
  1719792000000 <= t <= 1722470400000 -> steady newYork (-14400000) t.
Proof.
  intros Ht. split; [| unfold MS_PER_DAY; lia].
  intros u Hu. unfold MS_PER_DAY in Hu. cbn.
  repeat match goal with
         | |- context [?a <? ?b] => destruct (Z.ltb_spec a b)
         end; cbn; split; (reflexivity || lia).
Qed.

(** What [calculateDuration] computes, by the order of the two clocks,
    while the zone keeps its offset and both readings of the clock fall
    in the same minute. *)
Lemma calculateDuration_minutes_cases
    (z : Zone) (c : Z) (now1 now2 : Date) (form : FormValues) (s e : Clock) :
  steady z c now1 -> same_minute (now1 + c) (now2 + c) ->
  clockOfString (startTime form) = Some s ->
  clockOfString (endTime form) = Some e ->
  valid_clock s -> valid_clock e ->
  calculateDuration_minutes z now1 now2 form
  = Some (if clockMinutes e <? clockMinutes s
          then (1440 - clockMinutes s) + clockMinutes e
          else clockMinutes e - clockMinutes s).
Proof.
  intros Hst Hsame Hs He Hvs Hve.
  apply same_minute_parts in Hsame. destruct Hsame as (Hday & Hsec & Hnear).
  unfold calculateDuration_minutes, setClock. rewrite Hs, He.
  rewrite (setHours_steady z c now1 now1 s Hst) by (unfold MS_PER_DAY; lia || exact Hvs).
  rewrite (setHours_steady z c now1 now2 e Hst)
    by (unfold MS_PER_DAY, MS_PER_MINUTE in *; lia || exact Hve).
  apply clockMinutes_bounds in Hvs, Hve.
  pose proof (secondsAndMs_bounds (now1 + c)) as B1.
  pose proof (secondsAndMs_bounds (now2 + c)) as B2.
  pose proof (startOfDay_bounds (now1 + c)) as D1.
  rewrite <- Hday in *.
  set (S := clockMinutes s) in *. set (E := clockMinutes e) in *.
  set (s1 := secondsAndMs (now1 + c)) in *.
  set (s2 := secondsAndMs (now2 + c)) in *.
  set (day := startOfDay (now1 + c)) in *.
  unfold rollOver, before.
  destruct (E <? S) eqn:HES.
  - apply Z.ltb_lt in HES.
    assert (Hlt : (day + E * MS_PER_MINUTE + s2 - c <? day + S * MS_PER_MINUTE + s1 - c)
                  = true)
      by (apply Z.ltb_lt; unfold MS_PER_MINUTE in *; lia).
    rewrite Hlt.
    rewrite (addDate_steady z c now1) by (exact Hst || (unfold MS_PER_DAY, MS_PER_MINUTE in *; lia)).
    unfold minutesBetween, differenceInMinutes. f_equal.
    replace (day + E * MS_PER_MINUTE + s2 - c + MS_PER_DAY
             - (day + S * MS_PER_MINUTE + s1 - c))
      with ((1440 - S + E) * MS_PER_MINUTE + (s2 - s1))
      by (unfold MS_PER_MINUTE, MS_PER_DAY; lia).
    apply quot_minutes; unfold MS_PER_MINUTE in *; lia.
  - apply Z.ltb_ge in HES.
    assert (Hge : (day + E * MS_PER_MINUTE + s2 - c <? day + S * MS_PER_MINUTE + s1 - c)
                  = false)
      by (apply Z.ltb_ge; unfold MS_PER_MINUTE in *; lia).
    rewrite Hge.
    unfold minutesBetween, differenceInMinutes. f_equal.
    replace (day + E * MS_PER_MINUTE + s2 - c - (day + S * MS_PER_MINUTE + s1 - c))
      with ((E - S) * MS_PER_MINUTE + (s2 - s1)) by lia.
    apply quot_minutes; unfold MS_PER_MINUTE in *; lia.
Qed.

(** C1, as stated, fails: the end is moved by one calendar day, not by
    24 hours. In New York on 2 November 2024, the night in which the
    clocks are set back, 22:00 to 06:00 is 540 minutes, not
    (24 h - 22:00) + 06:00 = 480. *)
Lemma rollover_follows_the_calendar : ~ Stated.rollover_adds_24_hours.
Proof.
  intros H.
  destruct (H newYork 1730563200000 1730563200000 form_clocks_set_back
              {| hours := 22; minutes := 0 |} {| hours := 6; minutes := 0 |})
    as (m & Hm & _ & Hroll).
  - lia.
  - vm_compute. reflexivity.
  - vm_compute. reflexivity.
  - unfold valid_clock; cbn; lia.
  - unfold valid_clock; cbn; lia.
  - assert (E : calculateDuration_minutes newYork 1730563200000 1730563200000
                  form_clocks_set_back = Some 540) by (vm_compute; reflexivity).
    rewrite E in Hm. injection Hm as <-.
    specialize (Hroll ltac:(unfold clockMinutes; cbn; lia)).
    unfold clockMinutes in Hroll. cbn in Hroll. discriminate Hroll.
Qed.

(** C1, amended. While, for two days around the moment of the call,
    local time keeps one offset from UTC and stays within the range of
    Date values, and both readings of the clock that the call makes
    fall in the same minute, then for every pair of clocks of the day
    held by the two time fields the minutes that [calculateDuration]
    derives are a whole number from 0 to 1439; when the end clock is
    before the start clock the result is (24 h - start) + end in
    minutes, the end being taken on the following day, and otherwise it
    is end - start. *)
Theorem calculateDuration_minutes_rollover
    (z : Zone) (c : Z) (now1 now2 : Date) (form : FormValues) (s e : Clock) :
  steady z c now1 -> same_minute (now1 + c) (now2 + c) ->
  clockOfString (startTime form) = Some s ->
  clockOfString (endTime form) = Some e ->
  valid_clock s -> valid_clock e ->
  exists m,
    calculateDuration_minutes z now1 now2 form = Some m
    /\ 0 <= m < 24 * 60
    /\ (clockMinutes e < clockMinutes s ->
        m = (24 * 60 - clockMinutes s) + clockMinutes e)
    /\ (clockMinutes s <= clockMinutes e ->
        m = clockMinutes e - clockMinutes s).
Proof.
  intros Hst Hsame Hs He Hvs Hve.
  eexists. split;
    [apply (calculateDuration_minutes_cases z c now1 now2 form s e); assumption |].
  apply clockMinutes_bounds in Hvs, Hve.
  destruct (clockMinutes e <? clockMinutes s) eqn:H.
  - apply Z.ltb_lt in H. repeat split; lia.
  - apply Z.ltb_ge in H. repeat split; lia.
Qed.

Lemma calculateDuration_minutes_rollover_witness :
  exists m,
    calculateDuration_minutes newYork 1720000000000 1720000000000 form_22_06
    = Some m
    /\ m = 480.
Proof.
  destruct (calculateDuration_minutes_rollover newYork (-14400000)
              1720000000000 1720000000000 form_22_06
              {| hours := 22; minutes := 0 |} {| hours := 6; minutes := 0 |})
    as (m & Hm & _ & Hroll & _).
  - apply steady_newYork_summer. lia.
  - split; [lia | reflexivity].
  - vm_compute. reflexivity.
  - vm_compute. reflexivity.
  - unfold valid_clock; cbn; lia.
  - unfold valid_clock; cbn; lia.
  - exists m. split; [exact Hm |].
    rewrite Hroll by (unfold clockMinutes; cbn; lia). reflexivity.
Defined.

(** The hypothesis on the two readings is needed: when the minute
    changes between them, equal clocks are read as a day apart. *)
Remark calculateDuration_minutes_minute_tick :
  calculateDuration_minutes utc 1732856999999 1732857000000
    {| date := Some 0; startTime := "10:00"; endTime := "10:00";
       sleepType := nap; notes := "" |} = Some 1439.
Proof. vm_compute. reflexivity. Qed.

Lemma classify_below (mins : Z) (t : SleepType) :
  mins < min (recommendedDurations t) -> classify mins t = BelowRecommended.
Proof.
  intros H. unfold classify. apply Z.ltb_lt in H. now rewrite H.
Qed.

Lemma classify_above (mins : Z) (t : SleepType) :
  mins > max (recommendedDurations t) -> classify mins t = AboveRecommended.
Proof.
  intros H. unfold classify.
  assert (Hmin : (mins <? min (recommendedDurations t)) = false)
    by (apply Z.ltb_ge; destruct t; simpl in *; lia).
  rewrite Hmin. apply Z.gt_lt, Z.gtb_lt in H. now rewrite H.
Qed.

Lemma classify_within (mins : Z) (t : SleepType) :
  min (recommendedDurations t) <= mins <= max (recommendedDurations t) ->
  classify mins t = WithinRecommended.
Proof.
  intros [Hlo Hhi]. unfold classify.
  apply Z.ltb_ge in Hlo. rewrite Hlo.
  destruct (mins >? max (recommendedDurations t)) eqn:Hgt; [| reflexivity].
  apply Z.gtb_lt in Hgt. lia.
Qed.

(** The class of the preview is the class of the minutes computed. *)
Lemma calculateDuration_class
    (z : Zone) (now1 now2 : Date) (form : FormValues) (m : Z) :
  calculateDuration_minutes z now1 now2 form = Some m ->
  class (calculateDuration z now1 now2 form)
  = className (classify m (sleepType form)).
Proof.
  intros H. unfold calculateDuration, durationClass. cbn [class].
  rewrite H. reflexivity.
Qed.

(** C2, as stated, fails in its instance: what 22:00 to 06:00 comes to
    depends on the clock. When the minute changes between the two
    readings of the clock, it is 479 minutes. *)
Lemma night_scenario_depends_on_the_clock : ~ Stated.night_scenario_is_480.
Proof.
  intros H.
  specialize (H utc 1732856999999 1732857000000 (Some 0) "" ltac:(lia)).
  assert (E : calculateDuration_minutes utc 1732856999999 1732857000000
                {| date := Some 0; startTime := "22:00"; endTime := "06:00";
                   sleepType := night; notes := "" |} = Some 479)
    by (vm_compute; reflexivity).
  rewrite E in H. discriminate H.
Qed.

(** C2, amended. The classification uses the fixed ranges nap [20, 180]
    and night [420, 780], both ends included: below the minimum of the
    type it is BelowRecommended, above the maximum AboveRecommended,
    and in between, the two boundary values included,
    WithinRecommended; and the preview of the form shows, for the
    minutes it has computed, the class of that classification: yellow,
    red or green. Start 22:00 and end 06:00 for a night sleep are 480
    minutes, classified WithinRecommended and shown in green, while,
    for two days around the moment of the call, local time keeps one
    offset from UTC and stays within the range of Date values, and both
    readings of the clock fall in the same minute; in the night in
    which New York sets its clocks back they are 540 minutes, still
    WithinRecommended. *)
Theorem classify_recommended_ranges :
  recommendedDurations nap = {| min := 20; max := 180 |}
  /\ recommendedDurations night = {| min := 420; max := 780 |}
  /\ (forall mins t,
        (mins < min (recommendedDurations t) ->
         classify mins t = BelowRecommended)
        /\ (max (recommendedDurations t) < mins ->
            classify mins t = AboveRecommended)
        /\ (min (recommendedDurations t) <= mins <= max (recommendedDurations t) ->
            classify mins t = WithinRecommended))
  /\ (forall t,
        classify (min (recommendedDurations t)) t = WithinRecommended
        /\ classify (max (recommendedDurations t)) t = WithinRecommended)
  /\ (forall z now1 now2 form m,
        calculateDuration_minutes z now1 now2 form = Some m ->
        (m < min (recommendedDurations (sleepType form)) ->
         class (calculateDuration z now1 now2 form) = "text-yellow-500")
        /\ (max (recommendedDurations (sleepType form)) < m ->
            class (calculateDuration z now1 now2 form) = "text-red-500")
        /\ (min (recommendedDurations (sleepType form)) <= m
            <= max (recommendedDurations (sleepType form)) ->
            class (calculateDuration z now1 now2 form) = "text-green-500"))
  /\ (forall z c now1 now2 day note,
        steady z c now1 -> same_minute (now1 + c) (now2 + c) ->
        let form := {| date := day; startTime := "22:00"; endTime := "06:00";
                       sleepType := night; notes := note |} in
        calculateDuration_minutes z now1 now2 form = Some 480
        /\ classify 480 night = WithinRecommended
        /\ class (calculateDuration z now1 now2 form) = "text-green-500")
  /\ (calculateDuration_minutes newYork 1730563200000 1730563200000
        form_clocks_set_back = Some 540
      /\ classify 540 night = WithinRecommended).
Proof.
  split; [reflexivity |]. split; [reflexivity |].
  split; [| split; [| split; [| split]]].
  - intros mins t. split; [apply classify_below |].
    split; [intros H; apply classify_above; lia | apply classify_within].
  - intros t. split; apply classify_within; destruct t; simpl; lia.
  - intros z now1 now2 form m Hm.
    rewrite (calculateDuration_class z now1 now2 form m Hm).
    split; [intros H; now rewrite classify_below |].
    split; [intros H; rewrite classify_above; [reflexivity | lia] |].
    intros H. now rewrite classify_within.
  - intros z c now1 now2 day note Hst Hsame form.
    assert (Hm : calculateDuration_minutes z now1 now2 form = Some 480).
    { rewrite (calculateDuration_minutes_cases z c now1 now2 form
                 {| hours := 22; minutes := 0 |} {| hours := 6; minutes := 0 |});
        trivial; try (vm_compute; reflexivity); unfold valid_clock; cbn; lia. }
    split; [exact Hm |]. split; [reflexivity |].
    rewrite (calculateDuration_class z now1 now2 form 480 Hm). reflexivity.
  - split; vm_compute; reflexivity.
Qed.

Lemma classify_recommended_ranges_witness :
  classify 19 nap = BelowRecommended
  /\ classify 781 night = AboveRecommended
  /\ classify 180 nap = WithinRecommended.
Proof.
  destruct classify_recommended_ranges as (_ & _ & H & _).
  split; [| split].
  - apply (H 19 nap). simpl. lia.
  - apply (H 781 night). simpl. lia.
  - apply (H 180 nap). simpl. lia.
Defined.

(** The classes are told apart by their names, so the preview shows
    which classification was made. *)
Lemma className_inj (c1 c2 : DurationClassification) :
  className c1 = className c2 -> c1 = c2.
Proof. destruct c1, c2; simpl; intros H; try reflexivity; discriminate H. Qed.

(** ** Record creation *)

(** The two dates of the record, while the zone keeps its offset around
    the date of the form. *)
Lemma createMutation_endTime_cases
    (z : Zone) (c : Z) (data : FormValues) (d : Date) (s e : Clock) :
  date data = Some d -> steady z c d ->
  clockOfString (startTime data) = Some s ->
  clockOfString (endTime data) = Some e ->
  valid_clock s -> valid_clock e ->
  let day := startOfDay (d + c) in
  let sec := secondsAndMs (d + c) in
  ins_startTime (createMutation_mutationFn z data)
  = Some (day + clockMinutes s * MS_PER_MINUTE + sec - c)
  /\ ins_endTime (createMutation_mutationFn z data)
     = Some (if clockMinutes e <? clockMinutes s
             then day + clockMinutes e * MS_PER_MINUTE + sec - c + MS_PER_DAY
             else day + clockMinutes e * MS_PER_MINUTE + sec - c).
Proof.
  intros Hd Hst Hs He Hvs Hve day sec.
  unfold createMutation_mutationFn, setClock. cbn [ins_startTime ins_endTime].
  rewrite Hd, Hs, He.
  rewrite !(setHours_steady z c d d _ Hst)
    by (unfold MS_PER_DAY; lia || assumption).
  fold day sec. split; [reflexivity |].
  apply clockMinutes_bounds in Hvs, Hve.
  pose proof (secondsAndMs_bounds (d + c)) as B. fold sec in B.
  pose proof (startOfDay_bounds (d + c)) as D. fold day in D.
  unfold rollOver, before.
  destruct (clockMinutes e <? clockMinutes s) eqn:H.
  - apply Z.ltb_lt in H.
    assert (Hlt : (day + clockMinutes e * MS_PER_MINUTE + sec - c
                   <? day + clockMinutes s * MS_PER_MINUTE + sec - c) = true)
      by (apply Z.ltb_lt; unfold MS_PER_MINUTE; lia).
    rewrite Hlt.
    apply (addDate_steady z c d); [exact Hst |].
    unfold MS_PER_DAY, MS_PER_MINUTE in *. lia.
  - apply Z.ltb_ge in H.
    assert (Hge : (day + clockMinutes e * MS_PER_MINUTE + sec - c
                   <? day + clockMinutes s * MS_PER_MINUTE + sec - c) = false)
      by (apply Z.ltb_ge; unfold MS_PER_MINUTE; lia).
    now rewrite Hge.
Qed.





End SleepFormFacts.


(** ** The timer queue *)

Module RuntimeFacts.
Import Js Runtime.

Lemma pick_split (dl : Z) (ts : list Timer) (u : Timer) (rest : list Timer) :
  pick dl ts = Some (u, rest) ->
  exists l1 l2, ts = l1 ++ u :: l2 /\ rest = l1 ++ l2.
Proof.
  revert u rest.
  induction ts as [|t ts IH]; intros u rest H; simpl in H; [discriminate |].
  destruct (pick dl ts) as [[v rest']|] eqn:Hp.
  - destruct ((due t <=? dl) && (due t <=? due v)).
    + injection H as <- <-. exists [], ts. split; reflexivity.
    + injection H as <- <-.
      destruct (IH _ _ eq_refl) as (l1 & l2 & E1 & E2).
      exists (t :: l1), l2. rewrite E1, E2. split; reflexivity.
  - destruct (due t <=? dl); [| discriminate].
    injection H as <- <-. exists [], ts. split; reflexivity.
Qed.

Lemma pick_None (dl : Z) (ts : list Timer) :
  pick dl ts = None -> forall t, In t ts -> dl < due t.
Proof.
  induction ts as [|t ts IH]; intros H x Hx; simpl in *; [contradiction |].
  destruct (pick dl ts) as [[v rest']|] eqn:Hp.
  - destruct ((due t <=? dl) && (due t <=? due v)); discriminate.
  - destruct (due t <=? dl) eqn:Hd; [discriminate |].
    apply Z.leb_gt in Hd. destruct Hx as [<- | Hx]; [exact Hd | now apply IH].
Qed.

Lemma pick_earliest (dl : Z) (ts : list Timer) (u : Timer) (rest : list Timer) :
  pick dl ts = Some (u, rest) ->
  due u <= dl /\ forall t, In t ts -> due t <= dl -> due u <= due t.
Proof.
  revert u rest.
  induction ts as [|t ts IH]; intros u rest H; simpl in H; [discriminate |].
  destruct (pick dl ts) as [[v rest']|] eqn:Hp.
  - destruct (IH _ _ eq_refl) as [Hv Hmin].
    destruct ((due t <=? dl) && (due t <=? due v)) eqn:Hc.
    + injection H as <- <-.
      apply andb_true_iff in Hc. destruct Hc as [Hc1 Hc2].
      apply Z.leb_le in Hc1, Hc2. split; [exact Hc1 |].
      intros x [<- | Hx] Hdx; [lia |]. specialize (Hmin x Hx Hdx). lia.
    + injection H as <- <-. split; [exact Hv |].
      intros x [<- | Hx] Hdx; [| now apply Hmin].
      apply andb_false_iff in Hc. destruct Hc as [Hc | Hc]; apply Z.leb_gt in Hc; lia.
  - destruct (due t <=? dl) eqn:Hd; [| discriminate].
    injection H as <- <-.
    apply Z.leb_le in Hd. split; [exact Hd |].
    intros x [<- | Hx] Hdx; [lia |].
    pose proof (pick_None _ _ Hp x Hx). lia.
Qed.

Lemma filter_without (P : Timer -> bool) (l1 l2 : list Timer) (u : Timer) :
  P u = false -> filter P (l1 ++ u :: l2) = filter P (l1 ++ l2).
Proof.
  intros H. rewrite !filter_app. simpl. now rewrite H.
Qed.

Lemma filter_nil_iff (P : Timer -> bool) (l : list Timer) :
  filter P l = [] <-> forall t, In t l -> P t = false.
Proof.
  split.
  - intros H t Ht. destruct (P t) eqn:E; [| reflexivity].
    assert (Hin : In t (filter P l)) by (apply filter_In; auto).
    rewrite H in Hin. contradiction.
  - intros H. induction l as [|a l IH]; [reflexivity |].
    simpl. rewrite (H a (or_introl eq_refl)). apply IH.
    intros t Ht. apply H. now right.
Qed.

(** A focus callback that does nothing keeps out of everything. *)
#[global] Instance quiet_frame {R : Type} {T : Table R} {F : FocusCallback R}
  {Q : FocusQuiet R} : FocusFrame R.
Proof. split; intros f st; now rewrite focus_quiet. Qed.

Ltac focus_frame :=
  rewrite ?focus_timers, ?focus_now, ?focus_nextHandle, ?focus_highlightedField,
    ?focus_editTimeoutRef, ?focus_editingId, ?focus_records,
    ?focus_invalidations, ?focus_toasts.

Section Timers.
Context {R : Type} {T : Table R} {F : FocusCallback R} {FF : FocusFrame R}.
Implicit Types (st : State R) (a : TimerAction).

Lemma fire_timers a st : timers (fire a st) = timers st.
Proof. destruct a; cbn [fire]; focus_frame; reflexivity. Qed.

Lemma fire_now a st : now (fire a st) = now st.
Proof. destruct a; cbn [fire]; focus_frame; reflexivity. Qed.

(** *** What passing time leaves alone *)

Lemma run_timers_frame (n : nat) (dl : Z) st :
  records (run_timers n dl st) = records st
  /\ invalidations (run_timers n dl st) = invalidations st
  /\ toasts (run_timers n dl st) = toasts st
  /\ nextHandle (run_timers n dl st) = nextHandle st.
Proof.
  revert st. induction n as [|n IH]; intros st; simpl; [auto |].
  destruct (pick dl (timers st)) as [[u rest]|]; [| auto].
  destruct (IH (fire (action u) (set_now (Z.max (now st) (due u)) (set_timers rest st))))
    as (H1 & H2 & H3 & H4).
  rewrite H1, H2, H3, H4. destruct (action u); cbn [fire]; focus_frame; auto.
Qed.

(** The queue after the timers due by the deadline have fired. *)
Lemma run_timers_timers (n : nat) (dl : Z) st :
  (List.length (timers st) <= n)%nat ->
  timers (run_timers n dl st) = filter (fun t => dl <? due t) (timers st).
Proof.
  revert st. induction n as [|n IH]; intros st Hn; simpl.
  - destruct (timers st); [reflexivity | simpl in Hn; lia].
  - destruct (pick dl (timers st)) as [[u rest]|] eqn:Hp.
    + destruct (pick_split _ _ _ _ Hp) as (l1 & l2 & E1 & E2).
      destruct (pick_earliest _ _ _ _ Hp) as [Hu _].
      rewrite IH; rewrite fire_timers; simpl.
      * rewrite E1, E2. symmetry. apply filter_without. apply Z.ltb_ge. exact Hu.
      * rewrite E1, length_app in Hn. simpl in Hn.
        rewrite E2, length_app. lia.
    + symmetry. apply forallb_filter_id. apply forallb_forall.
      intros t Ht. apply Z.ltb_lt. exact (pick_None _ _ Hp t Ht).
Qed.

Lemma advance_timers (dt : Z) st :
  timers (advance dt st)
  = filter (fun t => now st + Z.max 0 dt <? due t) (timers st).
Proof. unfold advance. simpl. now apply run_timers_timers. Qed.

Lemma advance_now (dt : Z) st : now (advance dt st) = now st + Z.max 0 dt.
Proof. reflexivity. Qed.

Lemma advance_frame (dt : Z) st :
  records (advance dt st) = records st
  /\ invalidations (advance dt st) = invalidations st
  /\ toasts (advance dt st) = toasts st
  /\ nextHandle (advance dt st) = nextHandle st.
Proof. unfold advance. simpl. apply run_timers_frame. Qed.

Lemma run_timers_editingId_none (n : nat) (dl : Z) st :
  editingId st = None -> editingId (run_timers n dl st) = None.
Proof.
  revert st. induction n as [|n IH]; intros st H; simpl; [exact H |].
  destruct (pick dl (timers st)) as [[u rest]|]; [| exact H].
  apply IH. destruct (action u); cbn [fire]; focus_frame; simpl; auto.
Qed.

(** *** The highlight while time passes *)

Lemma run_timers_highlight_none (n : nat) (dl : Z) st :
  highlightedField st = None -> highlightedField (run_timers n dl st) = None.
Proof.
  revert st. induction n as [|n IH]; intros st H; simpl; [exact H |].
  destruct (pick dl (timers st)) as [[u rest]|]; [| exact H].
  apply IH. destruct (action u); cbn [fire]; focus_frame; simpl; auto.
Qed.

Lemma run_timers_highlight_keep (n : nat) (dl : Z) st :
  (forall t, In t (timers st) -> isClear t = true -> dl < due t) ->
  highlightedField (run_timers n dl st) = highlightedField st.
Proof.
  revert st. induction n as [|n IH]; intros st H; simpl; [reflexivity |].
  destruct (pick dl (timers st)) as [[u rest]|] eqn:Hp; [| reflexivity].
  destruct (pick_split _ _ _ _ Hp) as (l1 & l2 & E1 & E2).
  destruct (pick_earliest _ _ _ _ Hp) as [Hu _].
  assert (Hin : In u (timers st)) by (rewrite E1; apply in_elt).
  rewrite IH.
  - destruct (action u) eqn:Ha; cbn [fire]; focus_frame; try reflexivity.
    assert (dl < due u) by (apply H; [exact Hin | unfold isClear; now rewrite Ha]).
    lia.
  - intros t Ht. rewrite fire_timers in Ht. simpl in Ht. apply H.
    rewrite E1. rewrite E2 in Ht. apply in_app_or in Ht.
    apply in_or_app. destruct Ht; [now left | right; now right].
Qed.

Lemma run_timers_highlight_clear (n : nat) (dl : Z) st (t0 : Timer) :
  In t0 (timers st) -> isClear t0 = true -> due t0 <= dl ->
  (List.length (timers st) <= n)%nat ->
  highlightedField (run_timers n dl st) = None.
Proof.
  revert st. induction n as [|n IH]; intros st Hin Hc Hd Hn; simpl.
  - destruct (timers st); [contradiction | simpl in Hn; lia].
  - destruct (pick dl (timers st)) as [[u rest]|] eqn:Hp.
    + destruct (pick_split _ _ _ _ Hp) as (l1 & l2 & E1 & E2).
      destruct (action u) eqn:Ha.
      * apply IH; rewrite ?fire_timers; simpl.
        -- rewrite E1 in Hin. rewrite E2. apply in_app_or in Hin.
           apply in_or_app. destruct Hin as [H | [H | H]]; auto.
           subst t0. unfold isClear in Hc. rewrite Ha in Hc. discriminate.
        -- exact Hc.
        -- exact Hd.
        -- rewrite E1, length_app in Hn. simpl in Hn. rewrite E2, length_app. lia.
      * apply run_timers_highlight_none. reflexivity.
      * apply IH; rewrite ?fire_timers; simpl.
        -- rewrite E1 in Hin. rewrite E2. apply in_app_or in Hin.
           apply in_or_app. destruct Hin as [H | [H | H]]; auto.
           subst t0. unfold isClear in Hc. rewrite Ha in Hc. discriminate.
        -- exact Hc.
        -- exact Hd.
        -- rewrite E1, length_app in Hn. simpl in Hn. rewrite E2, length_app. lia.
    + pose proof (pick_None _ _ Hp t0 Hin). lia.
Qed.

(** No commit comes due: the edit mode and the timer ref stay. *)
Lemma run_timers_no_commit_frame (n : nat) (dl : Z) st :
  (forall t, In t (timers st) -> isCommit t = true -> dl < due t) ->
  editingId (run_timers n dl st) = editingId st
  /\ editTimeoutRef (run_timers n dl st) = editTimeoutRef st.
Proof.
  revert st. induction n as [|n IH]; intros st H; simpl; [repeat split |].
  destruct (pick dl (timers st)) as [[u rest]|] eqn:Hp; [| repeat split].
  destruct (pick_split _ _ _ _ Hp) as (l1 & l2 & E1 & E2).
  destruct (pick_earliest _ _ _ _ Hp) as [Hu _].
  assert (Hin : In u (timers st)) by (rewrite E1; apply in_elt).
  match goal with |- context [run_timers n dl ?s] =>
    destruct (IH s) as (H1 & H2) end.
  - intros t Ht. rewrite fire_timers in Ht. simpl in Ht. apply H.
    rewrite E1. rewrite E2 in Ht. apply in_app_or in Ht.
    apply in_or_app. destruct Ht; [now left | right; now right].
  - rewrite H1, H2.
    destruct (action u) eqn:Ha; cbn [fire]; focus_frame; simpl; repeat split.
    all: assert (dl < due u)
           by (apply H; [exact Hin | unfold isCommit; now rewrite Ha]); lia.
Qed.

(** Whatever holds of the state and is kept by the clock, the queue
    and every callback, holds after the timers have fired. *)
Lemma run_timers_preserves (P : State R -> Prop) (n : nat) (dl : Z) st :
  (forall s v, P s -> P (set_now v s)) ->
  (forall s v, P s -> P (set_timers v s)) ->
  (forall s, In s (map action (timers st)) -> forall x, P x -> P (fire s x)) ->
  P st -> P (run_timers n dl st).
Proof.
  intros Hnow Htimers. revert st.
  induction n as [|n IH]; intros st Hfire H; simpl; [exact H |].
  destruct (pick dl (timers st)) as [[u rest]|] eqn:Hp; [| exact H].
  destruct (pick_split _ _ _ _ Hp) as (l1 & l2 & E1 & E2).
  apply IH.
  - intros a Ha. rewrite fire_timers in Ha. simpl in Ha. apply Hfire.
    rewrite E1. rewrite E2 in Ha. rewrite map_app in *. cbn [map].
    apply in_app_or in Ha. apply in_or_app.
    destruct Ha; [now left | right; now right].
  - apply Hfire; [rewrite E1, map_app; apply in_or_app; right; now left |].
    apply Hnow, Htimers, H.
Qed.

End Timers.

(** *** The delayed commit while time passes *)

Section Commit.
Context {R : Type} {T : Table R} {F : FocusCallback R} {Q : FocusQuiet R}.
Implicit Types (st : State R) (a : TimerAction).

(** No commit comes due: nothing is sent and the hooks keep their values. *)
Lemma run_timers_no_commit (n : nat) (dl : Z) st :
  (forall t, In t (timers st) -> isCommit t = true -> dl < due t) ->
  requests (run_timers n dl st) = requests st
  /\ inFlight (run_timers n dl st) = inFlight st
  /\ editingId (run_timers n dl st) = editingId st
  /\ savingField (run_timers n dl st) = savingField st
  /\ editTimeoutRef (run_timers n dl st) = editTimeoutRef st
  /\ currentMutation (run_timers n dl st) = currentMutation st
  /\ nextMutationId (run_timers n dl st) = nextMutationId st.
Proof.
  revert st. induction n as [|n IH]; intros st H; simpl; [repeat split |].
  destruct (pick dl (timers st)) as [[u rest]|] eqn:Hp; [| repeat split].
  destruct (pick_split _ _ _ _ Hp) as (l1 & l2 & E1 & E2).
  destruct (pick_earliest _ _ _ _ Hp) as [Hu _].
  assert (Hin : In u (timers st)) by (rewrite E1; apply in_elt).
  match goal with |- context [run_timers n dl ?s] =>
    destruct (IH s) as (H1 & H2 & H3 & H4 & H5 & H6 & H7) end.
  - intros t Ht. rewrite fire_timers in Ht. simpl in Ht. apply H.
    rewrite E1. rewrite E2 in Ht. apply in_app_or in Ht.
    apply in_or_app. destruct Ht; [now left | right; now right].
  - rewrite H1, H2, H3, H4, H5, H6, H7.
    destruct (action u) eqn:Ha; cbn [fire]; rewrite ?focus_quiet; simpl;
      repeat split.
    all: assert (dl < due u)
           by (apply H; [exact Hin | unfold isCommit; now rewrite Ha]); lia.
Qed.

(** The one waiting commit comes due: it is sent at its due time, and
    the callback leaves edit mode and forgets the timer. *)
Lemma run_timers_commit (n : nat) (dl : Z) st (t : Timer) (c : UpdateCall) :
  pendingCommits st = [t] -> action t = DebouncedUpdate c ->
  due t <= dl -> now st <= due t ->
  (List.length (timers st) <= n)%nat ->
  requests (run_timers n dl st) = requests st ++ [(due t, c)]
  /\ inFlight (run_timers n dl st)
     = inFlight st ++ [{| mutationId := nextMutationId st; variables := c |}]
  /\ editingId (run_timers n dl st) = None
  /\ savingField (run_timers n dl st) = None
  /\ editTimeoutRef (run_timers n dl st) = None.
Proof.
  revert st. induction n as [|n IH]; intros st Hp1 Ha Hd Hnow Hn; simpl.
  - unfold pendingCommits in Hp1.
    destruct (timers st); [discriminate | simpl in Hn; lia].
  - assert (Hin : In t (timers st)).
    { assert (H : In t (pendingCommits st)) by (rewrite Hp1; now left).
      apply filter_In in H. tauto. }
    destruct (pick dl (timers st)) as [[u rest]|] eqn:Hp.
    2:{ pose proof (pick_None _ _ Hp t Hin). lia. }
    destruct (pick_split _ _ _ _ Hp) as (l1 & l2 & E1 & E2).
    destruct (pick_earliest _ _ _ _ Hp) as [Hu Hmin].
    specialize (Hmin t Hin Hd).
    assert (Hlen : (List.length rest <= n)%nat).
    { rewrite E1, length_app in Hn. simpl in Hn. rewrite E2, length_app. lia. }
    destruct (isCommit u) eqn:Hcu.
    + (* the commit itself fires *)
      assert (Hut : u = t).
      { assert (H : In u (pendingCommits st)).
        { apply filter_In. split; [rewrite E1; apply in_elt | exact Hcu]. }
        rewrite Hp1 in H. destruct H as [H | []]. now symmetry. }
      subst u.
      assert (Hrest : filter isCommit rest = []).
      { unfold pendingCommits in Hp1. rewrite E1, filter_app in Hp1.
        simpl in Hp1. rewrite Hcu in Hp1.
        rewrite E2, filter_app.
        destruct (filter isCommit l1); simpl in Hp1.
        - injection Hp1 as Hp1. now rewrite Hp1.
        - injection Hp1 as _ Hp1. destruct l; discriminate. }
      rewrite Ha.
      match goal with |- context [run_timers n dl ?s] =>
        destruct (run_timers_no_commit n dl s) as (H1 & H2 & H3 & H4 & H5 & _) end.
      { intros x Hx Hcx. simpl in Hx.
        pose proof (proj1 (filter_nil_iff isCommit rest) Hrest x Hx) as Hf.
        rewrite Hf in Hcx. discriminate. }
      rewrite H1, H2, H3, H4, H5. simpl.
      rewrite Z.max_r by lia. repeat split.
    + (* another timer fires first *)
      assert (Hpend : filter isCommit rest = [t]).
      { rewrite E2. rewrite <- (filter_without isCommit l1 l2 u Hcu).
        rewrite <- E1. exact Hp1. }
      match goal with |- context [run_timers n dl ?s] =>
        destruct (IH s) as (H1 & H2 & H3 & H4 & H5) end.
      * unfold pendingCommits. rewrite fire_timers. simpl. exact Hpend.
      * exact Ha.
      * exact Hd.
      * rewrite fire_now. simpl. lia.
      * rewrite fire_timers. simpl. exact Hlen.
      * rewrite H1, H2, H3, H4, H5.
        unfold isCommit in Hcu.
        destruct (action u); cbn [fire]; rewrite ?focus_quiet; simpl;
          try discriminate; repeat split.
Qed.

End Commit.

(** *** Soundness of the queue *)

Lemma NoDup_map_filter {A B : Type} (f : A -> B) (P : A -> bool) (l : list A) :
  NoDup (map f l) -> NoDup (map f (filter P l)).
Proof.
  induction l as [|a l IH]; simpl; intros H; [constructor |].
  inversion H as [|x xs Hnot Hnd]; subst.
  destruct (P a); [| now apply IH].
  simpl. constructor; [| now apply IH].
  intros Hin. apply Hnot. apply in_map_iff in Hin.
  destruct Hin as (y & Hy & Hin). apply filter_In in Hin.
  apply in_map_iff. exists y. tauto.
Qed.

Lemma filter_filter_comm {A : Type} (P Q : A -> bool) (l : list A) :
  filter P (filter Q l) = filter Q (filter P l).
Proof.
  induction l as [|a l IH]; [reflexivity |].
  simpl. destruct (Q a) eqn:HQ, (P a) eqn:HP; simpl;
    rewrite ?HQ, ?HP, IH; reflexivity.
Qed.

Lemma handle_inj (ts : list Timer) (x y : Timer) :
  NoDup (map handle ts) -> In x ts -> In y ts -> handle x = handle y -> x = y.
Proof.
  induction ts as [|t ts IH]; simpl; intros Hnd Hx Hy E; [contradiction |].
  inversion Hnd as [|h hs Hnot Hnd']; subst.
  destruct Hx as [<- | Hx], Hy as [<- | Hy]; auto.
  - exfalso. apply Hnot. rewrite E. now apply in_map.
  - exfalso. apply Hnot. rewrite <- E. now apply in_map.
Qed.

Section Queue.
Context {R : Type} {T : Table R} {F : FocusCallback R} {FF : FocusFrame R}.
Implicit Types (st : State R) (a : TimerAction).

Lemma queued_filter (P : Timer -> bool) st :
  queued st -> queued (set_timers (filter P (timers st)) st).
Proof.
  unfold queued. simpl. intros (H1 & H2 & H3). split; [| split].
  - now apply NoDup_map_filter.
  - apply Forall_forall. intros t Ht. apply filter_In in Ht.
    rewrite Forall_forall in H2. apply H2. tauto.
  - apply Forall_forall. intros t Ht. apply filter_In in Ht.
    rewrite Forall_forall in H3. apply H3. tauto.
Qed.

Lemma queued_clearTimeout (h : positive) st :
  queued st -> queued (clearTimeout h st).
Proof. apply queued_filter. Qed.

Lemma queued_setTimeout a (delay : Z) st :
  0 <= delay -> queued st -> queued (snd (setTimeout a delay st)).
Proof.
  unfold queued. simpl. intros Hd (H1 & H2 & H3). split; [| split].
  - rewrite map_app. simpl. apply NoDup_app; [exact H1 | repeat constructor; auto |].
    intros h Hh [<- | []].
    apply in_map_iff in Hh. destruct Hh as (t & Et & Ht).
    rewrite Forall_forall in H2. specialize (H2 t Ht). lia.
  - apply Forall_app. split.
    + eapply Forall_impl; [| exact H2]. simpl. intros t Ht. lia.
    + repeat constructor. simpl. lia.
  - apply Forall_app. split; [exact H3 |].
    repeat constructor. simpl. lia.
Qed.

Lemma queued_advance (dt : Z) st : queued st -> queued (advance dt st).
Proof.
  intros (H1 & H2 & H3). unfold queued.
  rewrite advance_timers, advance_now.
  destruct (advance_frame dt st) as (_ & _ & _ & Hh). rewrite Hh.
  split; [| split].
  - now apply NoDup_map_filter.
  - apply Forall_forall. intros t Ht. apply filter_In in Ht.
    rewrite Forall_forall in H2. apply H2. tauto.
  - apply Forall_forall. intros t Ht. apply filter_In in Ht.
    destruct Ht as [_ Ht]. apply Z.ltb_lt in Ht. lia.
Qed.

(** Writing a hook, the cache or the observer does not touch the queue. *)
Lemma queued_same st st' :
  timers st' = timers st -> nextHandle st' = nextHandle st -> now st' = now st ->
  queued st -> queued st'.
Proof. unfold queued. intros -> -> ->. trivial. Qed.

Lemma queued_markSaved (call : UpdateCall) st :
  queued st -> queued (markSaved call st).
Proof.
  intros H. unfold markSaved. apply queued_setTimeout; [lia |].
  eapply queued_same; [| | | exact H]; reflexivity.
Qed.

(** *** A waiting commit and the passing of time *)

Lemma pendingCommits_advance (dt : Z) st :
  pendingCommits (advance dt st)
  = filter (fun t => now st + Z.max 0 dt <? due t) (pendingCommits st).
Proof.
  unfold pendingCommits. rewrite advance_timers. apply filter_filter_comm.
Qed.

Lemma pendingCommits_In (t : Timer) st :
  In t (pendingCommits st) <-> In t (timers st) /\ isCommit t = true.
Proof. apply filter_In. Qed.

(** With no commit waiting, time leaves the edit mode and the timer ref
    alone. *)
Lemma advance_idle_frame (dt : Z) st :
  pendingCommits st = [] ->
  pendingCommits (advance dt st) = []
  /\ editingId (advance dt st) = editingId st
  /\ editTimeoutRef (advance dt st) = editTimeoutRef st.
Proof.
  intros Hp. rewrite pendingCommits_advance, Hp. split; [reflexivity |].
  apply (run_timers_no_commit_frame (List.length (timers st))
           (now st + Z.max 0 dt) st).
  intros x Hx Hcx.
  assert (Hxp : In x (pendingCommits st)) by (apply pendingCommits_In; auto).
  rewrite Hp in Hxp. contradiction.
Qed.

End Queue.

Section Waiting.
Context {R : Type} {T : Table R} {F : FocusCallback R} {Q : FocusQuiet R}.
Implicit Types (st : State R) (a : TimerAction).

(** Before its due time the commit keeps waiting and nothing is sent. *)
Lemma advance_waiting (dt : Z) st (t : Timer) :
  pendingCommits st = [t] -> now st + Z.max 0 dt < due t ->
  pendingCommits (advance dt st) = [t]
  /\ requests (advance dt st) = requests st
  /\ editTimeoutRef (advance dt st) = editTimeoutRef st.
Proof.
  intros Hp Hlate. rewrite pendingCommits_advance, Hp. simpl.
  apply Z.ltb_lt in Hlate. rewrite Hlate. split; [reflexivity |].
  apply Z.ltb_lt in Hlate.
  destruct (run_timers_no_commit (List.length (timers st))
              (now st + Z.max 0 dt) st) as (H1 & _ & _ & _ & H5 & _).
  - intros x Hx Hcx.
    assert (Hxp : In x (pendingCommits st)) by (apply pendingCommits_In; auto).
    rewrite Hp in Hxp. destruct Hxp as [<- | []]. exact Hlate.
  - split; assumption.
Qed.

(** With no commit waiting, time sends nothing. *)
Lemma advance_idle (dt : Z) st :
  pendingCommits st = [] ->
  pendingCommits (advance dt st) = []
  /\ requests (advance dt st) = requests st
  /\ inFlight (advance dt st) = inFlight st
  /\ editingId (advance dt st) = editingId st
  /\ savingField (advance dt st) = savingField st
  /\ editTimeoutRef (advance dt st) = editTimeoutRef st
  /\ currentMutation (advance dt st) = currentMutation st.
Proof.
  intros Hp. rewrite pendingCommits_advance, Hp. split; [reflexivity |].
  destruct (run_timers_no_commit (List.length (timers st))
              (now st + Z.max 0 dt) st) as (H1 & H2 & H3 & H4 & H5 & H6 & _).
  - intros x Hx Hcx.
    assert (Hxp : In x (pendingCommits st)) by (apply pendingCommits_In; auto).
    rewrite Hp in Hxp. contradiction.
  - repeat split; assumption.
Qed.

(** From its due time on the commit has been sent, once, stamped with
    the due time. *)
Lemma advance_dispatch (dt : Z) st (t : Timer) (c : UpdateCall) :
  pendingCommits st = [t] -> action t = DebouncedUpdate c ->
  now st <= due t -> due t <= now st + Z.max 0 dt ->
  pendingCommits (advance dt st) = []
  /\ requests (advance dt st) = requests st ++ [(due t, c)]
  /\ editingId (advance dt st) = None
  /\ savingField (advance dt st) = None
  /\ editTimeoutRef (advance dt st) = None.
Proof.
  intros Hp Ha Hnow Hdue. rewrite pendingCommits_advance, Hp. simpl.
  apply Z.ltb_ge in Hdue. rewrite Hdue. split; [reflexivity |].
  apply Z.ltb_ge in Hdue.
  destruct (run_timers_commit (List.length (timers st))
              (now st + Z.max 0 dt) st t c Hp Ha Hdue Hnow (le_n _))
    as (H1 & _ & H3 & H4 & H5).
  repeat split; assumption.
Qed.

End Waiting.

End RuntimeFacts.


(** ** The sleep table: the settle delay *)

Module SleepLogFacts.
Import Js Runtime RuntimeFacts SleepLog.

(** The sleep table asks for no focus: its timers only commit edits. *)
#[global] Instance sleepQuiet : FocusQuiet Sleep.
Proof. split; reflexivity. Qed.

Lemma sleep_initial_invariant (t0 : Z) (l : list Sleep) : invariant (initial t0 l).
Proof.
  split; [reflexivity |].
  unfold queued. simpl. repeat split; constructor.
Qed.

(** Clearing the timer [editTimeoutRef] names leaves no commit waiting
    and removes no other timer. *)
Lemma clearTimeout_linked (h : positive) (st : State Sleep) :
  invariant st -> editTimeoutRef st = Some h ->
  pendingCommits (clearTimeout h st) = []
  /\ (forall x, In x (timers st) -> isCommit x = false ->
      In x (timers (clearTimeout h st))).
Proof.
  intros [Hl (Hnd & _)] Hr. unfold linked in Hl. rewrite Hr in Hl.
  destruct Hl as (t & Hp & Ht).
  assert (Hin : In t (timers st) /\ isCommit t = true).
  { apply filter_In. fold (pendingCommits st). rewrite Hp. now left. }
  split.
  - unfold pendingCommits, clearTimeout. simpl.
    rewrite filter_filter_comm. fold (pendingCommits st). rewrite Hp. simpl.
    rewrite Ht, Pos.eqb_refl. reflexivity.
  - intros x Hx Hcx. unfold clearTimeout. simpl. apply filter_In.
    split; [exact Hx |].
    destruct (Pos.eqb_spec (handle x) h) as [E |]; [| reflexivity].
    assert (x = t) by (apply (handle_inj (timers st)); tauto || congruence).
    subst x. destruct Hin as [_ Hc]. congruence.
Qed.

(** What [handleInlineEdit] does to a sound state: the commit it
    schedules is the only one waiting, whatever was waiting before, and
    nothing is sent yet. *)
Lemma handleInlineEdit_schedules
    (sleep : Sleep) (field : string) (value : Value) (st : State Sleep) :
  invariant st ->
  pendingCommits (handleInlineEdit sleep field value st)
    = [commitTimer sleep field value st]
  /\ editTimeoutRef (handleInlineEdit sleep field value st) = Some (nextHandle st)
  /\ requests (handleInlineEdit sleep field value st) = requests st
  /\ now (handleInlineEdit sleep field value st) = now st
  /\ (forall x, In x (timers st) -> isCommit x = false ->
      In x (timers (handleInlineEdit sleep field value st)))
  /\ invariant (handleInlineEdit sleep field value st).
Proof.
  intros Hinv.
  assert (Hclear :
    exists st0,
      (match editTimeoutRef st with Some h => clearTimeout h st | None => st end) = st0
      /\ pendingCommits st0 = [] /\ queued st0
      /\ nextHandle st0 = nextHandle st /\ now st0 = now st
      /\ requests st0 = requests st
      /\ (forall x, In x (timers st) -> isCommit x = false -> In x (timers st0))).
  { destruct (editTimeoutRef st) as [h|] eqn:Hr.
    - destruct (clearTimeout_linked h st Hinv Hr) as [Hp Hk].
      exists (clearTimeout h st). repeat split; auto.
      all: apply queued_clearTimeout; apply Hinv.
    - exists st. destruct Hinv as [Hl Hq]. unfold linked in Hl. rewrite Hr in Hl.
      repeat split; auto; apply Hq. }
  destruct Hclear as (st0 & E & Hp & Hq & Hh & Hn & Hreq & Hkeep).
  unfold handleInlineEdit. rewrite E.
  unfold commitTimer. rewrite <- Hh, <- Hn.
  assert (Hpend : pendingCommits
            (set_editTimeoutRef (Some (nextHandle st0))
               (snd (setTimeout
                  (DebouncedUpdate {| upd_id := SleepForm.id sleep;
                                      upd_field := field; upd_value := value |})
                  500 (set_savingField (Some (SleepForm.id sleep, field)) st0))))
          = [{| handle := nextHandle st0; due := now st0 + 500;
                action := DebouncedUpdate {| upd_id := SleepForm.id sleep;
                                             upd_field := field;
                                             upd_value := value |} |}]).
  { unfold pendingCommits in *. simpl. rewrite filter_app, Hp. reflexivity. }
  simpl. split; [exact Hpend |].
  split; [reflexivity |]. split; [exact Hreq |]. split; [reflexivity |].
  split.
  - intros x Hx Hc. apply in_or_app. left. now apply Hkeep.
  - split.
    + unfold linked. simpl. eexists. split; [exact Hpend | reflexivity].
    + eapply queued_same;
        [| | | apply (queued_setTimeout
                        (DebouncedUpdate {| upd_id := SleepForm.id sleep;
                                            upd_field := field;
                                            upd_value := value |})
                        500 (set_savingField (Some (SleepForm.id sleep, field)) st0))];
        try reflexivity; [lia |].
      eapply queued_same; [| | | exact Hq]; reflexivity.
Qed.

(** A press outside the card clears the waiting commit and leaves edit
    mode; nothing is sent. *)
Lemma handleClickOutside_cancels (st : State Sleep) :
  invariant st ->
  pendingCommits (handleClickOutside true st) = []
  /\ editTimeoutRef (handleClickOutside true st) = None
  /\ editingId (handleClickOutside true st) = None
  /\ requests (handleClickOutside true st) = requests st
  /\ now (handleClickOutside true st) = now st
  /\ invariant (handleClickOutside true st).
Proof.
  intros Hinv. unfold handleClickOutside.
  destruct (editTimeoutRef st) as [h|] eqn:Hr.
  - destruct (clearTimeout_linked h st Hinv Hr) as [Hp _].
    split; [exact Hp |]. do 4 (split; [reflexivity |]).
    split; [unfold linked; simpl; exact Hp |].
    eapply queued_same;
      [| | | apply (queued_clearTimeout h st); apply Hinv]; reflexivity.
  - destruct Hinv as [Hl Hq]. unfold linked in Hl. rewrite Hr in Hl.
    split; [exact Hl |]. split; [exact Hr |]. do 3 (split; [reflexivity |]).
    split; [unfold linked; simpl; now rewrite Hr |].
    eapply queued_same; [| | | exact Hq]; reflexivity.
Qed.

Lemma sleep_handleClickOutside_invariant (outside : bool) (st : State Sleep) :
  invariant st -> invariant (handleClickOutside outside st).
Proof.
  destruct outside; [| trivial]. intros H. now apply handleClickOutside_cancels.
Qed.

Lemma sleep_advance_invariant (dt : Z) (st : State Sleep) :
  invariant st -> invariant (advance dt st).
Proof.
  intros [Hl Hq]. split; [| now apply queued_advance].
  unfold linked, pendingCommits. rewrite advance_timers.
  rewrite filter_filter_comm. fold (pendingCommits st).
  unfold advance. simpl. unfold linked in Hl.
  destruct (editTimeoutRef st) as [h|] eqn:Hr.
  - destruct Hl as (t & Hp & Ht).
    assert (Hin : In t (timers st) /\ isCommit t = true).
    { apply filter_In. fold (pendingCommits st). rewrite Hp. now left. }
    destruct Hin as [Hin Hc].
    assert (Hnow : now st <= due t).
    { destruct Hq as (_ & _ & H3). rewrite Forall_forall in H3. now apply H3. }
    rewrite Hp. simpl.
    destruct (now st + Z.max 0 dt <? due t) eqn:Hlate.
    + apply Z.ltb_lt in Hlate.
      destruct (run_timers_no_commit (List.length (timers st))
                  (now st + Z.max 0 dt) st) as (_ & _ & _ & _ & H5 & _).
      { intros x Hx Hcx.
        assert (Hxp : In x (pendingCommits st)) by (apply filter_In; auto).
        rewrite Hp in Hxp. destruct Hxp as [<- | []]. exact Hlate. }
      rewrite H5, Hr. exists t. auto.
    + apply Z.ltb_ge in Hlate.
      unfold isCommit in Hc. destruct (action t) as [c| |] eqn:Ha; try discriminate.
      destruct (run_timers_commit (List.length (timers st))
                  (now st + Z.max 0 dt) st t c Hp Ha Hlate Hnow (le_n _))
        as (_ & _ & _ & _ & H5).
      now rewrite H5.
  - destruct (run_timers_no_commit (List.length (timers st))
                (now st + Z.max 0 dt) st) as (_ & _ & _ & _ & H5 & _).
    { intros x Hx Hcx.
      assert (Hxp : In x (pendingCommits st)) by (apply filter_In; auto).
      rewrite Hl in Hxp. contradiction. }
    rewrite H5, Hr, Hl. reflexivity.
Qed.

Lemma sleep_settle_invariant (m : nat) (ok : bool) (st : State Sleep) :
  invariant st -> invariant (settle updateMutation m ok st).
Proof.
  intros [Hl Hq]. unfold settle.
  destruct (find _ (inFlight st)) as [mu|]; [| now split].
  destruct ok; simpl.
  - match goal with |- context [if ?b then _ else _] => destruct b end.
    + split.
      * unfold linked, pendingCommits in *. simpl.
        rewrite filter_app. simpl. rewrite app_nil_r. exact Hl.
      * apply queued_markSaved. eapply queued_same; [| | | exact Hq]; reflexivity.
    + split; [exact Hl |]. eapply queued_same; [| | | exact Hq]; reflexivity.
  - match goal with |- context [if ?b then _ else _] => destruct b end;
      (split; [exact Hl | eapply queued_same; [| | | exact Hq]; reflexivity]).
Qed.

Lemma sleep_step_invariant (st : State Sleep) (e : Event) :
  invariant st -> invariant (step st e).
Proof.
  intros H. destruct e as [sleep field value | outside | dt | m ok | l]; simpl.
  - now apply handleInlineEdit_schedules.
  - now apply sleep_handleClickOutside_invariant.
  - now apply sleep_advance_invariant.
  - now apply sleep_settle_invariant.
  - destruct H as [Hl Hq]. split; [exact Hl |].
    eapply queued_same; [| | | exact Hq]; reflexivity.
Qed.

Lemma sleep_run_invariant (evs : list Event) (st : State Sleep) :
  invariant st -> invariant (run evs st).
Proof.
  revert st. induction evs as [|e evs IH]; intros st H; [exact H |].
  simpl. apply IH. now apply sleep_step_invariant.
Qed.

Lemma sleep_reachable_invariant (st : State Sleep) : reachable st -> invariant st.
Proof.
  intros (t0 & l & evs & ->). apply sleep_run_invariant, sleep_initial_invariant.
Qed.

Lemma invariant_at_most_one (st : State Sleep) :
  invariant st -> (List.length (pendingCommits st) <= 1)%nat.
Proof.
  intros [Hl _]. unfold linked in Hl.
  destruct (editTimeoutRef st); [destruct Hl as (t & -> & _) | rewrite Hl]; simpl; lia.
Qed.

(** The sleep table sets [editingId] to [null] only: it is never in
    edit mode. *)
Lemma reachable_idle (st : State Sleep) : reachable st -> editingId st = None.
Proof.
  intros (t0 & l & evs & ->).
  assert (H : editingId (initial t0 l : State Sleep) = None) by reflexivity.
  revert H. generalize (initial t0 l : State Sleep).
  induction evs as [|e evs IH]; intros st H; [exact H |].
  simpl. apply IH.
  destruct e as [sleep field value | outside | dt | m ok | l']; simpl.
  - unfold handleInlineEdit. destruct (editTimeoutRef st); exact H.
  - unfold handleClickOutside. destruct outside; [reflexivity | exact H].
  - now apply run_timers_editingId_none.
  - unfold settle. destruct (find _ (inFlight st)); [| exact H].
    destruct ok; simpl;
      match goal with |- context [if ?b then _ else _] => destruct b end;
      auto.
  - exact H.
Qed.

(** Two edits less than 500 ms apart, to whatever records and fields:
    the second clears the timer of the first, and only the second is
    ever sent, 500 ms after it was made. *)
Lemma supersede
    (a b : Sleep) (fa fb : string) (va vb : Value) (d : Z) (st : State Sleep) :
  invariant st -> 0 <= d < 500 ->
  pendingCommits (handleInlineEdit a fa va st) = [commitTimer a fa va st]
  /\ pendingCommits (advance d (handleInlineEdit a fa va st))
     = [commitTimer a fa va st]
  /\ pendingCommits (handleInlineEdit b fb vb (advance d (handleInlineEdit a fa va st)))
     = [commitTimer b fb vb (advance d (handleInlineEdit a fa va st))]
  /\ due (commitTimer b fb vb (advance d (handleInlineEdit a fa va st)))
     = now st + d + 500
  /\ requests (handleInlineEdit b fb vb (advance d (handleInlineEdit a fa va st)))
     = requests st
  /\ (forall dt, 0 <= dt < 500 ->
      requests (advance dt (handleInlineEdit b fb vb
                              (advance d (handleInlineEdit a fa va st))))
      = requests st)
  /\ (forall dt, 500 <= dt ->
      requests (advance dt (handleInlineEdit b fb vb
                              (advance d (handleInlineEdit a fa va st))))
      = requests st
        ++ [(now st + d + 500,
             {| upd_id := SleepForm.id b; upd_field := fb; upd_value := vb |})]).
Proof.
  intros Hinv Hd.
  destruct (handleInlineEdit_schedules a fa va st Hinv)
    as (Hp1 & _ & Hr1 & Hn1 & _ & Hinv1).
  set (st1 := handleInlineEdit a fa va st) in *.
  destruct (advance_waiting d st1 _ Hp1) as (Hp2 & Hr2 & _).
  { rewrite Hn1. unfold commitTimer. cbn [due]. lia. }
  pose proof (sleep_advance_invariant d st1 Hinv1) as Hinv2.
  set (st2 := advance d st1) in *.
  assert (Hn2 : now st2 = now st + d).
  { unfold st2. rewrite advance_now, Hn1. lia. }
  destruct (handleInlineEdit_schedules b fb vb st2 Hinv2)
    as (Hp3 & _ & Hr3 & Hn3 & _ & Hinv3).
  set (st3 := handleInlineEdit b fb vb st2) in *.
  assert (Hdue : due (commitTimer b fb vb st2) = now st + d + 500).
  { unfold commitTimer. cbn [due]. lia. }
  split; [exact Hp1 |]. split; [exact Hp2 |]. split; [exact Hp3 |].
  split; [exact Hdue |].
  split; [now rewrite Hr3, Hr2, Hr1 |].
  split.
  - intros dt Hdt.
    destruct (advance_waiting dt st3 _ Hp3) as (_ & Hr4 & _).
    + rewrite Hdue, Hn3, Hn2. lia.
    + now rewrite Hr4, Hr3, Hr2, Hr1.
  - intros dt Hdt.
    destruct (advance_dispatch dt st3 (commitTimer b fb vb st2)
                {| upd_id := SleepForm.id b; upd_field := fb; upd_value := vb |}
                Hp3 eq_refl) as (_ & Hr4 & _).
    + rewrite Hdue, Hn3, Hn2. lia.
    + rewrite Hdue, Hn3, Hn2. lia.
    + now rewrite Hr4, Hdue, Hr3, Hr2, Hr1.
Qed.

(** One edit, left alone: nothing is sent before 500 ms have passed, and
    from then on the value has been sent once, at 500 ms. *)
Lemma debounced_edit
    (sleep : Sleep) (field : string) (value : Value) (st : State Sleep) :
  invariant st ->
  (forall dt, 0 <= dt < 500 ->
      requests (advance dt (handleInlineEdit sleep field value st)) = requests st)
  /\ (forall dt, 500 <= dt ->
      requests (advance dt (handleInlineEdit sleep field value st))
      = requests st
        ++ [(now st + 500,
             {| upd_id := SleepForm.id sleep; upd_field := field;
                upd_value := value |})]).
Proof.
  intros Hinv.
  destruct (handleInlineEdit_schedules sleep field value st Hinv)
    as (Hp & _ & Hr & Hn & _ & _).
  split; intros dt Hdt.
  - destruct (advance_waiting dt _ _ Hp) as (_ & Hr' & _).
    + rewrite Hn. unfold commitTimer. cbn [due]. lia.
    + now rewrite Hr', Hr.
  - destruct (advance_dispatch dt _ (commitTimer sleep field value st)
                {| upd_id := SleepForm.id sleep; upd_field := field;
                   upd_value := value |} Hp eq_refl) as (_ & Hr' & _).
    + rewrite Hn. unfold commitTimer. cbn [due]. lia.
    + rewrite Hn. unfold commitTimer. cbn [due]. lia.
    + rewrite Hr', Hr. reflexivity.
Qed.

(** In the sleep table only the passing of time sends an update: no
    handler calls the collaborator itself. *)
Lemma only_time_sends (st : State Sleep) (e : Event) :
  (forall dt, e <> Tick dt) -> requests (step st e) = requests st.
Proof.
  intros He. destruct e as [sleep field value | outside | dt | m ok | l]; simpl.
  - unfold handleInlineEdit. destruct (editTimeoutRef st); reflexivity.
  - unfold handleClickOutside.
    destruct outside; [destruct (editTimeoutRef st) |]; reflexivity.
  - exfalso. now apply (He dt).
  - unfold settle. destruct (find _ (inFlight st)); [| reflexivity].
    destruct ok; simpl;
      match goal with |- context [if ?b then _ else _] => destruct b end;
      reflexivity.
  - reflexivity.
Qed.

End SleepLogFacts.


(** ** The feeding table: immediate dispatch *)

Module FeedingLogFacts.
Import Js Runtime RuntimeFacts FeedingLog.

(** The [onBlur] of an input sends one update or, for a field without
    input, does nothing. *)
Lemma input_onBlur_cases
    (feeding : Feeding) (field value : string) (st : State Feeding) :
  input_onBlur feeding field value st = st
  \/ exists v, input_onBlur feeding field value st
               = handleInlineEdit feeding field v st.
Proof.
  unfold input_onBlur.
  destruct (String.eqb_spec field "duration") as [-> |]; [right; eauto |].
  destruct (String.eqb_spec field "amount") as [-> |]; [right; eauto |].
  destruct (String.eqb_spec field "notes") as [-> |]; [right; eauto |].
  now left.
Qed.

(** The element that loses the focus runs its [onBlur] or nothing. *)
Lemma blurActive_cases (st : State Feeding) :
  blurActive st = st
  \/ exists feeding field v,
       blurActive st = handleInlineEdit feeding field v st.
Proof.
  unfold blurActive.
  destruct (activeElement (document st)) as [[row field]|]; [| now left].
  destruct (nth_error (records st) row) as [feeding|]; [| now left].
  destruct (isEditing _ _ && hasElement _ _); [| now left].
  destruct (input_onBlur_cases feeding field
              (controlValue (tableControls (document st)) field) st)
    as [-> | [v ->]]; [now left | right; eauto].
Qed.

(** The focus callback changes the document and, through the [onBlur]
    of the element left, may send one update. *)
Lemma focus_cases (field : string) (st : State Feeding) :
  focus field st = st
  \/ (exists d, focus field st = set_document d st)
  \/ (exists d feeding f v,
       focus field st = set_document d (handleInlineEdit feeding f v st)).
Proof.
  unfold focus.
  destruct (focusTarget _ field); [| now left].
  destruct (targetRow _ _ field 0) as [row|]; [| now left].
  destruct (negb (wide (document st))); [now left |].
  destruct (activeElement (document st)) as [[row' field']|];
    [| right; left; eauto].
  destruct (Nat.eqb row' row && String.eqb field' field); [now left |].
  destruct (blurActive_cases st) as [-> | (feeding & f & v & ->)];
    [right; left; eauto | right; right; eauto 6].
Qed.

#[global] Instance feedingFrame : FocusFrame Feeding.
Proof.
  split; intros f st; change (focusField f st) with (focus f st);
    destruct (focus_cases f st)
      as [-> | [[d ->] | (d & feeding & f' & v & ->)]]; reflexivity.
Qed.

Lemma feeding_initial_invariant (t0 : Z) (l : list Feeding) : invariant (initial t0 l).
Proof.
  split; [reflexivity |]. split; [reflexivity |].
  unfold queued. simpl. repeat split; constructor.
Qed.

Lemma invariant_same (st st' : State Feeding) :
  timers st' = timers st -> nextHandle st' = nextHandle st ->
  now st' = now st -> editTimeoutRef st' = editTimeoutRef st ->
  invariant st -> invariant st'.
Proof.
  intros Ht Hh Hn Hr (Hp & Hf & Hq). split; [| split].
  - unfold pendingCommits in *. now rewrite Ht.
  - now rewrite Hr.
  - now apply (queued_same st st').
Qed.

Lemma invariant_setTimeout (a : TimerAction) (delay : Z) (st : State Feeding) :
  isCommit {| handle := 1; due := 0; action := a |} = false -> 0 <= delay ->
  invariant st -> invariant (snd (setTimeout a delay st)).
Proof.
  intros Ha Hd (Hp & Hf & Hq). split; [| split].
  - unfold pendingCommits in *. simpl. rewrite filter_app, Hp. simpl.
    unfold isCommit in *. simpl in *. now rewrite Ha.
  - exact Hf.
  - now apply queued_setTimeout.
Qed.

(** [handleInlineEdit] sends the update in the same step, stamped with
    the current time, and sets no timer. *)
Lemma handleInlineEdit_dispatches
    (feeding : Feeding) (field : string) (value : Value) (st : State Feeding) :
  requests (handleInlineEdit feeding field value st)
  = requests st ++ [(now st, {| upd_id := id feeding; upd_field := field;
                                 upd_value := value |})]
  /\ inFlight (handleInlineEdit feeding field value st)
     = inFlight st ++ [{| mutationId := nextMutationId st;
                          variables := {| upd_id := id feeding; upd_field := field;
                                          upd_value := value |} |}]
  /\ timers (handleInlineEdit feeding field value st) = timers st
  /\ now (handleInlineEdit feeding field value st) = now st
  /\ editingId (handleInlineEdit feeding field value st) = editingId st.
Proof. repeat split. Qed.

Lemma handleInlineEdit_invariant
    (feeding : Feeding) (field : string) (value : Value) (st : State Feeding) :
  invariant st -> invariant (handleInlineEdit feeding field value st).
Proof. apply invariant_same; reflexivity. Qed.

Lemma set_editingId_invariant (v : option Z) (st : State Feeding) :
  invariant st -> invariant (set_editingId v st).
Proof. apply invariant_same; reflexivity. Qed.

Lemma input_onBlur_invariant
    (feeding : Feeding) (field value : string) (st : State Feeding) :
  invariant st -> invariant (input_onBlur feeding field value st).
Proof.
  intros H. unfold input_onBlur.
  repeat match goal with
         | |- context [if String.eqb ?a ?b then _ else _] =>
             destruct (String.eqb a b)
         end; auto using handleInlineEdit_invariant.
Qed.

Lemma handleKeyDown_invariant
    (key value : string) (feeding : Feeding) (field : string) (st : State Feeding) :
  invariant st -> invariant (handleKeyDown key value feeding field st).
Proof.
  intros H. unfold handleKeyDown.
  destruct (String.eqb key "Enter"); [now apply handleInlineEdit_invariant |].
  destruct (String.eqb key "Escape").
  { now apply input_onBlur_invariant, set_editingId_invariant. }
  destruct (String.eqb key "Tab"); [| exact H].
  apply invariant_setTimeout; [reflexivity | lia |].
  apply set_editingId_invariant.
  destruct (fieldText feeding field) as [shown|];
    [destruct (String.eqb value shown) |]; auto using handleInlineEdit_invariant.
Qed.

Lemma feeding_handleClickOutside_invariant
    (outside : bool) (document : list Element) (st : State Feeding) :
  invariant st -> invariant (handleClickOutside outside document st).
Proof.
  intros H. unfold handleClickOutside. destruct outside; [| exact H].
  apply set_editingId_invariant.
  destruct (editingId st); [| exact H].
  destruct (querySelector document); [| exact H].
  destruct (find _ (records st)); [| exact H].
  now apply handleInlineEdit_invariant.
Qed.

Lemma set_document_invariant (d : Document) (st : State Feeding) :
  invariant st -> invariant (set_document d st).
Proof. apply invariant_same; reflexivity. Qed.

Lemma focus_invariant (field : string) (st : State Feeding) :
  invariant st -> invariant (focus field st).
Proof.
  apply invariant_same; change (focus field st) with (focusField field st);
    focus_frame; reflexivity.
Qed.

Lemma feeding_advance_invariant (dt : Z) (st : State Feeding) :
  invariant st -> invariant (advance dt st).
Proof.
  intros (Hp & Hf & Hq).
  destruct (advance_idle_frame dt st Hp) as (H1 & _ & H3).
  split; [exact H1 |]. split; [now rewrite H3 |]. now apply queued_advance.
Qed.

Lemma feeding_settle_invariant (m : nat) (ok : bool) (st : State Feeding) :
  invariant st -> invariant (settle updateMutation m ok st).
Proof.
  intros H. unfold settle.
  destruct (find _ (inFlight st)) as [mu|]; [| exact H].
  destruct ok; simpl.
  - match goal with |- context [if ?b then _ else _] => destruct b end.
    + destruct H as (Hp & Hf & Hq). split; [| split].
      * unfold pendingCommits in *. simpl.
        rewrite filter_app. simpl. rewrite app_nil_r. exact Hp.
      * exact Hf.
      * eapply queued_same;
          [| | | apply (queued_markSaved (variables mu));
                 eapply queued_same; [| | | exact Hq]; reflexivity];
          reflexivity.
    + revert H. apply invariant_same; reflexivity.
  - match goal with |- context [if ?b then _ else _] => destruct b end;
      (revert H; apply invariant_same; reflexivity).
Qed.

Lemma feeding_step_invariant (st : State Feeding) (e : Event) :
  invariant st -> invariant (step st e).
Proof.
  intros H. destruct e; cbn [step].
  - now apply set_editingId_invariant.
  - destruct (isBottle feeding); [now apply set_editingId_invariant | exact H].
  - now apply set_editingId_invariant.
  - now apply handleKeyDown_invariant.
  - now apply input_onBlur_invariant.
  - apply invariant_setTimeout; [reflexivity | lia |].
    now apply handleInlineEdit_invariant.
  - now apply handleInlineEdit_invariant.
  - destruct open; [exact H | now apply set_editingId_invariant].
  - destruct (String.eqb key "Escape"); [now apply set_editingId_invariant |].
    destruct (String.eqb key "Tab"); [| exact H].
    now apply focus_invariant, set_document_invariant.
  - now apply feeding_handleClickOutside_invariant.
  - now apply set_document_invariant.
  - now apply feeding_advance_invariant.
  - now apply feeding_settle_invariant.
  - revert H. apply invariant_same; reflexivity.
Qed.

Lemma feeding_run_invariant (evs : list Event) (st : State Feeding) :
  invariant st -> invariant (run evs st).
Proof.
  revert st. induction evs as [|e evs IH]; intros st H; [exact H |].
  simpl. apply IH. now apply feeding_step_invariant.
Qed.

Lemma feeding_reachable_invariant (st : State Feeding) : reachable st -> invariant st.
Proof.
  intros (t0 & l & evs & ->). apply feeding_run_invariant, feeding_initial_invariant.
Qed.

End FeedingLogFacts.


(** ** The edit controller of the two tables *)

Module EditController.
Import Js Runtime RuntimeFacts Scenarios.

Section Highlight.
Context {R : Type} {T : Table R} {F : FocusCallback R} {FF : FocusFrame R}.
Implicit Types (st : State R).

(** A clear timer that has come due leaves no mark, whichever mark it
    was set for. *)
Lemma highlight_expires st (t : Timer) (dt : Z) :
  In t (timers st) -> isClear t = true -> due t <= now st + Z.max 0 dt ->
  highlightedField (advance dt st) = None.
Proof.
  intros Hin Hc Hd. unfold advance. simpl.
  now apply (run_timers_highlight_clear _ _ st t).
Qed.

(** While no clear timer comes due the mark stays. *)
Lemma highlight_stays st (dt : Z) :
  (forall t, In t (timers st) -> isClear t = true -> now st + Z.max 0 dt < due t) ->
  highlightedField (advance dt st) = highlightedField st.
Proof.
  intros H. unfold advance. simpl. now apply run_timers_highlight_keep.
Qed.

End Highlight.

(** What the callbacks of a successful update, run for the latest call,
    leave behind in either table. *)
Lemma settle_success_marks_feeding
    (st : State FeedingLog.Feeding) (m : nat) (mu : Mutation) :
  find (fun x => Nat.eqb (mutationId x) m) (inFlight st) = Some mu ->
  currentMutation st = Some m ->
  highlightedField (settle FeedingLog.updateMutation m true st)
  = Some (upd_id (variables mu), upd_field (variables mu))
  /\ timers (settle FeedingLog.updateMutation m true st)
     = timers st ++ [{| handle := nextHandle st; due := now st + 1000;
                        action := ClearHighlight |}]
  /\ now (settle FeedingLog.updateMutation m true st) = now st
  /\ editingId (settle FeedingLog.updateMutation m true st) = None.
Proof.
  intros Hf Hc. unfold settle. rewrite Hf. simpl.
  unfold isLatest. simpl. rewrite Hc, Nat.eqb_refl. repeat split.
Qed.

Lemma settle_success_marks_sleep
    (st : State SleepLog.Sleep) (m : nat) (mu : Mutation) :
  find (fun x => Nat.eqb (mutationId x) m) (inFlight st) = Some mu ->
  currentMutation st = Some m ->
  highlightedField (settle SleepLog.updateMutation m true st)
  = Some (upd_id (variables mu), upd_field (variables mu))
  /\ timers (settle SleepLog.updateMutation m true st)
     = timers st ++ [{| handle := nextHandle st; due := now st + 1000;
                        action := ClearHighlight |}]
  /\ now (settle SleepLog.updateMutation m true st) = now st
  /\ editingId (settle SleepLog.updateMutation m true st) = None.
Proof.
  intros Hf Hc. unfold settle. rewrite Hf. simpl.
  unfold isLatest. simpl. rewrite Hc, Nat.eqb_refl. repeat split.
Qed.

(** The window of a mark, from what [settle] leaves behind. *)
Lemma mark_window {R : Type} {T : Table R} {F : FocusCallback R}
    {FF : FocusFrame R} (st st' : State R) (key : Z * string) :
  highlightedField st' = Some key ->
  timers st' = timers st ++ [{| handle := nextHandle st; due := now st + 1000;
                                action := ClearHighlight |}] ->
  now st' = now st ->
  (forall dt, 1000 <= dt -> highlightedField (advance dt st') = None)
  /\ (forall dt, 0 <= dt < 1000 ->
      (forall t, In t (timers st) -> isClear t = true -> now st + dt < due t) ->
      highlightedField (advance dt st') = Some key)
  /\ (forall t dt, In t (timers st) -> isClear t = true ->
      0 <= dt -> due t <= now st + dt ->
      highlightedField (advance dt st') = None).
Proof.
  intros Hh Ht Hn. split; [| split].
  - intros dt Hdt.
    apply (highlight_expires st' {| handle := nextHandle st; due := now st + 1000;
                                    action := ClearHighlight |} dt).
    + rewrite Ht. apply in_or_app. right. now left.
    + reflexivity.
    + rewrite Hn. cbn [due]. lia.
  - intros dt Hdt Hfree. rewrite highlight_stays; [exact Hh |].
    intros t Hin Hc. rewrite Ht in Hin. rewrite Hn.
    apply in_app_or in Hin. destruct Hin as [Hin | [<- | []]].
    + specialize (Hfree t Hin Hc). lia.
    + cbn [due]. lia.
  - intros t dt Hin Hc Hdt Hd.
    apply (highlight_expires st' t dt); [| exact Hc | rewrite Hn; lia].
    rewrite Ht. apply in_or_app. now left.
Qed.

(** *** Pending commits *)

(** C3. At any instant at most one commit waits in the sleep table, so
    at most one for each record and field, and none ever waits in the
    feeding table. A second edit of the same target made before the
    first has fired clears the timer of the first: however long one
    waits, only the second value is sent, and it is sent 500 ms after
    the second edit, the delay having started again. An edit of the
    sleep table that is left alone is sent once 500 ms have passed and
    not before, and nothing but the passing of time sends an update
    there. An edit of the feeding table is sent in the very step that
    makes it, with no timer. *)
Theorem settle_delay_supersedes :
  (forall st : State SleepLog.Sleep,
      SleepLog.reachable st -> (List.length (pendingCommits st) <= 1)%nat)
  /\ (forall st : State FeedingLog.Feeding,
        FeedingLog.reachable st -> pendingCommits st = [])
  /\ (forall (st : State SleepLog.Sleep) sleep field v1 v2 d,
        SleepLog.reachable st -> 0 <= d < 500 ->
        let st1 := SleepLog.handleInlineEdit sleep field v1 st in
        let st2 := SleepLog.handleInlineEdit sleep field v2 (advance d st1) in
        pendingCommits st1 = [SleepLog.commitTimer sleep field v1 st]
        /\ pendingCommits st2
           = [SleepLog.commitTimer sleep field v2 (advance d st1)]
        /\ due (SleepLog.commitTimer sleep field v2 (advance d st1))
           = now st + d + 500
        /\ requests st2 = requests st
        /\ (forall dt, 0 <= dt < 500 -> requests (advance dt st2) = requests st)
        /\ (forall dt, 500 <= dt ->
            requests (advance dt st2)
            = requests st
              ++ [(now st + d + 500,
                   {| upd_id := SleepForm.id sleep; upd_field := field;
                      upd_value := v2 |})]))
  /\ (forall (st : State SleepLog.Sleep) sleep field value,
        SleepLog.reachable st ->
        (forall dt, 0 <= dt < 500 ->
            requests (advance dt (SleepLog.handleInlineEdit sleep field value st))
            = requests st)
        /\ (forall dt, 500 <= dt ->
            requests (advance dt (SleepLog.handleInlineEdit sleep field value st))
            = requests st
              ++ [(now st + 500,
                   {| upd_id := SleepForm.id sleep; upd_field := field;
                      upd_value := value |})]))
  /\ (forall (st : State SleepLog.Sleep) e,
        (forall dt, e <> SleepLog.Tick dt) ->
        requests (SleepLog.step st e) = requests st)
  /\ (forall (st : State FeedingLog.Feeding) feeding field value,
        requests (FeedingLog.handleInlineEdit feeding field value st)
        = requests st
          ++ [(now st, {| upd_id := FeedingLog.id feeding; upd_field := field;
                           upd_value := value |})]
        /\ timers (FeedingLog.handleInlineEdit feeding field value st) = timers st).
Proof.
  split; [| split; [| split; [| split; [| split]]]].
  - intros st Hr.
    apply SleepLogFacts.invariant_at_most_one, SleepLogFacts.sleep_reachable_invariant, Hr.
  - intros st Hr. apply FeedingLogFacts.feeding_reachable_invariant in Hr. apply Hr.
  - intros st sleep field v1 v2 d Hr Hd st1 st2.
    apply SleepLogFacts.sleep_reachable_invariant in Hr.
    destruct (SleepLogFacts.supersede sleep sleep field field v1 v2 d st Hr Hd)
      as (H1 & _ & H3 & H4 & H5 & H6 & H7).
    exact (conj H1 (conj H3 (conj H4 (conj H5 (conj H6 H7))))).
  - intros st sleep field value Hr.
    apply SleepLogFacts.debounced_edit, SleepLogFacts.sleep_reachable_invariant, Hr.
  - exact SleepLogFacts.only_time_sends.
  - intros st feeding field value. split; reflexivity.
Qed.

Lemma settle_delay_supersedes_witness :
  requests
    (advance 500
       (SleepLog.handleInlineEdit sleep1 "notes" (Str "restless night")
          (advance 100
             (SleepLog.handleInlineEdit sleep1 "notes" (Str "restless")
                (initial 0 [sleep1; sleep2])))))
  = [(600, {| upd_id := 1; upd_field := "notes";
              upd_value := Str "restless night" |})].
Proof.
  destruct settle_delay_supersedes as (_ & _ & H & _).
  destruct (H (initial 0 [sleep1; sleep2]) sleep1 "notes"
              (Str "restless") (Str "restless night") 100)
    as (_ & _ & _ & _ & _ & Hsent).
  - exists 0, [sleep1; sleep2], []. reflexivity.
  - lia.
  - apply (Hsent 500). lia.
Defined.

(** The two edits of the notes of record 1, 100 ms apart, run from the
    mounted table: one request, the second value, at 600 ms. *)
Example settle_delay_supersedes_run :
  requests
    (SleepLog.run
       [ SleepLog.InlineEdit sleep1 "notes" (Str "restless"); SleepLog.Tick 100;
         SleepLog.InlineEdit sleep1 "notes" (Str "restless night");
         SleepLog.Tick 499; SleepLog.Tick 1; SleepLog.Tick 5000 ]
       (initial 0 [sleep1; sleep2]))
  = [(600, {| upd_id := 1; upd_field := "notes";
              upd_value := Str "restless night" |})].
Proof. vm_compute. reflexivity. Qed.

(** C4, as stated, fails in the sleep table: the commit of the notes of
    record 1 is waiting when the notes of record 2 are edited, and the
    edit cancels it. *)
Lemma scheduling_cancels_other_key : ~ Stated.independent_pending_commits.
Proof.
  intros [_ H].
  assert (Hafter :
    pendingCommits
      (SleepLog.handleInlineEdit sleep2 "notes" (Str "calm")
         (SleepLog.run editOfRecord1 (initial 0 [sleep1; sleep2])))
    = [{| handle := 2; due := 600;
          action := DebouncedUpdate {| upd_id := 2; upd_field := "notes";
                                       upd_value := Str "calm" |} |}])
    by (vm_compute; reflexivity).
  assert (Hin : In {| handle := 1%positive; due := 500;
                      action := DebouncedUpdate
                                  {| upd_id := 1; upd_field := "notes";
                                     upd_value := Str "restless" |} |}
                   (pendingCommits
                      (SleepLog.handleInlineEdit sleep2 "notes" (Str "calm")
                         (SleepLog.run editOfRecord1 (initial 0 [sleep1; sleep2]))))).
  { apply H.
    - exists 0, [sleep1; sleep2], editOfRecord1. reflexivity.
    - vm_compute. left. reflexivity.
    - vm_compute. discriminate. }
  rewrite Hafter in Hin. destruct Hin as [Hin | []].
  injection Hin as Hh _ _. discriminate Hh.
Qed.

(** C4, amended. The sleep table has one settle timer for the whole
    table: a commit scheduled for any record and field is afterwards the
    only one waiting, whatever was waiting before, so two commits never
    wait side by side. In the feeding table a commit is sent at once and
    joins the updates in flight without removing any; updates of
    different fields and records are in flight together. *)
Theorem one_settle_timer_per_table :
  (forall (st : State SleepLog.Sleep) sleep field value,
      SleepLog.reachable st ->
      pendingCommits (SleepLog.handleInlineEdit sleep field value st)
      = [SleepLog.commitTimer sleep field value st])
  /\ (forall (st : State SleepLog.Sleep) t1 t2,
        SleepLog.reachable st ->
        In t1 (pendingCommits st) -> In t2 (pendingCommits st) -> t1 = t2)
  /\ (forall (st : State FeedingLog.Feeding) feeding field value,
        inFlight (FeedingLog.handleInlineEdit feeding field value st)
        = inFlight st
          ++ [{| mutationId := nextMutationId st;
                 variables := {| upd_id := FeedingLog.id feeding;
                                 upd_field := field; upd_value := value |} |}])
  /\ (FeedingLog.reachable (FeedingLog.run twoInFlight feedingTable)
      /\ map variables (inFlight (FeedingLog.run twoInFlight feedingTable))
         = [ {| upd_id := 7; upd_field := "duration"; upd_value := Num (Dec 45 0) |};
             {| upd_id := 8; upd_field := "notes"; upd_value := Str "fussy" |} ]).
Proof.
  split; [| split; [| split]].
  - intros st sleep field value Hr.
    apply SleepLogFacts.sleep_reachable_invariant in Hr.
    now apply SleepLogFacts.handleInlineEdit_schedules.
  - intros st t1 t2 Hr H1 H2.
    apply SleepLogFacts.sleep_reachable_invariant in Hr. destruct Hr as [Hl _].
    unfold SleepLog.linked in Hl.
    destruct (editTimeoutRef st).
    + destruct Hl as (t & Hp & _). rewrite Hp in H1, H2.
      destruct H1 as [<- | []], H2 as [<- | []]. reflexivity.
    + rewrite Hl in H1. contradiction.
  - intros st feeding field value. reflexivity.
  - split; [| vm_compute; reflexivity].
    exists 0, [feeding7; feeding8], twoInFlight. reflexivity.
Qed.

Lemma one_settle_timer_per_table_witness :
  pendingCommits
    (SleepLog.handleInlineEdit sleep2 "notes" (Str "calm")
       (SleepLog.run editOfRecord1 (initial 0 [sleep1; sleep2])))
  = [SleepLog.commitTimer sleep2 "notes" (Str "calm")
       (SleepLog.run editOfRecord1 (initial 0 [sleep1; sleep2]))].
Proof.
  destruct one_settle_timer_per_table as (H & _).
  apply H. exists 0, [sleep1; sleep2], editOfRecord1. reflexivity.
Defined.

(** *** A rejected update *)

(** C5, as stated, fails in the feeding table: Enter commits the
    duration of row 7, the update is rejected, and the row is still in
    edit mode. *)
Lemma rejected_update_keeps_edit_mode : ~ Stated.failure_returns_to_idle.
Proof.
  intros H.
  assert (Hafter :
    editingId (settle FeedingLog.updateMutation 0 false
                 (FeedingLog.run
                    [ FeedingLog.Activate feeding7;
                      FeedingLog.KeyDown "Enter" "45" feeding7 "duration";
                      FeedingLog.Tick 100 ] feedingTable))
    = Some 7) by (vm_compute; reflexivity).
  rewrite (H _ 0%nat
             {| mutationId := 0;
                variables := {| upd_id := 7; upd_field := "duration";
                                upd_value := Str "45" |} |}) in Hafter.
  - discriminate Hafter.
  - exists 0, [feeding7; feeding8],
      [ FeedingLog.Activate feeding7;
        FeedingLog.KeyDown "Enter" "45" feeding7 "duration";
        FeedingLog.Tick 100 ].
    reflexivity.
  - vm_compute. reflexivity.
Qed.

(** C5, amended. When the update is rejected, in either table, a
    destructive notice is shown, no refresh of the list is requested,
    the cached list is left as it was and nothing is sent again. The
    failure leaves [editingId] as it finds it: the sleep table is never
    in edit mode, and a row of the feeding table that was in edit mode
    stays in it. So every cell of the feeding table shows after the
    failure what it showed before it: the stored value from before the
    edit for a row out of edit mode, and the text its input holds for a
    row in edit mode. After Enter on the duration of row 7 with 45
    typed, the rejected update leaves the cell showing 45, while the
    list still has 20 minutes. For the latest call the feeding table
    also clears [savingField]. *)
Theorem rejected_update_handling :
  (forall (st : State FeedingLog.Feeding) m mu,
      find (fun x => Nat.eqb (mutationId x) m) (inFlight st) = Some mu ->
      (exists notices,
          notices <> []
          /\ forallb isDestructive notices = true
          /\ toasts (settle FeedingLog.updateMutation m false st)
             = toasts st ++ notices)
      /\ records (settle FeedingLog.updateMutation m false st) = records st
      /\ invalidations (settle FeedingLog.updateMutation m false st)
         = invalidations st
      /\ requests (settle FeedingLog.updateMutation m false st) = requests st
      /\ editingId (settle FeedingLog.updateMutation m false st) = editingId st
      /\ (currentMutation st = Some m ->
          savingField (settle FeedingLog.updateMutation m false st) = None)
      /\ (forall table feeding field,
          TableViews.cellText (settle FeedingLog.updateMutation m false st)
            table feeding field
          = TableViews.cellText st table feeding field)
      /\ (forall table feeding field,
          FeedingLog.isEditing (editingId st) feeding = false ->
          TableViews.cellText (settle FeedingLog.updateMutation m false st)
            table feeding field
          = TableViews.storedText feeding field))
  /\ (forall (st : State SleepLog.Sleep) m mu,
        find (fun x => Nat.eqb (mutationId x) m) (inFlight st) = Some mu ->
        (exists notices,
            notices <> []
            /\ forallb isDestructive notices = true
            /\ toasts (settle SleepLog.updateMutation m false st)
               = toasts st ++ notices)
        /\ records (settle SleepLog.updateMutation m false st) = records st
        /\ invalidations (settle SleepLog.updateMutation m false st)
           = invalidations st
        /\ requests (settle SleepLog.updateMutation m false st) = requests st
        /\ editingId (settle SleepLog.updateMutation m false st) = editingId st
        /\ (SleepLog.reachable st ->
            editingId (settle SleepLog.updateMutation m false st) = None))
  /\ TableViews.cellText (FeedingLog.run rejectedEnter feedingTable)
       typed45 feeding7 "duration" = "45"
  /\ TableViews.storedText feeding7 "duration" = "20 minutes"
  /\ records (FeedingLog.run rejectedEnter feedingTable) = [feeding7; feeding8].
Proof.
  split; [| split; [| vm_compute; repeat split]].
  - intros st m mu Hf.
    assert (Hedit : editingId (settle FeedingLog.updateMutation m false st)
                    = editingId st).
    { unfold settle. rewrite Hf.
      cbn [FeedingLog.updateMutation onError mutate_onError].
      destruct (isLatest m _); reflexivity. }
    assert (Hcell : forall table feeding field,
               TableViews.cellText (settle FeedingLog.updateMutation m false st)
                 table feeding field
               = TableViews.cellText st table feeding field).
    { intros table feeding field. unfold TableViews.cellText.
      now rewrite Hedit. }
    cut ((exists notices,
             notices <> []
             /\ forallb isDestructive notices = true
             /\ toasts (settle FeedingLog.updateMutation m false st)
                = toasts st ++ notices)
         /\ records (settle FeedingLog.updateMutation m false st) = records st
         /\ invalidations (settle FeedingLog.updateMutation m false st)
            = invalidations st
         /\ requests (settle FeedingLog.updateMutation m false st) = requests st
         /\ editingId (settle FeedingLog.updateMutation m false st) = editingId st
         /\ (currentMutation st = Some m ->
             savingField (settle FeedingLog.updateMutation m false st) = None)).
    { intros (H1 & H2 & H3 & H4 & H5 & H6).
      refine (conj H1 (conj H2 (conj H3 (conj H4 (conj H5 (conj H6
                (conj Hcell _))))))).
      intros table feeding field Hout. rewrite Hcell.
      unfold TableViews.cellText. now rewrite Hout. }
    clear Hedit Hcell.
    unfold settle. rewrite Hf. cbn [FeedingLog.updateMutation onError mutate_onError].
    destruct (isLatest m _) eqn:Hl.
    + split.
      { exists [ {| toast_title := Some "Error";
                    toast_description := "Failed to update feeding log";
                    toast_duration := None;
                    toast_variant := Some "destructive" |};
                 {| toast_title := Some "Error";
                    toast_description := "Failed to save changes";
                    toast_duration := None;
                    toast_variant := Some "destructive" |} ].
        split; [discriminate |]. split; [reflexivity |].
        cbn. rewrite <- app_assoc. reflexivity. }
      do 4 (split; [reflexivity |]). intros _. reflexivity.
    + split.
      { exists [ {| toast_title := Some "Error";
                    toast_description := "Failed to update feeding log";
                    toast_duration := None;
                    toast_variant := Some "destructive" |} ].
        split; [discriminate |]. split; reflexivity. }
      do 4 (split; [reflexivity |]). intros Hc.
      unfold isLatest in Hl. cbn in Hl. rewrite Hc, Nat.eqb_refl in Hl. discriminate.
  - intros st m mu Hf. unfold settle. rewrite Hf. cbn [SleepLog.updateMutation onError mutate_onError].
    assert (Hsame : forall b : bool,
               (if b then
                  toast {| toast_title := Some "Error";
                           toast_description := "Failed to update sleep log";
                           toast_duration := None;
                           toast_variant := Some "destructive" |}
                    (set_inFlight
                       (filter (fun x => negb (Nat.eqb (mutationId x) m)) (inFlight st)) st)
                else
                  toast {| toast_title := Some "Error";
                           toast_description := "Failed to update sleep log";
                           toast_duration := None;
                           toast_variant := Some "destructive" |}
                    (set_inFlight
                       (filter (fun x => negb (Nat.eqb (mutationId x) m)) (inFlight st)) st))
               = toast {| toast_title := Some "Error";
                          toast_description := "Failed to update sleep log";
                          toast_duration := None;
                          toast_variant := Some "destructive" |}
                   (set_inFlight
                      (filter (fun x => negb (Nat.eqb (mutationId x) m)) (inFlight st)) st))
      by (intros []; reflexivity).
    rewrite Hsame. split.
    { exists [ {| toast_title := Some "Error";
                  toast_description := "Failed to update sleep log";
                  toast_duration := None;
                  toast_variant := Some "destructive" |} ].
      split; [discriminate |]. split; reflexivity. }
    do 4 (split; [reflexivity |]).
    intros Hr. cbn. now apply SleepLogFacts.reachable_idle.
Qed.

Lemma rejected_update_handling_witness :
  editingId (FeedingLog.run rejectedEnter feedingTable) = Some 7
  /\ records (FeedingLog.run rejectedEnter feedingTable) = [feeding7; feeding8]
  /\ invalidations (FeedingLog.run rejectedEnter feedingTable) = 0%nat
  /\ savingField (FeedingLog.run rejectedEnter feedingTable) = None.
Proof.
  destruct rejected_update_handling as (H & _).
  destruct (H (FeedingLog.run
                 [ FeedingLog.Activate feeding7;
                   FeedingLog.KeyDown "Enter" "45" feeding7 "duration";
                   FeedingLog.Tick 100 ] feedingTable)
              0%nat
              {| mutationId := 0;
                 variables := {| upd_id := 7; upd_field := "duration";
                                 upd_value := Str "45" |} |})
    as (_ & Hrec & Hinv & _ & Hedit & Hsaving & _).
  - vm_compute. reflexivity.
  - split; [| split; [| split]].
    + etransitivity; [exact Hedit | vm_compute; reflexivity].
    + etransitivity; [exact Hrec | vm_compute; reflexivity].
    + etransitivity; [exact Hinv | vm_compute; reflexivity].
    + apply Hsaving. vm_compute. reflexivity.
Defined.

(** *** Escape *)

(** C6 fails on the code. Escape on an input leaves edit mode and then
    blurs the input, and the [onBlur] of the input commits what it
    holds: the keystrokes are sent, not discarded. Only the select
    trigger, which has no [onBlur], leaves without a request. *)
Theorem escape_commits_through_blur :
  (forall (st : State FeedingLog.Feeding) feeding value,
      editingId (FeedingLog.handleKeyDown "Escape" value feeding "duration" st) = None
      /\ requests (FeedingLog.handleKeyDown "Escape" value feeding "duration" st)
         = requests st
           ++ [(now st, {| upd_id := FeedingLog.id feeding; upd_field := "duration";
                            upd_value := Num (parseInt value) |})]
      /\ requests (FeedingLog.handleKeyDown "Escape" value feeding "notes" st)
         = requests st
           ++ [(now st, {| upd_id := FeedingLog.id feeding; upd_field := "notes";
                            upd_value := Str value |})])
  /\ requests
       (FeedingLog.run
          [ FeedingLog.Activate feeding7;
            FeedingLog.KeyDown "Escape" "45" feeding7 "duration" ] feedingTable)
     = [(0, {| upd_id := 7; upd_field := "duration"; upd_value := Num (Dec 45 0) |})]
  /\ (forall st : State FeedingLog.Feeding,
        editingId (FeedingLog.step st (FeedingLog.TriggerKeyDown "Escape")) = None
        /\ requests (FeedingLog.step st (FeedingLog.TriggerKeyDown "Escape"))
           = requests st).
Proof.
  split; [| split].
  - intros st feeding value. split; [reflexivity |]. split; reflexivity.
  - vm_compute. reflexivity.
  - intros st. split; reflexivity.
Qed.

(** *** A press outside the table *)

(** The first marked element of the document, while a fetched row is in
    edit mode, is the select trigger of that row. *)
Lemma querySelector_trigger
    (feedings : list FeedingLog.Feeding) (e : Z)
    (table cards : FeedingLog.Controls) (feeding : FeedingLog.Feeding) :
  find (fun f => FeedingLog.id f =? e) feedings = Some feeding ->
  FeedingLog.querySelector (FeedingLog.editingElements feedings (Some e) table cards)
  = Some {| FeedingLog.dataField := "feedingType";
            FeedingLog.value := FeedingLog.triggerValue table |}.
Proof.
  unfold FeedingLog.editingElements, FeedingLog.querySelector.
  induction feedings as [|f fs IH]; simpl; [discriminate |].
  rewrite (Z.eqb_sym e). destruct (FeedingLog.id f =? e).
  - intros _. reflexivity.
  - intros H. simpl. exact (IH H).
Qed.

(** C7 fails on the code for feeding records. The press outside reads
    the first marked element of the document, the select trigger of the
    row, and commits the feeding type with whatever the trigger holds;
    the text typed into the focused input is not read. For sleep
    records the statement holds: the waiting commit is cleared, nothing is
    ever sent for it, and the table is not in edit mode. *)
Theorem outside_press_reads_first_marked_element :
  (forall (st : State FeedingLog.Feeding) table cards e feeding,
      editingId st = Some e ->
      find (fun f => FeedingLog.id f =? e) (records st) = Some feeding ->
      requests (FeedingLog.step st (FeedingLog.MouseDown true table cards))
      = requests st
        ++ [(now st, {| upd_id := FeedingLog.id feeding;
                         upd_field := "feedingType";
                         upd_value := Str (FeedingLog.triggerValue table) |})]
      /\ editingId (FeedingLog.step st (FeedingLog.MouseDown true table cards))
         = None)
  /\ requests
       (FeedingLog.run
          [ FeedingLog.Activate feeding7;
            FeedingLog.MouseDown true typed45 typed45 ] feedingTable)
     = [(0, {| upd_id := 7; upd_field := "feedingType"; upd_value := Str "" |})]
  /\ (forall (st : State SleepLog.Sleep) dt,
        SleepLog.reachable st ->
        pendingCommits (SleepLog.handleClickOutside true st) = []
        /\ editingId (SleepLog.handleClickOutside true st) = None
        /\ requests (advance dt (SleepLog.handleClickOutside true st))
           = requests st).
Proof.
  split; [| split].
  - intros st table cards e feeding He Hf.
    cbn [FeedingLog.step]. unfold FeedingLog.handleClickOutside.
    rewrite He, (querySelector_trigger _ _ table cards feeding Hf), Hf.
    split; reflexivity.
  - vm_compute. reflexivity.
  - intros st dt Hr. apply SleepLogFacts.sleep_reachable_invariant in Hr.
    destruct (SleepLogFacts.handleClickOutside_cancels st Hr)
      as (Hp & _ & He & Hq & _).
    split; [exact Hp |]. split; [exact He |].
    destruct (advance_idle dt _ Hp) as (_ & Hq' & _). now rewrite Hq', Hq.
Qed.

(** *** The highlight *)

(** C8, as stated, fails: the duration of row 7 is saved at 100 ms and
    again at 700 ms; the timer of the first mark fires at 1100 ms and
    clears the second mark 400 ms after it was made. *)
Lemma earlier_timer_clears_later_mark : ~ Stated.mark_lasts_its_window.
Proof.
  intros H.
  assert (Hafter :
    highlightedField
      (advance 400 (settle FeedingLog.updateMutation 1 true
                      (FeedingLog.run secondEdit feedingTable)))
    = None) by (vm_compute; reflexivity).
  rewrite (H _ 1%nat
             {| mutationId := 1;
                variables := {| upd_id := 7; upd_field := "duration";
                                upd_value := Str "50" |} |}) in Hafter.
  - discriminate Hafter.
  - exists 0, [feeding7; feeding8], secondEdit. reflexivity.
  - vm_compute. reflexivity.
  - vm_compute. reflexivity.
  - lia.
Qed.

(** C8, amended. In either table, when the latest update call succeeds
    the single [highlightedField] of the table is set to its record and
    field, and a timer is set to clear the field 1000 ms later. From
    then on the field is empty once 1000 ms have passed; until then the
    mark stays as long as no clear timer of an earlier mark comes due;
    when one does, it clears the later mark before its own 1000 ms are
    over: the expiry of the earlier mark is not replaced. *)
Theorem highlight_mark_window :
  (forall (st : State FeedingLog.Feeding) m mu,
      find (fun x => Nat.eqb (mutationId x) m) (inFlight st) = Some mu ->
      currentMutation st = Some m ->
      highlightedField (settle FeedingLog.updateMutation m true st)
      = Some (upd_id (variables mu), upd_field (variables mu))
      /\ timers (settle FeedingLog.updateMutation m true st)
         = timers st ++ [{| handle := nextHandle st; due := now st + 1000;
                            action := ClearHighlight |}]
      /\ (forall dt, 1000 <= dt ->
          highlightedField (advance dt (settle FeedingLog.updateMutation m true st))
          = None)
      /\ (forall dt, 0 <= dt < 1000 ->
          (forall t, In t (timers st) -> isClear t = true -> now st + dt < due t) ->
          highlightedField (advance dt (settle FeedingLog.updateMutation m true st))
          = Some (upd_id (variables mu), upd_field (variables mu)))
      /\ (forall t dt, In t (timers st) -> isClear t = true ->
          0 <= dt -> due t <= now st + dt ->
          highlightedField (advance dt (settle FeedingLog.updateMutation m true st))
          = None))
  /\ (forall (st : State SleepLog.Sleep) m mu,
        find (fun x => Nat.eqb (mutationId x) m) (inFlight st) = Some mu ->
        currentMutation st = Some m ->
        highlightedField (settle SleepLog.updateMutation m true st)
        = Some (upd_id (variables mu), upd_field (variables mu))
        /\ timers (settle SleepLog.updateMutation m true st)
           = timers st ++ [{| handle := nextHandle st; due := now st + 1000;
                              action := ClearHighlight |}]
        /\ (forall dt, 1000 <= dt ->
            highlightedField (advance dt (settle SleepLog.updateMutation m true st))
            = None)
        /\ (forall dt, 0 <= dt < 1000 ->
            (forall t, In t (timers st) -> isClear t = true -> now st + dt < due t) ->
            highlightedField (advance dt (settle SleepLog.updateMutation m true st))
            = Some (upd_id (variables mu), upd_field (variables mu)))
        /\ (forall t dt, In t (timers st) -> isClear t = true ->
            0 <= dt -> due t <= now st + dt ->
            highlightedField (advance dt (settle SleepLog.updateMutation m true st))
            = None)).
Proof.
  split; intros st m mu Hf Hc.
  - destruct (settle_success_marks_feeding st m mu Hf Hc) as (Hh & Ht & Hn & _).
    destruct (mark_window st _ _ Hh Ht Hn) as (H1 & H2 & H3).
    exact (conj Hh (conj Ht (conj H1 (conj H2 H3)))).
  - destruct (settle_success_marks_sleep st m mu Hf Hc) as (Hh & Ht & Hn & _).
    destruct (mark_window st _ _ Hh Ht Hn) as (H1 & H2 & H3).
    exact (conj Hh (conj Ht (conj H1 (conj H2 H3)))).
Qed.

Lemma highlight_mark_window_witness :
  highlightedField (FeedingLog.run (firstSave ++ [FeedingLog.Tick 999]) feedingTable)
  = Some (7, "duration")
  /\ highlightedField (FeedingLog.run (firstSave ++ [FeedingLog.Tick 1000]) feedingTable)
     = None.
Proof.
  destruct highlight_mark_window as (H & _).
  destruct (H (FeedingLog.run
                 [ FeedingLog.Activate feeding7;
                   FeedingLog.KeyDown "Enter" "45" feeding7 "duration";
                   FeedingLog.Tick 100 ] feedingTable)
              0%nat
              {| mutationId := 0;
                 variables := {| upd_id := 7; upd_field := "duration";
                                 upd_value := Str "45" |} |})
    as (_ & _ & Hgone & Hstays & _).
  - vm_compute. reflexivity.
  - vm_compute. reflexivity.
  - split.
    + apply (Hstays 999); [lia |].
      assert (Hnone : timers (FeedingLog.run
                                [ FeedingLog.Activate feeding7;
                                  FeedingLog.KeyDown "Enter" "45" feeding7 "duration";
                                  FeedingLog.Tick 100 ] feedingTable) = [])
        by (vm_compute; reflexivity).
      intros t Hin. rewrite Hnone in Hin. contradiction.
    + apply (Hgone 1000). lia.
Defined.

(** The first save of the duration of row 7, at 100 ms: the mark is
    there 999 ms later and gone after 1000 ms. *)
Example highlight_mark_window_run :
  highlightedField (FeedingLog.run firstSave feedingTable) = Some (7, "duration")
  /\ highlightedField
       (FeedingLog.run (firstSave ++ [FeedingLog.Tick 999]) feedingTable)
     = Some (7, "duration")
  /\ highlightedField
       (FeedingLog.run (firstSave ++ [FeedingLog.Tick 1000]) feedingTable)
     = None.
Proof. vm_compute. repeat split. Qed.

(** *** Coercion of the committed value *)

(** C9 fails on the code for the duration. The [onBlur] of the duration
    input parses the text as an integer, but Enter, a Tab that leaves a
    changed field and the press outside pass what [handleKeyDown] and
    [handleClickOutside] compute, which parses the amount only: the
    duration is sent as the text typed. The amount is parsed as a real,
    or is null for an empty input, and the notes pass as text, on every
    path. *)
Theorem key_paths_send_duration_as_text :
  (forall (st : State FeedingLog.Feeding) feeding value,
      requests (FeedingLog.handleKeyDown "Enter" value feeding "duration" st)
      = requests st
        ++ [(now st, {| upd_id := FeedingLog.id feeding; upd_field := "duration";
                         upd_value := Str value |})]
      /\ requests (FeedingLog.input_onBlur feeding "duration" value st)
         = requests st
           ++ [(now st, {| upd_id := FeedingLog.id feeding; upd_field := "duration";
                            upd_value := Num (parseInt value) |})]
      /\ Str value <> Num (parseInt value))
  /\ (forall (st : State FeedingLog.Feeding) feeding value,
        FeedingLog.fieldText feeding "duration" <> Some value ->
        requests (FeedingLog.handleKeyDown "Tab" value feeding "duration" st)
        = requests st
          ++ [(now st, {| upd_id := FeedingLog.id feeding; upd_field := "duration";
                           upd_value := Str value |})])
  /\ (forall value,
        FeedingLog.keyedValue "duration" value = Str value
        /\ FeedingLog.keyedValue "notes" value = Str value
        /\ FeedingLog.keyedValue "feedingType" value = Str value
        /\ FeedingLog.keyedValue "amount" value
           = (if String.eqb value "" then Null else Num (parseFloat value)))
  /\ (forall (st : State FeedingLog.Feeding) feeding value,
        requests (FeedingLog.input_onBlur feeding "amount" value st)
        = requests st
          ++ [(now st, {| upd_id := FeedingLog.id feeding; upd_field := "amount";
                           upd_value := FeedingLog.keyedValue "amount" value |})]
        /\ requests (FeedingLog.input_onBlur feeding "notes" value st)
           = requests st
             ++ [(now st, {| upd_id := FeedingLog.id feeding; upd_field := "notes";
                              upd_value := FeedingLog.keyedValue "notes" value |})])
  /\ requests
       (FeedingLog.run
          [ FeedingLog.Activate feeding7;
            FeedingLog.KeyDown "Enter" "45" feeding7 "duration" ] feedingTable)
     = [(0, {| upd_id := 7; upd_field := "duration"; upd_value := Str "45" |})]
  /\ requests
       (FeedingLog.run
          [ FeedingLog.Activate feeding7;
            FeedingLog.Blur feeding7 "duration" "45" ] feedingTable)
     = [(0, {| upd_id := 7; upd_field := "duration"; upd_value := Num (Dec 45 0) |})].
Proof.
  split; [| split; [| split; [| split; [| split]]]].
  - intros st feeding value. split; [reflexivity |]. split; [reflexivity | discriminate].
  - intros st feeding value Hne.
    unfold FeedingLog.handleKeyDown. cbn [String.eqb Ascii.eqb Bool.eqb].
    destruct (FeedingLog.fieldText feeding "duration") as [shown|] eqn:Hs.
    + destruct (String.eqb_spec value shown) as [-> | _]; [congruence | reflexivity].
    + reflexivity.
  - intros value. repeat split.
  - intros st feeding value. split; reflexivity.
  - vm_compute. reflexivity.
  - vm_compute. reflexivity.
Qed.

End EditController.


(** ** The sleep form: presets and texts *)

Module SleepPresetsFacts.
Import Js JsText JsDate SleepForm SleepPresets SleepFormFacts.

Lemma range_In (n : nat) (z : Z) : 0 <= z < Z.of_nat n -> In z (range n).
Proof.
  intros H. unfold range. apply in_map_iff. exists (Z.to_nat z). split.
  - apply Z2Nat.id. lia.
  - apply in_seq. lia.
Qed.

(** Every clock of the day, written as text, reads back as itself. *)
Lemma readsBack_table :
  forallb (fun h => forallb (fun m => readsBack h m) (range 60)) (range 24) = true.
Proof. vm_compute. reflexivity. Qed.

Lemma clockOfString_clockText (c : Clock) :
  valid_clock c -> clockOfString (clockText c) = Some c.
Proof.
  intros [Hh Hm]. destruct c as [h m]. cbn [hours minutes] in *.
  pose proof readsBack_table as T.
  rewrite forallb_forall in T. specialize (T h (range_In 24 h ltac:(lia))).
  rewrite forallb_forall in T. specialize (T m (range_In 60 m ltac:(lia))).
  unfold readsBack in T.
  destruct (clockOfString (clockText {| hours := h; minutes := m |}))
    as [[h' m']|]; [| discriminate].
  apply andb_true_iff in T. destruct T as [T1 T2].
  apply Z.eqb_eq in T1, T2. simpl in T1, T2. now subst.
Qed.

(** The hour and the minute of a date whose local time lies [M] minutes
    and [s] milliseconds, less than a minute, after a midnight. *)
Lemma clock_of_minutes (z : Zone) (d : Date) (D M s : Z) :
  LocalTime z d = D * MS_PER_DAY + M * MS_PER_MINUTE + s ->
  0 <= s < MS_PER_MINUTE ->
  getHours z d = (M mod 1440) / 60
  /\ getMinutes z d = (M mod 1440) mod 60.
Proof.
  unfold getHours, getMinutes. intros ->.
  unfold MS_PER_DAY, MS_PER_HOUR, MS_PER_MINUTE.
  intros Hs.
  pose proof (Z.div_mod M 1440 ltac:(lia)) as E1.
  pose proof (Z.mod_pos_bound M 1440 ltac:(lia)) as B1.
  set (r := M mod 1440) in *. set (q := M / 1440) in *.
  pose proof (Z.div_mod r 60 ltac:(lia)) as E2.
  pose proof (Z.mod_pos_bound r 60 ltac:(lia)) as B2.
  set (b := r mod 60) in *. set (a := r / 60) in *.
  assert (Hday : (D * 86400000 + M * 60000 + s) mod 86400000 = r * 60000 + s).
  { symmetry. apply Z.mod_unique with (q := D + q); lia. }
  assert (Hhour : (D * 86400000 + M * 60000 + s) mod 3600000 = b * 60000 + s).
  { symmetry. apply Z.mod_unique with (q := 24 * D + 24 * q + a); lia. }
  rewrite Hday, Hhour. split.
  - symmetry. apply Z.div_unique with (r := b * 60000 + s); lia.
  - symmetry. apply Z.div_unique with (r := s); lia.
Qed.

Lemma clockOfDate_valid (z : Zone) (d : Date) : valid_clock (clockOfDate z d).
Proof.
  unfold valid_clock, clockOfDate, getHours, getMinutes,
    MS_PER_DAY, MS_PER_HOUR, MS_PER_MINUTE. simpl.
  pose proof (Z.mod_pos_bound (LocalTime z d) 86400000 ltac:(lia)).
  pose proof (Z.mod_pos_bound (LocalTime z d) 3600000 ltac:(lia)).
  split; split.
  - apply Z.div_pos; lia.
  - assert (LocalTime z d mod 86400000 / 3600000 < 24)
      by (apply Z.div_lt_upper_bound; lia). lia.
  - apply Z.div_pos; lia.
  - assert (LocalTime z d mod 3600000 / 60000 < 60)
      by (apply Z.div_lt_upper_bound; lia). lia.
Qed.

Lemma clockMinutes_clockOfDate (z : Zone) (d : Date) :
  clockMinutes (clockOfDate z d) = (LocalTime z d / MS_PER_MINUTE) mod 1440.
Proof.
  set (l := LocalTime z d).
  pose proof (Z.div_mod l MS_PER_MINUTE ltac:(unfold MS_PER_MINUTE; lia)) as E.
  pose proof (Z.mod_pos_bound l MS_PER_MINUTE ltac:(unfold MS_PER_MINUTE; lia)) as B.
  destruct (clock_of_minutes z d 0 (l / MS_PER_MINUTE) (l mod MS_PER_MINUTE))
    as [Hh Hm]; [fold l; lia | exact B |].
  unfold clockMinutes, clockOfDate. cbn [hours minutes]. rewrite Hh, Hm.
  pose proof (Z.div_mod ((l / MS_PER_MINUTE) mod 1440) 60 ltac:(lia)). lia.
Qed.

(** The text [format] makes of a date reads back as its clock. *)
Lemma clockOfString_format (z : Zone) (d : Date) :
  clockOfString (format_HHmm z d) = Some (clockOfDate z d).
Proof. apply clockOfString_clockText, clockOfDate_valid. Qed.

(** The minute of the day, [K] minutes after the midnight of [x]. *)
Lemma minutes_of_day (x K sec : Z) :
  0 <= sec < MS_PER_MINUTE ->
  ((startOfDay x + K * MS_PER_MINUTE + sec) / MS_PER_MINUTE) mod 1440
  = K mod 1440.
Proof.
  unfold startOfDay, MS_PER_DAY, MS_PER_MINUTE. intros Hs.
  set (q := x / 86400000).
  replace ((q * 86400000 + K * 60000 + sec) / 60000) with (K + q * 1440).
  - apply Z.mod_add. lia.
  - apply Z.div_unique with (r := sec); lia.
Qed.

(** *** Presets *)

(** From a start clock, the end clock that lies [L] minutes later on the
    dial is read as [L] minutes of sleep, up to whole days. *)
Lemma dial_distance (S L : Z) :
  0 <= S < 1440 ->
  (if (S + L) mod 1440 <? S
   then 1440 - S + (S + L) mod 1440
   else (S + L) mod 1440 - S)
  = L mod 1440.
Proof.
  intros HS.
  pose proof (Z.div_mod (S + L) 1440 ltac:(lia)) as E.
  pose proof (Z.mod_pos_bound (S + L) 1440 ltac:(lia)) as B.
  set (c := (S + L) mod 1440) in *. set (q := (S + L) / 1440) in *.
  destruct (c <? S) eqn:Hc.
  - apply Z.ltb_lt in Hc. apply Z.mod_unique with (q := q - 1); lia.
  - apply Z.ltb_ge in Hc. apply Z.mod_unique with (q := q); lia.
Qed.

(** A preset of at most a day, added to a start clock of the day while
    the offset of the zone stays the same: the date it reaches. *)
Lemma addPreset_steady
    (z : Zone) (c : Z) (today : Date) (start : string) (s : Clock)
    (p : PresetDuration) :
  steady z c today ->
  clockOfString start = Some s -> valid_clock s ->
  0 <= preset_hours p -> 0 <= preset_minutes p -> presetLength p <= 1440 ->
  exists endDate,
    addPreset (setClock z start (Some today)) p = Some endDate
    /\ valid_clock (clockOfDate z endDate)
    /\ clockMinutes (clockOfDate z endDate)
       = (clockMinutes s + presetLength p) mod 1440.
Proof.
  intros Hz Hs Hv Hh Hm Hl.
  pose proof (clockMinutes_bounds s Hv) as HS.
  pose proof (startOfDay_bounds (today + c)) as Hd.
  pose proof (secondsAndMs_bounds (today + c)) as Hsec.
  unfold setClock. rewrite Hs.
  rewrite (setHours_steady z c today today s Hz) by (unfold MS_PER_DAY; lia || exact Hv).
  set (d0 := startOfDay (today + c) + clockMinutes s * MS_PER_MINUTE
             + secondsAndMs (today + c) - c).
  unfold presetLength in *.
  assert (H0 : today - MS_PER_DAY < d0 < today + MS_PER_DAY)
    by (subst d0; unfold MS_PER_DAY, MS_PER_MINUTE in *; lia).
  unfold addPreset, addHours, addMinutes.
  rewrite (steady_timeClip z c today _ Hz)
    by (unfold MS_PER_DAY, MS_PER_HOUR, MS_PER_MINUTE in *; lia).
  rewrite (steady_timeClip z c today _ Hz)
    by (unfold MS_PER_DAY, MS_PER_HOUR, MS_PER_MINUTE in *; lia).
  eexists. split; [reflexivity |]. split; [apply clockOfDate_valid |].
  rewrite clockMinutes_clockOfDate.
  rewrite (steady_LocalTime z c today _ Hz)
    by (unfold MS_PER_DAY, MS_PER_HOUR, MS_PER_MINUTE in *; lia).
  replace (d0 + preset_hours p * MS_PER_HOUR + preset_minutes p * MS_PER_MINUTE + c)
    with (startOfDay (today + c)
          + (clockMinutes s + (preset_hours p * 60 + preset_minutes p))
            * MS_PER_MINUTE
          + secondsAndMs (today + c))
    by (subst d0; unfold MS_PER_HOUR, MS_PER_MINUTE; lia).
  apply minutes_of_day. exact Hsec.
Qed.

Lemma applyPreset_steady
    (z : Zone) (c : Z) (today : Date) (start : string) (s : Clock)
    (p : PresetDuration) :
  steady z c today ->
  clockOfString start = Some s -> valid_clock s ->
  0 <= preset_hours p -> 0 <= preset_minutes p -> presetLength p <= 1440 ->
  exists e,
    applyPreset z today start p = Some (clockText e)
    /\ valid_clock e
    /\ clockMinutes e = (clockMinutes s + presetLength p) mod 1440.
Proof.
  intros Hz Hs Hv Hh Hm Hl.
  destruct (addPreset_steady z c today start s p Hz Hs Hv Hh Hm Hl)
    as (endDate & Ha & He & Hmin).
  exists (clockOfDate z endDate). unfold applyPreset. rewrite Ha.
  split; [reflexivity |]. split; assumption.
Qed.

Lemma offered_presets (t : SleepType) (p : PresetDuration) :
  In p (presetsFor t) ->
  0 <= preset_hours p /\ 0 <= preset_minutes p
  /\ 0 <= presetLength p < 1440
  /\ classify (presetLength p) t = WithinRecommended.
Proof.
  destruct t; unfold presetsFor, napPresets, nightPresets; cbn [In]; intros H;
    repeat (destruct H as [<- | H];
            [unfold presetLength; cbn [preset_hours preset_minutes];
             repeat split; lia |]);
    contradiction.
Qed.

(** The preview after a press on a preset. *)
Lemma pressPreset_steady
    (z : Zone) (c c' : Z) (today now1 now2 : Date) (form : FormValues)
    (s : Clock) (p : PresetDuration) :
  steady z c today -> steady z c' now1 ->
  same_minute (now1 + c') (now2 + c') ->
  clockOfString (startTime form) = Some s -> valid_clock s ->
  0 <= preset_hours p -> 0 <= preset_minutes p -> presetLength p <= 1440 ->
  exists e,
    pressPreset z today p form = setEndTime (clockText e) form
    /\ valid_clock e
    /\ clockMinutes e = (clockMinutes s + presetLength p) mod 1440
    /\ calculateDuration_minutes z now1 now2 (pressPreset z today p form)
       = Some (presetLength p mod 1440).
Proof.
  intros Hz Hz' Hsame Hs Hv Hh Hm Hl.
  destruct (applyPreset_steady z c today (startTime form) s p Hz Hs Hv Hh Hm Hl)
    as (e & Ha & He & Hmin).
  exists e. unfold pressPreset. rewrite Ha.
  split; [reflexivity |]. split; [exact He |]. split; [exact Hmin |].
  rewrite (calculateDuration_minutes_cases z c' now1 now2 _ s e Hz' Hsame);
    [| exact Hs | cbn [setEndTime endTime]; now apply clockOfString_clockText
     | exact Hv | exact He].
  rewrite Hmin. f_equal. apply dial_distance. now apply clockMinutes_bounds.
Qed.

(** X2. A preset and the duration shown after it. Take a zone in which,
    for two days around the instant of the press and around the instant
    the preview is computed, local time keeps one offset from UTC and
    stays within the range of Date values, the two readings of the
    clock in the preview falling in the same minute; a start field that
    holds a clock of the day; and a preset of no more than a day with
    no negative part. Then pressing the preset writes the text of
    a clock of the day into the end field, the clock that lies the
    length of the preset after the start on the dial; it leaves the
    start and the sleep type alone, and the preview shows the length of
    the preset, counted within one day (a preset of a whole day shows
    as 0). Across a change of the clocks the text written is not that
    clock: in New York on 9 March 2024, from 22:00 the 8h preset writes
    07:00. *)
Theorem preset_sets_duration :
  (forall (z : Zone) (c c' : Z) (today now1 now2 : Date) (form : FormValues)
          (s : Clock) (p : PresetDuration),
      steady z c today -> steady z c' now1 ->
      same_minute (now1 + c') (now2 + c') ->
      clockOfString (startTime form) = Some s -> valid_clock s ->
      0 <= preset_hours p -> 0 <= preset_minutes p -> presetLength p <= 1440 ->
      exists e,
        pressPreset z today p form = setEndTime (clockText e) form
        /\ startTime (pressPreset z today p form) = startTime form
        /\ sleepType (pressPreset z today p form) = sleepType form
        /\ valid_clock e
        /\ clockMinutes e = (clockMinutes s + presetLength p) mod 1440
        /\ calculateDuration_minutes z now1 now2 (pressPreset z today p form)
           = Some (presetLength p mod 1440))
  /\ applyPreset Scenarios.newYork 1710003600000 "22:00"
       {| label := "8h"; preset_hours := 8; preset_minutes := 0;
          tooltip := Some "Minimum recommended sleep" |}
     = Some "07:00".
Proof.
  split; [| vm_compute; reflexivity].
  intros z c c' today now1 now2 form s p Hz Hz' Hsame Hs Hv Hh Hm Hl.
  destruct (pressPreset_steady z c c' today now1 now2 form s p
              Hz Hz' Hsame Hs Hv Hh Hm Hl) as (e & H1 & H2 & H3 & H4).
  exists e. rewrite H1 at 1 2 3.
  exact (conj eq_refl (conj eq_refl (conj eq_refl (conj H2 (conj H3 H4))))).
Qed.

Lemma preset_sets_duration_witness :
  calculateDuration_minutes Scenarios.newYork 1720000000000 1720000000000
    (pressPreset Scenarios.newYork 1720000000000
       {| label := "10h"; preset_hours := 10; preset_minutes := 0;
          tooltip := None |}
       Scenarios.form_22_06)
  = Some 600.
Proof.
  destruct preset_sets_duration as (H & _).
  destruct (H Scenarios.newYork (-14400000) (-14400000)
              1720000000000 1720000000000 1720000000000
              Scenarios.form_22_06 {| hours := 22; minutes := 0 |}
              {| label := "10h"; preset_hours := 10; preset_minutes := 0;
                 tooltip := None |})
    as (e & _ & _ & _ & _ & _ & H2).
  - apply steady_newYork_summer. lia.
  - apply steady_newYork_summer. lia.
  - split; [lia | reflexivity].
  - vm_compute. reflexivity.
  - unfold valid_clock. simpl. lia.
  - simpl. lia.
  - simpl. lia.
  - unfold presetLength. simpl. lia.
  - rewrite H2. reflexivity.
Defined.

(** X3. The presets on offer. Take a zone in which, for two days around
    the instant of the press and around the instant the preview is
    computed, local time keeps one offset from UTC and stays within the
    range of Date values, the two readings of the clock in the preview
    falling in the same minute, and a start field that holds a clock of
    the day. Then every preset the form offers for the chosen
    sleep type makes the preview show exactly the length of the preset,
    in the class of a recommended duration. Across a change of the
    clocks it need not: in New York on 3 November 2024, from 00:30 the
    1.5h preset writes 01:00 and the preview shows 30 minutes. *)
Theorem offered_preset_is_recommended :
  (forall (z : Zone) (c c' : Z) (today now1 now2 : Date) (form : FormValues)
          (s : Clock) (p : PresetDuration),
      In p (presetsFor (sleepType form)) ->
      steady z c today -> steady z c' now1 ->
      same_minute (now1 + c') (now2 + c') ->
      clockOfString (startTime form) = Some s -> valid_clock s ->
      calculateDuration_minutes z now1 now2 (pressPreset z today p form)
      = Some (presetLength p)
      /\ class (calculateDuration z now1 now2 (pressPreset z today p form))
         = "text-green-500")
  /\ (let p := {| label := "1.5h"; preset_hours := 1; preset_minutes := 30;
                  tooltip := Some "Full sleep cycle" |} in
      let form := {| date := Some 1730606400000; startTime := "00:30";
                     endTime := "00:45"; sleepType := nap; notes := "" |} in
      In p (presetsFor (sleepType form))
      /\ endTime (pressPreset Scenarios.newYork 1730606400000 p form) = "01:00"
      /\ calculateDuration_minutes Scenarios.newYork 1730606400000 1730606400000
           (pressPreset Scenarios.newYork 1730606400000 p form)
         = Some 30).
Proof.
  split.
  - intros z c c' today now1 now2 form s p Hin Hz Hz' Hsame Hs Hv.
    destruct (offered_presets _ _ Hin) as (Hh & Hm & Hlen & Hclass).
    destruct (pressPreset_steady z c c' today now1 now2 form s p
                Hz Hz' Hsame Hs Hv Hh Hm ltac:(lia)) as (e & H1 & _ & _ & H4).
    rewrite Z.mod_small in H4 by exact Hlen.
    split; [exact H4 |].
    rewrite (calculateDuration_class _ _ _ _ _ H4).
    replace (sleepType (pressPreset z today p form)) with (sleepType form)
      by (rewrite H1; reflexivity).
    rewrite Hclass. reflexivity.
  - cbv zeta. split; [cbn; tauto |]. split; vm_compute; reflexivity.
Qed.

Lemma offered_preset_is_recommended_witness :
  calculateDuration_minutes Scenarios.newYork 1720000000000 1720000000000
    (pressPreset Scenarios.newYork 1720000000000
       {| label := "12h"; preset_hours := 12; preset_minutes := 0;
          tooltip := Some "Maximum recommended sleep" |}
       Scenarios.form_22_06)
  = Some 720.
Proof.
  destruct offered_preset_is_recommended as (H & _).
  destruct (H Scenarios.newYork (-14400000) (-14400000)
              1720000000000 1720000000000 1720000000000
              Scenarios.form_22_06 {| hours := 22; minutes := 0 |}
              {| label := "12h"; preset_hours := 12; preset_minutes := 0;
                 tooltip := Some "Maximum recommended sleep" |})
    as (H2 & _).
  - simpl. right. right. left. reflexivity.
  - apply steady_newYork_summer. lia.
  - apply steady_newYork_summer. lia.
  - split; [lia | reflexivity].
  - vm_compute. reflexivity.
  - unfold valid_clock. simpl. lia.
  - rewrite H2. reflexivity.
Defined.

(** The quick picks are the texts the nap presets would set. *)
Lemma getRecommendedEndTimes_applyPreset (z : Zone) (today : Date) (start : string) :
  getRecommendedEndTimes z today start
  = allOf (map (applyPreset z today start) napPresets).
Proof.
  reflexivity.
Qed.

(** X4. The quick picks of a nap. Take a zone in which, for two days
    around the instant the form is rendered, local time keeps one
    offset from UTC and stays within the range of Date values, and a
    start field that holds a clock of the day. Then there is one end
    time for each nap preset, in the order of the presets, each the
    text the preset itself would set; they read back as the clocks 30,
    60, 90 and 120 minutes after the start on the dial, so the four are
    different from each other, also when they run past midnight. When
    the clocks are set back they are not: in New York on 3 November
    2024, from 00:30 the picks are 01:00, 01:30, 01:00 and 01:30. *)
Theorem recommended_end_times_distinct :
  (forall (z : Zone) (c : Z) (today : Date) (start : string) (s : Clock),
      steady z c today -> clockOfString start = Some s -> valid_clock s ->
      exists picks,
        getRecommendedEndTimes z today start = Some picks
        /\ map Some picks = map (applyPreset z today start) napPresets
        /\ List.length picks = 4%nat
        /\ map (fun t => option_map clockMinutes (clockOfString t)) picks
           = map (fun T => Some ((clockMinutes s + T) mod 1440)) [30; 60; 90; 120]
        /\ NoDup picks)
  /\ getRecommendedEndTimes Scenarios.newYork 1730606400000 "00:30"
     = Some ["01:00"; "01:30"; "01:00"; "01:30"].
Proof.
  split; [| vm_compute; reflexivity].
  intros z c today start s Hz Hs Hv.
  assert (Hp : forall p, In p napPresets ->
             exists e, applyPreset z today start p = Some (clockText e)
                       /\ valid_clock e
                       /\ clockMinutes e
                          = (clockMinutes s + presetLength p) mod 1440).
  { intros p Hin.
    destruct (offered_presets nap p Hin) as (Hh & Hm & Hlen & _).
    apply (applyPreset_steady z c); auto; lia. }
  rewrite getRecommendedEndTimes_applyPreset.
  unfold napPresets in *. cbn [map].
  repeat match goal with
         | |- context [applyPreset z today start ?p] =>
             let e := fresh "e" in
             let Ha := fresh "Ha" in
             let He := fresh "He" in
             let Hm := fresh "Hm" in
             destruct (Hp p) as (e & Ha & He & Hm); [cbn [In]; tauto |];
             unfold presetLength in Hm; cbn [preset_hours preset_minutes] in Hm;
             rewrite Ha
         end.
  cbn [allOf]. eexists. split; [reflexivity |].
  split; [reflexivity |]. split; [reflexivity |].
  assert (Hclocks :
    map (fun t => option_map clockMinutes (clockOfString t))
        [clockText e; clockText e0; clockText e1; clockText e2]
    = map (fun T => Some ((clockMinutes s + T) mod 1440)) [30; 60; 90; 120]).
  { cbn [map]. rewrite !clockOfString_clockText by assumption.
    cbn [option_map]. rewrite Hm, Hm0, Hm1, Hm2. reflexivity. }
  split; [exact Hclocks |].
  apply (NoDup_map_inv (fun t => option_map clockMinutes (clockOfString t))).
  rewrite Hclocks. cbn [map].
  set (S := clockMinutes s).
  assert (Hne : forall a b, 0 < b - a < 1440 ->
                  Some ((S + a) mod 1440) <> Some ((S + b) mod 1440)).
  { intros a b Hab E. injection E as E.
    pose proof (Z.div_mod (S + a) 1440 ltac:(lia)).
    pose proof (Z.div_mod (S + b) 1440 ltac:(lia)).
    rewrite E in *. lia. }
  repeat constructor; simpl; intros H;
    repeat (destruct H as [H | H]; [symmetry in H; revert H; apply Hne; lia |]);
    contradiction.
Qed.

Lemma recommended_end_times_distinct_witness :
  exists picks,
    getRecommendedEndTimes Scenarios.newYork 1720000000000 "23:15" = Some picks
    /\ NoDup picks.
Proof.
  destruct recommended_end_times_distinct as (H & _).
  destruct (H Scenarios.newYork (-14400000) 1720000000000 "23:15"
              {| hours := 23; minutes := 15 |})
    as (picks & H1 & _ & _ & _ & H5).
  - apply steady_newYork_summer. lia.
  - vm_compute. reflexivity.
  - unfold valid_clock. simpl. lia.
  - exists picks. exact (conj H1 H5).
Defined.

(** *** Duration texts *)

(** X5. The hours and minutes of a duration text. For a duration that is
    not negative they add up to it, the minutes below 60. For a negative
    one (a stored record that ends before it starts) the hours are
    rounded down while the minutes keep the sign of the duration, so
    unless it is a whole number of hours the two parts add up to an hour
    less than the duration: an end 90 minutes before the start is shown
    as -2h -30m. The preview of the form writes its minutes this way,
    and NaNh NaNm when it has no minutes to show. *)
Theorem duration_text_parts (d : Z) :
  (0 <= d ->
   fst (durationParts d) * 60 + snd (durationParts d) = d
   /\ 0 <= fst (durationParts d) /\ 0 <= snd (durationParts d) < 60)
  /\ (d < 0 -> Z.rem d 60 = 0 ->
      fst (durationParts d) * 60 + snd (durationParts d) = d)
  /\ (d < 0 -> Z.rem d 60 <> 0 ->
      fst (durationParts d) * 60 + snd (durationParts d) = d - 60
      /\ -60 < snd (durationParts d) < 0)
  /\ (forall z now1 now2 form,
        text (calculateDuration z now1 now2 form)
        = match calculateDuration_minutes z now1 now2 form with
          | Some m => durationText m
          | None => "NaNh NaNm"
          end)
  /\ durationText (-90) = "-2h -30m".
Proof.
  unfold durationParts. cbn [fst snd].
  pose proof (Z.div_mod d 60 ltac:(lia)) as Hdiv.
  pose proof (Z.mod_pos_bound d 60 ltac:(lia)) as Hmod.
  pose proof (Z.quot_rem' d 60) as Hquot.
  split; [| split; [| split; [| split]]].
  - intros Hd. pose proof (Z.rem_bound_pos d 60 Hd ltac:(lia)) as Hr. lia.
  - intros Hd Hr. lia.
  - intros Hd Hr.
    pose proof (Z.rem_bound_pos_neg d 60 ltac:(lia) ltac:(lia)) as Hb. lia.
  - intros z now1 now2 form. unfold calculateDuration. cbn [text].
    destruct (calculateDuration_minutes z now1 now2 form); reflexivity.
  - vm_compute. reflexivity.
Qed.

Lemma duration_text_parts_witness :
  fst (durationParts 480) * 60 + snd (durationParts 480) = 480
  /\ fst (durationParts (-90)) * 60 + snd (durationParts (-90)) = -90 - 60.
Proof.
  destruct (duration_text_parts 480) as (H1 & _).
  destruct (duration_text_parts (-90)) as (_ & _ & H3 & _).
  split.
  - apply H1. lia.
  - apply H3; [lia | vm_compute; discriminate].
Defined.

(** X6. The preview and the table agree. Take a form with a day
    selected whose two time fields hold clocks of the day, and a zone
    in which, for two days around the instant the preview is computed
    and around the date of the form, local time keeps one offset from
    UTC and stays within the range of Date values, the two readings of
    the clock in the preview falling in the same minute. Then the minutes the preview
    shows are the minutes the table will show for the record that the
    form creates; they are less than a full day, and 0 exactly when the
    two clocks are the same (equal clocks are no sleep at all, not 24
    hours). When the date of the form lies by a change of the clocks
    and today does not, the two differ: in New York, for the night of
    2 November 2024 from 22:00 to 06:00, the preview computed in July
    shows 480 minutes and the table 540. *)
Theorem preview_matches_created_row :
  (forall (z : Zone) (c c' : Z) (now1 now2 : Date) (form : FormValues)
          (d : Date) (s e : Clock) (newId : Z),
      steady z c now1 -> same_minute (now1 + c) (now2 + c) ->
      date form = Some d -> steady z c' d ->
      clockOfString (startTime form) = Some s ->
      clockOfString (endTime form) = Some e ->
      valid_clock s -> valid_clock e ->
      exists m log,
        calculateDuration_minutes z now1 now2 form = Some m
        /\ stored newId (createMutation_mutationFn z form) = Some log
        /\ rowDuration log = m
        /\ 0 <= m < 1440
        /\ (m = 0 <-> clockMinutes s = clockMinutes e))
  /\ (calculateDuration_minutes Scenarios.newYork 1720000000000 1720000000000
        Scenarios.form_clocks_set_back = Some 480
      /\ option_map rowDuration
           (stored 1 (createMutation_mutationFn Scenarios.newYork
                        Scenarios.form_clocks_set_back))
         = Some 540).
Proof.
  split; [| split; vm_compute; reflexivity].
  intros z c c' now1 now2 form d s e newId Hz Hsame Hd Hz' Hs He Hvs Hve.
  rewrite (calculateDuration_minutes_cases z c now1 now2 form s e
             Hz Hsame Hs He Hvs Hve).
  destruct (createMutation_endTime_cases z c' form d s e Hd Hz' Hs He Hvs Hve)
    as [Hst Hen].
  cbv zeta in Hst, Hen.
  unfold stored. rewrite Hst. do 2 eexists.
  split; [reflexivity |]. split; [reflexivity |].
  unfold rowDuration. cbn [sl_endTime sl_startTime]. rewrite Hen.
  apply clockMinutes_bounds in Hvs, Hve.
  unfold differenceInMinutes.
  set (S := clockMinutes s) in *. set (E := clockMinutes e) in *.
  set (day := startOfDay (d + c')).
  set (sec := secondsAndMs (d + c')).
  destruct (E <? S) eqn:H.
  - apply Z.ltb_lt in H. split; [| split; [lia | split; lia]].
    replace (day + E * MS_PER_MINUTE + sec - c' + MS_PER_DAY
             - (day + S * MS_PER_MINUTE + sec - c'))
      with ((1440 - S + E) * MS_PER_MINUTE + 0)
      by (unfold MS_PER_MINUTE, MS_PER_DAY; lia).
    apply quot_minutes; unfold MS_PER_MINUTE; lia.
  - apply Z.ltb_ge in H. split; [| split; [lia | split; lia]].
    replace (day + E * MS_PER_MINUTE + sec - c'
             - (day + S * MS_PER_MINUTE + sec - c'))
      with ((E - S) * MS_PER_MINUTE + 0) by lia.
    apply quot_minutes; unfold MS_PER_MINUTE; lia.
Qed.

Lemma preview_matches_created_row_witness :
  exists m log,
    calculateDuration_minutes Scenarios.newYork 1720000000000 1720000000000
      {| date := Some 1720000000000; startTime := "22:00"; endTime := "06:00";
         sleepType := night; notes := "" |} = Some m
    /\ stored 1 (createMutation_mutationFn Scenarios.newYork
                   {| date := Some 1720000000000; startTime := "22:00";
                      endTime := "06:00"; sleepType := night; notes := "" |})
       = Some log
    /\ rowDuration log = m.
Proof.
  destruct preview_matches_created_row as (H & _).
  destruct (H Scenarios.newYork (-14400000) (-14400000)
              1720000000000 1720000000000
              {| date := Some 1720000000000; startTime := "22:00"; endTime := "06:00";
                 sleepType := night; notes := "" |}
              1720000000000
              {| hours := 22; minutes := 0 |} {| hours := 6; minutes := 0 |} 1)
    as (m & log & H1 & H2 & H3 & _).
  - apply steady_newYork_summer. lia.
  - split; [lia | reflexivity].
  - reflexivity.
  - apply steady_newYork_summer. lia.
  - vm_compute. reflexivity.
  - vm_compute. reflexivity.
  - unfold valid_clock. simpl. lia.
  - unfold valid_clock. simpl. lia.
  - exists m, log. exact (conj H1 (conj H2 H3)).
Defined.

(** X7. The classes follow the duration. A longer duration is never put
    in a lower class; and the two recommended ranges do not meet: what is
    a recommended nap is too short for a night, and what is a recommended
    night is too long for a nap. *)
Theorem classify_monotone :
  (forall m1 m2 t, m1 <= m2 -> rank (classify m1 t) <= rank (classify m2 t))
  /\ (forall m, classify m nap = WithinRecommended ->
                classify m night = BelowRecommended)
  /\ (forall m, classify m night = WithinRecommended ->
                classify m nap = AboveRecommended).
Proof.
  split; [| split].
  - intros m1 m2 t Hle. unfold classify.
    destruct t; cbn [recommendedDurations min max];
      repeat match goal with
             | |- context [?a <? ?b] => destruct (Z.ltb_spec a b)
             | |- context [?a >? ?b] => rewrite (Z.gtb_ltb a b)
             end; simpl; lia.
  - intros m. unfold classify. cbn [recommendedDurations min max].
    rewrite !Z.gtb_ltb.
    repeat match goal with
           | |- context [?a <? ?b] => destruct (Z.ltb_spec a b)
           end; try discriminate; try reflexivity; lia.
  - intros m. unfold classify. cbn [recommendedDurations min max].
    rewrite !Z.gtb_ltb.
    repeat match goal with
           | |- context [?a <? ?b] => destruct (Z.ltb_spec a b)
           end; try discriminate; try reflexivity; lia.
Qed.

Lemma classify_monotone_witness :
  rank (classify 10 nap) <= rank (classify 200 nap)
  /\ classify 480 nap = AboveRecommended.
Proof.
  destruct classify_monotone as (H1 & _ & H3).
  split.
  - apply H1. lia.
  - apply H3. reflexivity.
Defined.

(** *** The form as it opens, and a record without an end *)

(** X8. The form as it opens. Take a zone in which, for two days around
    the instant the form opens and around the instant the preview is
    computed, local time keeps one offset from UTC and stays within the
    range of Date values, the two readings of the clock that fill the
    time fields falling in the same minute and so the two of the
    preview. Then the start time of the form is the minute it opens and
    its end time the minute eight hours later, for a night, and the
    preview shows 8h 0m in the class of a recommended duration. Before
    a change of the clocks it does not: in New York on 2 November 2024
    at 18:30 the form opens from 18:30 to 01:30 and the preview shows
    7h 0m. *)
Theorem default_form_shows_eight_hours :
  (forall (z : Zone) (c c' : Z) (now1 now2 now3 n1 n2 : Date),
      steady z c now2 -> same_minute (now2 + c) (now3 + c) ->
      steady z c' n1 -> same_minute (n1 + c') (n2 + c') ->
      exists form,
        defaultValues z now1 now2 now3 = Some form
        /\ startTime form = format_HHmm z now2
        /\ endTime form = format_HHmm z (addHours now3 8)
        /\ sleepType form = night
        /\ calculateDuration_minutes z n1 n2 form = Some 480
        /\ calculateDuration z n1 n2 form
           = {| text := "8h 0m"; class := "text-green-500" |})
  /\ (exists form,
        defaultValues Scenarios.newYork 1730586600000 1730586600000 1730586600000
        = Some form
        /\ startTime form = "18:30" /\ endTime form = "01:30"
        /\ calculateDuration Scenarios.newYork 1730586600000 1730586600000 form
           = {| text := "7h 0m"; class := "text-green-500" |}).
Proof.
  split; [| eexists; split; [vm_compute; reflexivity |];
            split; [reflexivity |]; split; [reflexivity |];
            vm_compute; reflexivity].
  intros z c c' now1 now2 now3 n1 n2 Hz Hsame Hz' Hsame'.
  destruct (same_minute_parts _ _ Hsame) as (_ & _ & Hnear).
  destruct Hsame as [_ Hmin].
  unfold defaultValues, addHours.
  rewrite (steady_timeClip z c now2 _ Hz)
    by (unfold MS_PER_DAY, MS_PER_HOUR, MS_PER_MINUTE in *; lia).
  eexists. split; [reflexivity |].
  cbn [startTime endTime sleepType].
  do 3 (split; [reflexivity |]).
  assert (Hd : calculateDuration_minutes z n1 n2
                 {| date := Some now1; startTime := format_HHmm z now2;
                    endTime := format_HHmm z (now3 + 8 * MS_PER_HOUR);
                    sleepType := night; notes := "" |} = Some 480).
  { rewrite (calculateDuration_minutes_cases z c' n1 n2 _
               (clockOfDate z now2) (clockOfDate z (now3 + 8 * MS_PER_HOUR))
               Hz' Hsame');
      [| apply clockOfString_format | apply clockOfString_format
       | apply clockOfDate_valid | apply clockOfDate_valid].
    rewrite !clockMinutes_clockOfDate.
    rewrite (steady_LocalTime z c now2 now2 Hz) by (unfold MS_PER_DAY; lia).
    rewrite (steady_LocalTime z c now2 _ Hz)
      by (unfold MS_PER_DAY, MS_PER_HOUR, MS_PER_MINUTE in *; lia).
    replace (now3 + 8 * MS_PER_HOUR + c) with (now3 + c + 480 * MS_PER_MINUTE)
      by (unfold MS_PER_HOUR, MS_PER_MINUTE; lia).
    rewrite Z.div_add by (unfold MS_PER_MINUTE; lia). rewrite <- Hmin.
    rewrite <- (Z.add_mod_idemp_l ((now2 + c) / MS_PER_MINUTE)) by lia.
    rewrite dial_distance by (apply Z.mod_pos_bound; lia). reflexivity. }
  split; [exact Hd |].
  unfold calculateDuration. rewrite Hd. reflexivity.
Qed.

Lemma default_form_shows_eight_hours_witness :
  exists form,
    defaultValues Scenarios.newYork 1720000000000 1720000000000 1720000000001
    = Some form
    /\ calculateDuration_minutes Scenarios.newYork 1720000000000 1720000000000
         form = Some 480.
Proof.
  destruct default_form_shows_eight_hours as (H & _).
  destruct (H Scenarios.newYork (-14400000) (-14400000)
              1720000000000 1720000000000 1720000000001
              1720000000000 1720000000000)
    as (form & H1 & _ & _ & _ & H2 & _).
  - apply steady_newYork_summer. lia.
  - split; [lia | reflexivity].
  - apply steady_newYork_summer. lia.
  - split; [lia | reflexivity].
  - exists form. exact (conj H1 H2).
Defined.

(** X9. A record without an end time. The table reads the missing end
    as the first instant of 1970, so the duration it shows for such a
    record is negative: minus the whole minutes from then to the start
    of the sleep. *)
Theorem open_record_duration (log : Sleep) :
  sl_endTime log = None -> 0 <= sl_startTime log ->
  rowDuration log = - (sl_startTime log / MS_PER_MINUTE)
  /\ rowDuration log <= 0
  /\ (MS_PER_MINUTE <= sl_startTime log -> rowDuration log < 0)
  /\ rowDurationText log = durationText (- (sl_startTime log / MS_PER_MINUTE)).
Proof.
  intros Hend Hstart.
  assert (H : rowDuration log = - (sl_startTime log / MS_PER_MINUTE)).
  { unfold rowDuration, differenceInMinutes. rewrite Hend.
    rewrite Z.sub_0_l, Z.quot_opp_l by (unfold MS_PER_MINUTE; lia).
    rewrite Z.quot_div_nonneg by (unfold MS_PER_MINUTE; lia). reflexivity. }
  split; [exact H |].
  pose proof (Z.div_pos (sl_startTime log) MS_PER_MINUTE Hstart
                ltac:(unfold MS_PER_MINUTE; lia)).
  split; [lia |]. split.
  - intros Hmin.
    assert (1 <= sl_startTime log / MS_PER_MINUTE)
      by (apply Z.div_le_lower_bound; unfold MS_PER_MINUTE in *; lia).
    lia.
  - unfold rowDurationText. rewrite H. reflexivity.
Qed.

Lemma open_record_duration_witness :
  rowDurationText
    {| id := 3; sl_startTime := 1732856967066; sl_endTime := None;
       sl_sleepType := nap; sl_notes := None |}
  = "-481350h -9m".
Proof.
  destruct (open_record_duration
              {| id := 3; sl_startTime := 1732856967066; sl_endTime := None;
                 sl_sleepType := nap; sl_notes := None |})
    as (_ & _ & _ & H).
  - reflexivity.
  - cbn [sl_startTime]. lia.
  - rewrite H. vm_compute. reflexivity.
Defined.


End SleepPresetsFacts.


(** ** Numbers as text *)

From Stdlib Require DecimalFacts DecimalPos DecimalZ.

Module JsFacts.
Import Js.

Lemma digitValue_digit (c : ascii) (d : Z) :
  In (c, d) [("0"%char, 0); ("1"%char, 1); ("2"%char, 2); ("3"%char, 3);
             ("4"%char, 4); ("5"%char, 5); ("6"%char, 6); ("7"%char, 7);
             ("8"%char, 8); ("9"%char, 9)] ->
  digitValue 10 c = Some d.
Proof.
  cbn [In]. intros H.
  repeat (destruct H as [H | H]; [injection H as <- <-; reflexivity |]).
  contradiction.
Qed.

(** Reading the digits of a decimal numeral with a carry. *)
Lemma readDigits_acc (u : Decimal.uint) (acc : positive) (count : Z) (rest : string) :
  readDigits 10 (Z.pos acc) count (NilEmpty.string_of_uint u ++ rest)
  = readDigits 10 (Z.pos (Pos.of_uint_acc u acc))
      (count + Z.of_nat (String.length (NilEmpty.string_of_uint u))) rest.
Proof.
  revert acc count.
  induction u as [ | u IH | u IH | u IH | u IH | u IH | u IH | u IH | u IH
                   | u IH | u IH ];
    intros acc count;
    cbn [NilEmpty.string_of_uint String.append String.length Pos.of_uint_acc];
    [ f_equal; lia | .. ];
    cbn [readDigits];
    match goal with
    | |- context [digitValue 10 ?c] =>
        let v := eval vm_compute in (digitValue 10 c) in
        change (digitValue 10 c) with v
    end;
    cbv beta iota;
    match goal with
    | |- readDigits 10 ?a _ _ = readDigits 10 (Z.pos (Pos.of_uint_acc u ?p)) _ _ =>
        replace a with (Z.pos p) by lia
    end;
    rewrite IH; f_equal; lia.
Qed.

(** Reading a whole decimal numeral from nothing. *)
Lemma readDigits_uint (u : Decimal.uint) (count : Z) (rest : string) :
  readDigits 10 0 count (NilEmpty.string_of_uint u ++ rest)
  = readDigits 10 (Z.of_N (Pos.of_uint u))
      (count + Z.of_nat (String.length (NilEmpty.string_of_uint u))) rest.
Proof.
  revert count.
  induction u as [ | u IH | u IH | u IH | u IH | u IH | u IH | u IH | u IH
                   | u IH | u IH ];
    intros count;
    cbn [NilEmpty.string_of_uint String.append String.length Pos.of_uint];
    [ f_equal; lia | .. ];
    cbn [readDigits];
    match goal with
    | |- context [digitValue 10 ?c] =>
        let v := eval vm_compute in (digitValue 10 c) in
        change (digitValue 10 c) with v
    end;
    cbv beta iota.
  - change (0 * 10 + 0) with 0. rewrite IH. f_equal. lia.
  - change (0 * 10 + 1) with (Z.pos 1). rewrite readDigits_acc. f_equal. lia.
  - change (0 * 10 + 2) with (Z.pos 2). rewrite readDigits_acc. f_equal. lia.
  - change (0 * 10 + 3) with (Z.pos 3). rewrite readDigits_acc. f_equal. lia.
  - change (0 * 10 + 4) with (Z.pos 4). rewrite readDigits_acc. f_equal. lia.
  - change (0 * 10 + 5) with (Z.pos 5). rewrite readDigits_acc. f_equal. lia.
  - change (0 * 10 + 6) with (Z.pos 6). rewrite readDigits_acc. f_equal. lia.
  - change (0 * 10 + 7) with (Z.pos 7). rewrite readDigits_acc. f_equal. lia.
  - change (0 * 10 + 8) with (Z.pos 8). rewrite readDigits_acc. f_equal. lia.
  - change (0 * 10 + 9) with (Z.pos 9). rewrite readDigits_acc. f_equal. lia.
Qed.

Lemma readDigits_zeros (n : nat) (acc count : Z) :
  readDigits 10 acc count (zeros n) = (acc * 10 ^ Z.of_nat n, count + Z.of_nat n, "").
Proof.
  revert acc count. induction n as [| n IH]; intros acc count.
  - cbn [zeros readDigits]. rewrite Z.pow_0_r, Z.mul_1_r, Z.add_0_r. reflexivity.
  - cbn [zeros String.append readDigits].
    change (digitValue 10 "0"%char) with (Some 0). cbv beta iota.
    rewrite IH, Nat2Z.inj_succ, Z.pow_succ_r by lia.
    replace ((acc * 10 + 0) * 10 ^ Z.of_nat n) with (acc * (10 * 10 ^ Z.of_nat n)) by lia.
    replace (count + 1 + Z.of_nat n) with (count + Z.succ (Z.of_nat n)) by lia.
    reflexivity.
Qed.

(** The digits of a positive number, followed by [n] zeros, read back. *)
Lemma readDigits_pos (p : positive) (n : nat) :
  readDigits 10 0 0 (NilEmpty.string_of_uint (Pos.to_uint p) ++ zeros n)
  = (Z.pos p * 10 ^ Z.of_nat n,
     Z.of_nat (String.length (NilEmpty.string_of_uint (Pos.to_uint p))) + Z.of_nat n,
     "").
Proof.
  rewrite readDigits_uint, DecimalPos.Unsigned.of_to, readDigits_zeros.
  reflexivity.
Qed.

Lemma to_uint_length (p : positive) :
  0 < Z.of_nat (String.length (NilEmpty.string_of_uint (Pos.to_uint p))).
Proof.
  pose proof (DecimalPos.Unsigned.to_uint_nonnil p) as H.
  destruct (Pos.to_uint p); [contradiction | ..];
    cbn [NilEmpty.string_of_uint String.length]; lia.
Qed.

Lemma string_of_uint_nonnil (u : Decimal.uint) :
  u <> Decimal.Nil -> NilZero.string_of_uint u = NilEmpty.string_of_uint u.
Proof. destruct u; [contradiction | ..]; reflexivity. Qed.

(** A numeral, with or without a sign before it and zeros after it, is
    read in radix 10 from its first digit. *)
Lemma parseInt_numeral_head (negative : bool) (u : Decimal.uint) (n : nat) :
  u <> Decimal.Nil ->
  parseInt ((if negative then "-" else "") ++ NilEmpty.string_of_uint u ++ zeros n)
  = (let '(v, count, _) := readDigits 10 0 0 (NilEmpty.string_of_uint u ++ zeros n) in
     if count =? 0 then NaN else Dec (signed negative v) 0).
Proof.
  intros Hu.
  destruct u as [ | u | u | u | u | u | u | u | u | u | u ]; [contradiction | ..];
    destruct negative;
    (destruct u; [destruct n |..]); reflexivity.
Qed.

Lemma parseInt_numeral (negative : bool) (p : positive) (n : nat) :
  parseInt ((if negative then "-" else "")
            ++ NilEmpty.string_of_uint (Pos.to_uint p) ++ zeros n)
  = Dec (signed negative (Z.pos p * 10 ^ Z.of_nat n)) 0.
Proof.
  rewrite parseInt_numeral_head by apply DecimalPos.Unsigned.to_uint_nonnil.
  rewrite readDigits_pos.
  pose proof (to_uint_length p) as Hlen.
  destruct (_ + Z.of_nat n =? 0) eqn:E; [apply Z.eqb_eq in E; lia | reflexivity].
Qed.

Lemma normalize_value (fuel : nat) (m e m' e' : Z) :
  0 <= e -> normalize fuel m e = (m', e') ->
  0 <= e' /\ m * 10 ^ e = m' * 10 ^ e'.
Proof.
  revert m e. induction fuel as [| k IH]; intros m e He H; cbn [normalize] in H.
  - injection H as <- <-. split; [exact He | reflexivity].
  - destruct (m =? 0) eqn:Hm.
    + apply Z.eqb_eq in Hm. injection H as <- <-. subst m. split; [lia | reflexivity].
    + destruct (m mod 10 =? 0) eqn:Hd.
      * apply Z.eqb_eq in Hd. apply IH in H; [| lia].
        destruct H as [He' H]. split; [exact He' |]. rewrite <- H.
        rewrite Z.pow_add_r, Z.pow_1_r by lia.
        pose proof (Z.div_mod m 10 ltac:(lia)) as E. rewrite Hd in E.
        rewrite E at 1. lia.
      * injection H as <- <-. split; [exact He | reflexivity].
Qed.

(** The digits read so far count for at least their place. *)
Lemma of_uint_acc_lower (u : Decimal.uint) (acc : positive) :
  Z.pos acc * 10 ^ Z.of_nat (String.length (NilEmpty.string_of_uint u))
  <= Z.pos (Pos.of_uint_acc u acc).
Proof.
  revert acc.
  induction u as [ | u IH | u IH | u IH | u IH | u IH | u IH | u IH | u IH
                   | u IH | u IH ];
    intros acc;
    cbn [NilEmpty.string_of_uint String.length Pos.of_uint_acc];
    [ rewrite Z.pow_0_r; lia | .. ];
    rewrite Nat2Z.inj_succ, Z.pow_succ_r by lia;
    match goal with
    | |- _ <= Z.pos (Pos.of_uint_acc u ?a) =>
        specialize (IH a);
        assert (Z.pos acc * 10 <= Z.pos a) by lia
    end;
    pose proof (Z.pow_pos_nonneg 10
                  (Z.of_nat (String.length (NilEmpty.string_of_uint u)))
                  ltac:(lia) ltac:(lia));
    nia.
Qed.

(** The numeral of a positive number starts with a digit that is not 0. *)
Lemma to_uint_head (p : positive) (u : Decimal.uint) :
  Pos.to_uint p <> Decimal.D0 u.
Proof.
  intros E.
  pose proof (DecimalPos.Unsigned.to_of (Pos.to_uint p)) as H.
  rewrite DecimalPos.Unsigned.of_to in H. cbn [N.to_uint] in H.
  rewrite E in H. unfold Decimal.unorm in H. cbn [Decimal.nzhead] in H.
  destruct (Decimal.nzhead u) eqn:Hu.
  - apply (DecimalPos.Unsigned.to_uint_nonzero p). rewrite E. exact H.
  - symmetry in Hu. rewrite <- H in Hu.
    exact (DecimalFacts.nzhead_nonzero _ _ (eq_sym Hu)).
  - discriminate H.
  - discriminate H.
  - discriminate H.
  - discriminate H.
  - discriminate H.
  - discriminate H.
  - discriminate H.
  - discriminate H.
  - discriminate H.
Qed.

(** A number of [k] digits is at least [10 ^ (k - 1)]. *)
Lemma to_uint_lower (p : positive) :
  10 ^ (Z.of_nat (String.length (NilEmpty.string_of_uint (Pos.to_uint p))) - 1)
  <= Z.pos p.
Proof.
  pose proof (DecimalPos.Unsigned.of_to p) as Hof.
  pose proof (DecimalPos.Unsigned.to_uint_nonnil p) as Hnil.
  pose proof (to_uint_head p) as Hhead.
  destruct (Pos.to_uint p) as [ | u | u | u | u | u | u | u | u | u | u ];
    [ contradiction | exfalso; exact (Hhead u eq_refl) | .. ];
    cbn [Pos.of_uint] in Hof; injection Hof as Hof; subst p;
    cbn [NilEmpty.string_of_uint String.length];
    rewrite Nat2Z.inj_succ;
    match goal with
    | |- _ <= Z.pos (Pos.of_uint_acc u ?a) =>
        pose proof (of_uint_acc_lower u a) as L
    end;
    replace (Z.succ (Z.of_nat (String.length (NilEmpty.string_of_uint u))) - 1)
      with (Z.of_nat (String.length (NilEmpty.string_of_uint u))) by lia;
    pose proof (Z.pow_pos_nonneg 10
                  (Z.of_nat (String.length (NilEmpty.string_of_uint u)))
                  ltac:(lia) ltac:(lia));
    nia.
Qed.

(** Below [10 ^ 21] the digits and the zeros after them make no more
    than 21 places. *)
Lemma places_bound (p : positive) (e : Z) :
  0 <= e -> Z.pos p * 10 ^ e < 10 ^ 21 ->
  Z.of_nat (String.length (NilEmpty.string_of_uint (Pos.to_uint p))) + e <= 21.
Proof.
  intros He Hb.
  pose proof (to_uint_lower p) as L.
  pose proof (to_uint_length p) as Hk.
  set (k := Z.of_nat (String.length (NilEmpty.string_of_uint (Pos.to_uint p)))) in *.
  assert (H : 10 ^ (k - 1 + e) < 10 ^ 21).
  { rewrite Z.pow_add_r by lia.
    pose proof (Z.pow_pos_nonneg 10 e ltac:(lia) He). nia. }
  apply Z.pow_lt_mono_r_iff in H; lia.
Qed.

(** A whole number written out and read again: below [10 ^ 21] the text
    JavaScript writes for a whole number is its digits in full, which
    [parseInt] reads back as that number, whatever its sign. From
    [10 ^ 21] on the text is in exponent notation and [parseInt] stops
    at the point or at the [e]. *)
Lemma parseInt_numberToString (d : Z) :
  Z.abs d < 10 ^ 21 ->
  parseInt (numberToString (Dec d 0)) = Dec d 0.
Proof.
  intros Hb. unfold numberToString.
  destruct (normalize (Z.to_nat (Z.log2 (Z.abs d) + 1)) d 0) as [m e] eqn:Hn.
  apply normalize_value in Hn; [| lia]. destruct Hn as [He Hv].
  rewrite Z.pow_0_r, Z.mul_1_r in Hv.
  destruct m as [| p | p].
  - cbn [Z.eqb]. rewrite Hv. reflexivity.
  - cbn [Z.eqb Z.ltb Z.compare Z.abs]. unfold show.
    cbn [Z.to_int NilZero.string_of_int].
    rewrite string_of_uint_nonnil by apply DecimalPos.Unsigned.to_uint_nonnil.
    pose proof (places_bound p e He ltac:(lia)) as Hp.
    set (digits := NilEmpty.string_of_uint (Pos.to_uint p)) in *.
    destruct (Z.leb_spec (Z.of_nat (String.length digits))
                (Z.of_nat (String.length digits) + e)); [| lia].
    destruct (Z.leb_spec (Z.of_nat (String.length digits) + e) 21); [| lia].
    cbn [andb].
    replace (Z.of_nat (String.length digits) + e - Z.of_nat (String.length digits))
      with e by lia.
    transitivity (Dec (signed false (Z.pos p * 10 ^ Z.of_nat (Z.to_nat e))) 0);
      [exact (parseInt_numeral false p (Z.to_nat e)) |].
    rewrite Z2Nat.id, Hv by exact He. reflexivity.
  - cbn [Z.eqb Z.ltb Z.compare Z.abs]. unfold show.
    cbn [Z.to_int NilZero.string_of_int].
    rewrite string_of_uint_nonnil by apply DecimalPos.Unsigned.to_uint_nonnil.
    pose proof (places_bound p e He ltac:(lia)) as Hp.
    set (digits := NilEmpty.string_of_uint (Pos.to_uint p)) in *.
    destruct (Z.leb_spec (Z.of_nat (String.length digits))
                (Z.of_nat (String.length digits) + e)); [| lia].
    destruct (Z.leb_spec (Z.of_nat (String.length digits) + e) 21); [| lia].
    cbn [andb].
    replace (Z.of_nat (String.length digits) + e - Z.of_nat (String.length digits))
      with e by lia.
    transitivity (Dec (signed true (Z.pos p * 10 ^ Z.of_nat (Z.to_nat e))) 0);
      [exact (parseInt_numeral true p (Z.to_nat e)) |].
    rewrite Z2Nat.id, Hv by exact He. cbn [signed]. f_equal. lia.
Qed.

End JsFacts.


(** ** The keys and the pointer in the feeding table *)

Module FeedingKeysFacts.
Import Js Runtime RuntimeFacts FeedingLog FeedingLogFacts TableViews.

Lemma tab_state
    (value : string) (feeding : Feeding) (field : string) (st : State Feeding) :
  editingId (handleKeyDown "Tab" value feeding field st) = Some (id feeding)
  /\ timers (handleKeyDown "Tab" value feeding field st)
     = timers st ++ [{| handle := nextHandle st; due := now st + 0;
                        action := FocusField (nextField field) |}].
Proof.
  unfold handleKeyDown. cbn [String.eqb Ascii.eqb Bool.eqb].
  destruct (fieldText feeding field) as [shown |];
    [destruct (String.eqb value shown) |]; split; reflexivity.
Qed.

Lemma nextField_cases (field : string) :
  nextField field
  = if String.eqb field "feedingType" then "duration"
    else if String.eqb field "duration" then "amount"
    else if String.eqb field "amount" then "notes"
    else "feedingType".
Proof.
  unfold nextField, editableFields. cbn [indexOf].
  destruct (String.eqb field "feedingType"); [reflexivity |].
  destruct (String.eqb field "duration"); [reflexivity |].
  destruct (String.eqb field "amount"); [reflexivity |].
  destruct (String.eqb field "notes"); reflexivity.
Qed.

(** X10. The Tab key walks the fields in a ring. From the feeding type it
    goes to the duration, then the amount, the notes, and back to the
    feeding type; a field that is not in the list also leads to the
    feeding type. Whatever the field holds, Tab leaves the row in edit
    mode and sets one timer, due at once, that looks for the next field;
    all other timers stay. *)
Theorem tab_walks_the_fields :
  map nextField editableFields = ["duration"; "amount"; "notes"; "feedingType"]
  /\ (forall field, In (nextField field) editableFields)
  /\ (forall field, In field editableFields ->
        nextField (nextField (nextField (nextField field))) = field)
  /\ (forall field, ~ In field editableFields -> nextField field = "feedingType")
  /\ (forall value feeding field (st : State Feeding),
        editingId (handleKeyDown "Tab" value feeding field st) = Some (id feeding)
        /\ timers (handleKeyDown "Tab" value feeding field st)
           = timers st ++ [{| handle := nextHandle st; due := now st;
                              action := FocusField (nextField field) |}]).
Proof.
  split; [reflexivity |]. split; [| split; [| split]].
  - intros field. rewrite nextField_cases. unfold editableFields.
    destruct (String.eqb field "feedingType"); [cbn [In]; tauto |].
    destruct (String.eqb field "duration"); [cbn [In]; tauto |].
    destruct (String.eqb field "amount"); cbn [In]; tauto.
  - unfold editableFields. cbn [In]. intros field H.
    repeat (destruct H as [<- | H]; [reflexivity |]). contradiction.
  - unfold editableFields. cbn [In]. intros field H.
    rewrite nextField_cases.
    destruct (String.eqb_spec field "feedingType"); [subst; tauto |].
    destruct (String.eqb_spec field "duration"); [subst; tauto |].
    destruct (String.eqb_spec field "amount"); [subst; tauto |].
    reflexivity.
  - intros value feeding field st.
    destruct (tab_state value feeding field st) as [H1 H2].
    split; [exact H1 |]. rewrite H2, Z.add_0_r. reflexivity.
Qed.

Lemma tab_requests
    (value : string) (feeding : Feeding) (field : string) (st : State Feeding) :
  requests (handleKeyDown "Tab" value feeding field st)
  = match fieldText feeding field with
    | Some shown =>
        if String.eqb value shown then requests st
        else requests st
             ++ [(now st, {| upd_id := id feeding; upd_field := field;
                              upd_value := keyedValue field value |})]
    | None =>
        requests st
        ++ [(now st, {| upd_id := id feeding; upd_field := field;
                         upd_value := keyedValue field value |})]
    end.
Proof.
  unfold handleKeyDown. cbn [String.eqb Ascii.eqb Bool.eqb].
  destruct (fieldText feeding field) as [shown |];
    [destruct (String.eqb value shown) |]; reflexivity.
Qed.

Lemma find_app_first {A : Type} (p : A -> bool) (l1 l2 : list A) (x : A) :
  find p l1 = Some x -> find p (l1 ++ l2) = Some x.
Proof.
  induction l1 as [| a l1 IH]; cbn [find app]; [discriminate |].
  destruct (p a); [trivial | exact IH].
Qed.

Lemma find_app_none {A : Type} (p : A -> bool) (l1 l2 : list A) :
  find p l1 = None -> find p (l1 ++ l2) = find p l2.
Proof.
  induction l1 as [| a l1 IH]; cbn [find app]; [reflexivity |].
  destruct (p a); [discriminate | exact IH].
Qed.

(** A row that has a marked element for a field has it whatever its
    controls hold. *)
Lemma rowElements_find (c : Controls) (feeding : Feeding) (field : string) :
  hasElement feeding field = true ->
  exists el, focusTarget (rowElements c feeding) field = Some el.
Proof.
  unfold hasElement, focusTarget, rowElements.
  destruct (isBottle feeding); cbn [app existsb find dataField];
    repeat match goal with
           | |- context [String.eqb ?a ?b] => destruct (String.eqb a b)
           end; cbn [orb]; intros H; try discriminate H; eauto.
Qed.

Lemma focusTarget_some
    (feedings : list Feeding) (e : option Z) (table cards : Controls)
    (field : string) (feeding : Feeding) :
  In feeding feedings -> isEditing e feeding = true ->
  hasElement feeding field = true ->
  exists el, focusTarget (editingElements feedings e table cards) field = Some el.
Proof.
  intros Hin He Hhas. unfold focusTarget, editingElements.
  assert (H : exists el,
             find (fun el => String.eqb (dataField el) field)
               (flat_map (fun f => if isEditing e f then rowElements table f else [])
                  feedings) = Some el).
  { induction feedings as [| f fs IH]; [contradiction |].
    cbn [flat_map].
    destruct (find (fun el => String.eqb (dataField el) field)
                (if isEditing e f then rowElements table f else [])) as [el |] eqn:Hf.
    - exists el. now apply find_app_first.
    - rewrite find_app_none by exact Hf.
      destruct Hin as [-> | Hin]; [| exact (IH Hin)].
      rewrite He in Hf.
      destruct (rowElements_find table feeding field Hhas) as [el Hel].
      unfold focusTarget in Hel. congruence. }
  destruct H as [el H]. exists el. now apply find_app_first.
Qed.

Lemma targetRow_some
    (feedings : list Feeding) (e : option Z) (field : string) (i : nat)
    (feeding : Feeding) :
  In feeding feedings -> isEditing e feeding = true ->
  hasElement feeding field = true ->
  exists row, targetRow feedings e field i = Some row.
Proof.
  intros Hin He Hhas. revert i.
  induction feedings as [| f fs IH]; intros i; [contradiction |].
  cbn [targetRow].
  destruct (isEditing e f && hasElement f field) eqn:Hf; [eauto |].
  destruct Hin as [-> | Hin]; [| exact (IH Hin (S i))].
  rewrite He, Hhas in Hf. discriminate Hf.
Qed.

(** The focus callback, when the table is displayed and an input of the
    row in edit mode holds the focus: the focus moves to another field
    of the row, and the input that is left runs its [onBlur] with what
    it holds. *)
Lemma focus_blurs
    (st : State Feeding) (row : nat) (field next held : string)
    (feeding : Feeding) :
  wide (document st) = true ->
  activeElement (document st) = Some (row, field) ->
  controlValue (tableControls (document st)) field = held ->
  nth_error (records st) row = Some feeding ->
  isEditing (editingId st) feeding = true ->
  hasElement feeding field = true ->
  hasElement feeding next = true ->
  field <> next ->
  exists d, focus next st = set_document d (input_onBlur feeding field held st).
Proof.
  intros Hw Ha <- Hn He Hf Hnext Hne.
  assert (Hin : In feeding (records st)) by (eapply nth_error_In; exact Hn).
  destruct (focusTarget_some (records st) (editingId st)
              (tableControls (document st)) (cardControls (document st))
              next feeding Hin He Hnext) as [el Hel].
  destruct (targetRow_some (records st) (editingId st) next 0 feeding
              Hin He Hnext) as [r Hr].
  unfold focus. rewrite Hel, Hr, Hw, Ha. cbn [negb].
  destruct (String.eqb_spec field next) as [E |]; [contradiction |].
  rewrite andb_false_r.
  unfold blurActive. rewrite Ha, Hn, He, Hf. cbn [andb].
  eexists. reflexivity.
Qed.

(** While the cards are displayed the focus callback moves nothing. *)
Lemma focus_narrow (st : State Feeding) (next : string) :
  wide (document st) = false -> focus next st = st.
Proof.
  intros Hw. unfold focus. rewrite Hw. cbn [negb].
  destruct (focusTarget _ next); [| reflexivity].
  destruct (targetRow _ _ next 0); reflexivity.
Qed.

Lemma input_onBlur_requests
    (feeding : Feeding) (field value : string) (st : State Feeding) :
  In field ["duration"; "amount"; "notes"] ->
  exists v,
    forall st' : State Feeding,
      requests st' = requests st -> now st' = now st ->
      requests (input_onBlur feeding field value st')
      = requests st ++ [(now st, {| upd_id := id feeding; upd_field := field;
                                     upd_value := v |})].
Proof.
  cbn [In]. intros H.
  repeat (destruct H as [<- | H]; [| try contradiction]);
    unfold input_onBlur; cbn [String.eqb Ascii.eqb Bool.eqb];
    eexists; intros st' Hr Hn;
    unfold handleInlineEdit, mutate; cbn [requests set_requests set_savingField now];
    rewrite Hr, Hn; reflexivity.
Qed.

(** Tab on an input that holds the text of the stored value. *)
Lemma tab_untouched
    (feeding : Feeding) (field shown : string) (st : State Feeding) :
  fieldText feeding field = Some shown ->
  handleKeyDown "Tab" shown feeding field st
  = snd (setTimeout (FocusField (nextField field)) 0
           (set_editingId (Some (id feeding)) st)).
Proof.
  intros H. unfold handleKeyDown. cbn [String.eqb Ascii.eqb Bool.eqb].
  rewrite H, String.eqb_refl. reflexivity.
Qed.

(** The one timer of a queue fires when its time has come. *)
Lemma advance_single (a : TimerAction) (h : positive) (st : State Feeding) :
  timers st = [{| handle := h; due := now st; action := a |}] ->
  advance 0 st = set_now (now st) (fire a (set_now (now st) (set_timers [] st))).
Proof.
  intros Ht. unfold advance. rewrite Ht.
  cbn [List.length run_timers]. rewrite Ht. cbn [pick due action].
  rewrite Z.add_0_r, Z.leb_refl, Z.max_id.
  cbn [run_timers]. reflexivity.
Qed.

Lemma nextField_differs (field : string) :
  In field ["duration"; "amount"; "notes"] -> field <> nextField field.
Proof.
  cbn [In]. intros H.
  repeat (destruct H as [<- | H]; [discriminate |]). contradiction.
Qed.

(** X11. Tab on an input that holds the text of the stored value. When
    the record has a value for the field and the input holds exactly
    the text of that value, the key handler sends nothing. When the
    record has none (no notes, or no amount), the comparison with the
    missing value fails whatever the input holds, and Tab sends an
    update also when nothing changed: empty notes, or a null amount,
    from the empty input. With no other timer waiting, when the focus
    timer that Tab sets fires with the table displayed, the input still
    holding the focus and the row having the next field, the focus
    moves on and the input that is left sends its text after all, as
    its [onBlur] does: Tab on the duration of row 7, a bottle feeding,
    with its 20 minutes in the input sends them again once the timer
    has fired. While the cards are displayed the timer moves no focus
    and nothing is sent. *)
Theorem tab_on_untouched_field :
  (forall (st : State Feeding) feeding field shown,
      fieldText feeding field = Some shown ->
      requests (handleKeyDown "Tab" shown feeding field st) = requests st)
  /\ (forall (st : State Feeding) feeding value,
        notes feeding = None ->
        requests (handleKeyDown "Tab" value feeding "notes" st)
        = requests st
          ++ [(now st, {| upd_id := id feeding; upd_field := "notes";
                           upd_value := Str value |})])
  /\ (forall (st : State Feeding) feeding value,
        amount feeding = None ->
        requests (handleKeyDown "Tab" value feeding "amount" st)
        = requests st
          ++ [(now st, {| upd_id := id feeding; upd_field := "amount";
                           upd_value := if String.eqb value "" then Null
                                        else Num (parseFloat value) |})])
  /\ (forall (st : State Feeding) feeding row field shown,
        In field ["duration"; "amount"; "notes"] ->
        fieldText feeding field = Some shown ->
        timers st = [] ->
        wide (document st) = true ->
        activeElement (document st) = Some (row, field) ->
        controlValue (tableControls (document st)) field = shown ->
        nth_error (records st) row = Some feeding ->
        hasElement feeding field = true ->
        hasElement feeding (nextField field) = true ->
        requests (step (step st (KeyDown "Tab" shown feeding field)) (Tick 0))
        = requests (input_onBlur feeding field shown st)
        /\ exists v,
             requests (input_onBlur feeding field shown st)
             = requests st
               ++ [(now st, {| upd_id := id feeding; upd_field := field;
                                upd_value := v |})])
  /\ (forall (st : State Feeding) feeding field shown,
        fieldText feeding field = Some shown ->
        timers st = [] ->
        wide (document st) = false ->
        requests (step (step st (KeyDown "Tab" shown feeding field)) (Tick 0))
        = requests st)
  /\ (let dom := {| wide := true; activeElement := Some (0%nat, "duration");
                    tableControls :=
                      {| triggerValue := ""; durationValue := "20";
                         amountValue := "4.5"; notesValue := "" |};
                    cardControls := noControls |} in
      fieldText Scenarios.feeding7 "duration" = Some "20"
      /\ requests (run [ Activate Scenarios.feeding7;
                         DocumentChanged dom;
                         KeyDown "Tab" "20" Scenarios.feeding7 "duration" ]
                     Scenarios.feedingTable) = []
      /\ requests (run [ Activate Scenarios.feeding7;
                         DocumentChanged dom;
                         KeyDown "Tab" "20" Scenarios.feeding7 "duration";
                         Tick 0 ]
                     Scenarios.feedingTable)
         = [(0, {| upd_id := 7; upd_field := "duration";
                   upd_value := Num (Dec 20 0) |})]).
Proof.
  split; [| split; [| split; [| split; [| split]]]].
  - intros st feeding field shown Hshown.
    rewrite tab_requests, Hshown, String.eqb_refl. reflexivity.
  - intros st feeding value Hn. rewrite tab_requests.
    unfold fieldText, getField. cbn [String.eqb Ascii.eqb Bool.eqb].
    rewrite Hn. reflexivity.
  - intros st feeding value Hn. rewrite tab_requests.
    unfold fieldText, getField. cbn [String.eqb Ascii.eqb Bool.eqb].
    rewrite Hn. reflexivity.
  - intros st feeding row field shown Hin Hshown Ht Hw Ha Hc Hn Hf Hnext.
    destruct (input_onBlur_requests feeding field shown st Hin) as [v Hv].
    split; [| exists v; now apply Hv].
    rewrite (Hv st eq_refl eq_refl).
    cbn [step]. rewrite (tab_untouched _ _ _ st Hshown).
    rewrite (advance_single (FocusField (nextField field)) (nextHandle st))
      by (cbn; rewrite Ht, Z.add_0_r; reflexivity).
    cbn [fire].
    match goal with
    | |- context [focusField ?f ?s] =>
        change (focusField f s) with (focus f s);
        destruct (focus_blurs s row field f shown feeding) as [d Hd];
        [exact Hw | exact Ha | exact Hc | exact Hn
        | cbn; now rewrite Z.eqb_refl | exact Hf | exact Hnext
        | now apply nextField_differs |]
    end.
    rewrite Hd. cbn [requests set_now set_document].
    apply Hv; cbn; rewrite ?Z.add_0_r; reflexivity.
  - intros st feeding field shown Hshown Ht Hw.
    cbn [step]. rewrite (tab_untouched _ _ _ st Hshown).
    rewrite (advance_single (FocusField (nextField field)) (nextHandle st))
      by (cbn; rewrite Ht, Z.add_0_r; reflexivity).
    cbn [fire].
    match goal with
    | |- context [focusField ?f ?s] =>
        change (focusField f s) with (focus f s);
        rewrite (focus_narrow s f) by exact Hw
    end.
    reflexivity.
  - cbv zeta. split; [vm_compute; reflexivity |].
    split; vm_compute; reflexivity.
Qed.

(** X12. Leaving an untouched duration field. For a stored duration that
    JavaScript holds exactly, up to 9007199254740991 either way, the
    text of the number is its digits in full, which [parseInt] reads
    back as that duration; so a blur of the input that holds this text
    sends the stored duration again, as a number. From [10 ^ 21] on the
    text is in exponent notation and reads back as its first digits. *)
Theorem untouched_duration_blur :
  (forall d : Z,
      Z.abs d <= 9007199254740991 ->
      parseInt (numberToString (Dec d 0)) = Dec d 0)
  /\ (forall (st : State Feeding) feeding,
        Z.abs (duration feeding) <= 9007199254740991 ->
        fieldText feeding "duration"
        = Some (numberToString (Dec (duration feeding) 0))
        /\ requests (input_onBlur feeding "duration"
                       (numberToString (Dec (duration feeding) 0)) st)
           = requests st
             ++ [(now st, {| upd_id := id feeding; upd_field := "duration";
                              upd_value := Num (Dec (duration feeding) 0) |})])
  /\ (numberToString (Dec (10 ^ 21) 0) = "1e+21"
      /\ parseInt (numberToString (Dec (10 ^ 21) 0)) = Dec 1 0).
Proof.
  assert (Hread : forall d : Z,
             Z.abs d <= 9007199254740991 ->
             parseInt (numberToString (Dec d 0)) = Dec d 0).
  { intros d Hd. apply JsFacts.parseInt_numberToString.
    assert (9007199254740991 < 10 ^ 21) by (vm_compute; reflexivity). lia. }
  split; [exact Hread |]. split; [| split; vm_compute; reflexivity].
  intros st feeding Hd. split; [reflexivity |].
  unfold input_onBlur. cbn [String.eqb Ascii.eqb Bool.eqb].
  destruct (handleInlineEdit_dispatches feeding "duration"
              (Num (parseInt (numberToString (Dec (duration feeding) 0)))) st)
    as (H & _).
  rewrite H, Hread by exact Hd. reflexivity.
Qed.

Lemma untouched_duration_blur_witness :
  parseInt (numberToString (Dec 20 0)) = Dec 20 0.
Proof.
  destruct untouched_duration_blur as (H & _).
  apply H. vm_compute. discriminate.
Defined.

(** X13. A press outside the feeding table. It always ends edit mode. It
    sends nothing when no row is in edit mode, and nothing when the row
    in edit mode is no longer in the list; it never sends more than one
    update. A press inside the table changes nothing. *)
Theorem outside_press_leaves_edit_mode
    (st : State Feeding) (table cards : Controls) :
  editingId (step st (MouseDown true table cards)) = None
  /\ (editingId st = None ->
      requests (step st (MouseDown true table cards)) = requests st)
  /\ ((forall f, In f (records st) -> Some (id f) <> editingId st) ->
      requests (step st (MouseDown true table cards)) = requests st
      /\ inFlight (step st (MouseDown true table cards)) = inFlight st)
  /\ (exists sent,
        requests (step st (MouseDown true table cards)) = requests st ++ sent
        /\ (List.length sent <= 1)%nat)
  /\ step st (MouseDown false table cards) = st.
Proof.
  cbn [step]. unfold handleClickOutside.
  split; [| split; [| split; [| split]]].
  - destruct (editingId st); [| reflexivity].
    destruct (querySelector _); [| reflexivity].
    destruct (find _ _); reflexivity.
  - intros ->. reflexivity.
  - intros Hgone.
    destruct (editingId st) as [e |] eqn:He; [| split; reflexivity].
    destruct (querySelector _); [| split; reflexivity].
    destruct (find (fun f => id f =? e) (records st)) as [f |] eqn:Hf;
      [| split; reflexivity].
    apply find_some in Hf. destruct Hf as [Hin Heq]. apply Z.eqb_eq in Heq.
    exfalso. apply (Hgone f Hin). congruence.
  - destruct (editingId st) as [e |]; [| exists []; rewrite app_nil_r; split; [reflexivity | cbn; lia]].
    destruct (querySelector _) as [el |];
      [| exists []; rewrite app_nil_r; split; [reflexivity | cbn; lia]].
    destruct (find _ _) as [f |];
      [| exists []; rewrite app_nil_r; split; [reflexivity | cbn; lia]].
    eexists [_]. split; [reflexivity | cbn; lia].
  - reflexivity.
Qed.

(** *** Where the focus goes *)

(** The marked elements of the table rows, up to the first row in edit
    mode. *)
Lemma focusTarget_row
    (feedings : list Feeding) (e : Z) (table cards : Controls)
    (feeding : Feeding) (field : string) (el : Element) :
  find (fun f => id f =? e) feedings = Some feeding ->
  focusTarget (rowElements table feeding) field = Some el ->
  focusTarget (editingElements feedings (Some e) table cards) field = Some el.
Proof.
  intros Hf Hel. unfold focusTarget, editingElements in *.
  apply find_app_first.
  induction feedings as [| f fs IH]; cbn [find flat_map isEditing] in *;
    [discriminate |].
  rewrite (Z.eqb_sym e). destruct (id f =? e).
  - injection Hf as ->. apply find_app_first. exact Hel.
  - cbn [app]. exact (IH Hf).
Qed.

Lemma focusTarget_no_amount
    (els : Controls -> Feeding -> list Element) (feedings : list Feeding)
    (e : Z) (c : Controls) :
  (forall f, isBottle f = false -> focusTarget (els c f) "amount" = None) ->
  (forall f, In f feedings -> id f = e -> isBottle f = false) ->
  focusTarget
    (flat_map (fun f => if isEditing (Some e) f then els c f else []) feedings)
    "amount" = None.
Proof.
  intros Hels Hall. unfold focusTarget in *.
  induction feedings as [| f fs IH]; cbn [flat_map]; [reflexivity |].
  rewrite find_app_none.
  - apply IH. intros g Hg. apply Hall. now right.
  - cbn [isEditing]. destruct (e =? id f) eqn:E; [| reflexivity].
    apply Z.eqb_eq in E. apply Hels. apply Hall; [now left | congruence].
Qed.

(** X14. The field the focus callbacks find. While a fetched row is in
    edit mode, the queries for the feeding type, the duration and the
    notes find the controls of that row in the table, also when the
    cards hold the same row. The query for the amount, which Tab makes
    from the duration, finds an input only on a bottle feeding: on any
    other row it finds nothing and the focus is not moved. *)
Theorem focus_after_tab
    (feedings : list Feeding) (e : Z) (table cards : Controls) (feeding : Feeding) :
  find (fun f => id f =? e) feedings = Some feeding ->
  let document := editingElements feedings (Some e) table cards in
  focusTarget document (nextField "notes")
  = Some {| dataField := "feedingType"; value := triggerValue table |}
  /\ focusTarget document (nextField "feedingType")
     = Some {| dataField := "duration"; value := durationValue table |}
  /\ focusTarget document (nextField "amount")
     = Some {| dataField := "notes"; value := notesValue table |}
  /\ (isBottle feeding = true ->
      focusTarget document (nextField "duration")
      = Some {| dataField := "amount"; value := amountValue table |})
  /\ ((forall f, In f feedings -> id f = e -> isBottle f = false) ->
      focusTarget document (nextField "duration") = None).
Proof.
  intros Hf document. subst document.
  change (nextField "notes") with "feedingType".
  change (nextField "feedingType") with "duration".
  change (nextField "amount") with "notes".
  change (nextField "duration") with "amount".
  split; [| split; [| split; [| split]]].
  - apply (focusTarget_row _ _ _ _ feeding); [exact Hf | reflexivity].
  - apply (focusTarget_row _ _ _ _ feeding); [exact Hf | reflexivity].
  - apply (focusTarget_row _ _ _ _ feeding); [exact Hf |].
    unfold rowElements. destruct (isBottle feeding); reflexivity.
  - intros Hb. apply (focusTarget_row _ _ _ _ feeding); [exact Hf |].
    unfold rowElements. rewrite Hb. reflexivity.
  - intros Hall. unfold editingElements, focusTarget.
    rewrite find_app_none.
    + apply (focusTarget_no_amount cardElements); [| exact Hall].
      intros f Hb. unfold cardElements. rewrite Hb. reflexivity.
    + apply (focusTarget_no_amount rowElements); [| exact Hall].
      intros f Hb. unfold rowElements. rewrite Hb. reflexivity.
Qed.

Lemma focus_after_tab_witness :
  focusTarget
    (editingElements [Scenarios.feeding7; Scenarios.feeding8] (Some 8)
       Scenarios.typed45 Scenarios.typed45)
    (nextField "duration") = None.
Proof.
  destruct (focus_after_tab [Scenarios.feeding7; Scenarios.feeding8] 8
              Scenarios.typed45 Scenarios.typed45 Scenarios.feeding8)
    as (_ & _ & _ & _ & H).
  - reflexivity.
  - apply H. intros f [<- | [<- | []]] Hid.
    + discriminate Hid.
    + reflexivity.
Defined.

End FeedingKeysFacts.


(** ** The spinner of the feeding table *)

Module SpinnerFacts.
Import Js Runtime RuntimeFacts FeedingLog FeedingLogFacts TableViews.

Lemma tracked_same (st st' : State Feeding) :
  savingField st' = savingField st -> currentMutation st' = currentMutation st ->
  inFlight st' = inFlight st -> nextMutationId st' = nextMutationId st ->
  tracked st -> tracked st'.
Proof.
  unfold tracked, freshIds, spinnerFollows, latestInFlight.
  intros -> -> -> ->. trivial.
Qed.

Lemma find_fresh (st : State Feeding) :
  freshIds st ->
  find (fun x => Nat.eqb (mutationId x) (nextMutationId st)) (inFlight st) = None.
Proof.
  unfold freshIds. induction 1 as [| x l Hx _ IH]; cbn [find]; [reflexivity |].
  destruct (Nat.eqb_spec (mutationId x) (nextMutationId st)); [lia | exact IH].
Qed.

Lemma find_filter_keep {A : Type} (p q : A -> bool) (l : list A) :
  (forall x, p x = true -> q x = true) -> find p (filter q l) = find p l.
Proof.
  intros H. induction l as [| a l IH]; cbn [find filter]; [reflexivity |].
  destruct (q a) eqn:Hq; cbn [find].
  - destruct (p a); [reflexivity | exact IH].
  - destruct (p a) eqn:Hp; [| exact IH]. apply H in Hp. congruence.
Qed.

Lemma tracked_edit
    (feeding : Feeding) (field : string) (value : Value) (st : State Feeding) :
  tracked st -> tracked (handleInlineEdit feeding field value st).
Proof.
  intros [Hfresh _]. split.
  - unfold freshIds in *. cbn. apply Forall_app. split.
    + eapply Forall_impl; [| exact Hfresh]. cbn. intros; lia.
    + constructor; [cbn; lia | constructor].
  - unfold spinnerFollows, latestInFlight. cbn.
    rewrite FeedingKeysFacts.find_app_none by now apply find_fresh.
    cbn. rewrite Nat.eqb_refl. eexists. split; reflexivity.
Qed.

Lemma tracked_settle (m : nat) (ok : bool) (st : State Feeding) :
  tracked st -> tracked (settle updateMutation m ok st).
Proof.
  intros [Hfresh Hspin]. unfold settle.
  destruct (find _ (inFlight st)) as [mu |] eqn:Hfind; [| split; assumption].
  assert (Hf : Forall (fun x => (mutationId x < nextMutationId st)%nat)
                 (filter (fun x => negb (Nat.eqb (mutationId x) m)) (inFlight st))).
  { apply Forall_forall. intros x Hx. apply filter_In in Hx.
    unfold freshIds in Hfresh. rewrite Forall_forall in Hfresh.
    apply Hfresh. tauto. }
  destruct ok; cbn [updateMutation onSuccess onError mutate_onSuccess mutate_onError];
    unfold isLatest; cbn;
    destruct (currentMutation st) as [c |] eqn:Hc;
    try destruct (Nat.eqb_spec c m); (split; [exact Hf |]);
    unfold spinnerFollows, latestInFlight in *; cbn; try exact I;
    rewrite ?Hc in *;
    destruct (savingField st) as [key |]; try exact I.
  all: try (rewrite find_filter_keep; [exact Hspin |];
            intros x Hx; apply Nat.eqb_eq in Hx;
            apply negb_true_iff, Nat.eqb_neq; congruence).
  all: destruct Hspin as (mu' & Hmu' & _); discriminate.
Qed.

Lemma tracked_focus (field : string) (st : State Feeding) :
  tracked st -> tracked (focus field st).
Proof.
  intros H.
  destruct (focus_cases field st)
    as [-> | [[d ->] | (d & feeding & f & v & ->)]]; [exact H | ..].
  - apply (tracked_same st); [reflexivity .. | exact H].
  - apply (tracked_same (handleInlineEdit feeding f v st));
      [reflexivity .. | now apply tracked_edit].
Qed.

Lemma tracked_advance (dt : Z) (st : State Feeding) :
  invariant st -> tracked st -> tracked (advance dt st).
Proof.
  intros (Hnone & _ & _) Ht. unfold advance.
  apply (tracked_same (run_timers (List.length (timers st))
                         (now st + Z.max 0 dt) st)); [reflexivity .. |].
  apply (run_timers_preserves tracked).
  - intros s v H. apply (tracked_same s); [reflexivity .. | exact H].
  - intros s v H. apply (tracked_same s); [reflexivity .. | exact H].
  - intros a Ha x Hx. apply in_map_iff in Ha. destruct Ha as (t & Hat & Hin).
    destruct a as [call | | field]; cbn [fire].
    + exfalso. unfold pendingCommits in Hnone.
      rewrite filter_nil_iff in Hnone. specialize (Hnone t Hin).
      unfold isCommit in Hnone. rewrite Hat in Hnone. discriminate.
    + apply (tracked_same x); [reflexivity .. | exact Hx].
    + now apply tracked_focus.
  - exact Ht.
Qed.

Lemma tracked_onBlur
    (feeding : Feeding) (field value : string) (st : State Feeding) :
  tracked st -> tracked (input_onBlur feeding field value st).
Proof.
  intros H. unfold input_onBlur.
  destruct (String.eqb field "duration"); [now apply tracked_edit |].
  destruct (String.eqb field "amount"); [now apply tracked_edit |].
  destruct (String.eqb field "notes"); [now apply tracked_edit | exact H].
Qed.

Lemma tracked_step (st : State Feeding) (e : Event) :
  invariant st -> tracked st -> tracked (step st e).
Proof.
  intros Hinv H.
  destruct e as [ f | f | f | key v f field | f field v | f v | f v | open | key
                | outside table cards | dom | dt | m ok | l ]; cbn [step];
    try (apply (tracked_same st); [reflexivity .. | exact H]).
  - destruct (isBottle f);
      [apply (tracked_same st); [reflexivity .. | exact H] | exact H].
  - unfold handleKeyDown.
    destruct (String.eqb key "Enter"); [now apply tracked_edit |].
    destruct (String.eqb key "Escape").
    { apply (tracked_same (input_onBlur f field v (set_editingId None st)));
        [reflexivity .. |].
      apply tracked_onBlur. apply (tracked_same st); [reflexivity .. | exact H]. }
    destruct (String.eqb key "Tab"); [| exact H].
    destruct (fieldText f field) as [shown |];
      [destruct (String.eqb v shown) |].
    + apply (tracked_same st); [reflexivity .. | exact H].
    + apply (tracked_same (handleInlineEdit f field (keyedValue field v) st));
        [reflexivity .. | now apply tracked_edit].
    + apply (tracked_same (handleInlineEdit f field (keyedValue field v) st));
        [reflexivity .. | now apply tracked_edit].
  - now apply tracked_onBlur.
  - apply (tracked_same (handleInlineEdit f "feedingType" (Str v) st));
      [reflexivity .. | now apply tracked_edit].
  - now apply tracked_edit.
  - destruct open; [exact H | apply (tracked_same st); [reflexivity .. | exact H]].
  - destruct (String.eqb key "Escape");
      [apply (tracked_same st); [reflexivity .. | exact H] |].
    destruct (String.eqb key "Tab"); [| exact H].
    apply tracked_focus. apply (tracked_same st); [reflexivity .. | exact H].
  - unfold handleClickOutside. destruct outside; [| exact H].
    destruct (editingId st) as [editing |];
      [| apply (tracked_same st); [reflexivity .. | exact H]].
    destruct (querySelector _) as [el |];
      [| apply (tracked_same st); [reflexivity .. | exact H]].
    destruct (find _ (records st)) as [f |];
      [| apply (tracked_same st); [reflexivity .. | exact H]].
    apply (tracked_same (handleInlineEdit f (dataField el)
                           (keyedValue (dataField el) (FeedingLog.value el)) st));
      [reflexivity .. | now apply tracked_edit].
  - now apply tracked_advance.
  - now apply tracked_settle.
Qed.

Lemma tracked_run (evs : list Event) (st : State Feeding) :
  invariant st -> tracked st -> tracked (run evs st).
Proof.
  revert st. induction evs as [| e evs IH]; intros st Hinv H; [exact H |].
  cbn [run fold_left]. apply IH.
  - now apply feeding_step_invariant.
  - now apply tracked_step.
Qed.

Lemma reachable_tracked (st : State Feeding) : reachable st -> tracked st.
Proof.
  intros (t0 & l & evs & ->). apply tracked_run.
  - apply feeding_initial_invariant.
  - split; [constructor | exact I].
Qed.

(** X15. The spinner stands for the latest update. In the feeding table,
    whenever a field shows the spinner, the update sent last is still
    unanswered and is the update of that record and field; so once every
    update has been answered no cell shows a spinner. The answer to the
    update sent last, good or bad, takes the spinner away; the answer to
    an earlier update leaves the spinner and the highlight as they are
    and sets no timer. *)
Theorem spinner_follows_latest_update (st : State Feeding) :
  reachable st ->
  (forall key, savingField st = Some key ->
     exists mu, latestInFlight st = Some mu
                /\ In mu (inFlight st)
                /\ key = (upd_id (variables mu), upd_field (variables mu)))
  /\ (inFlight st = [] ->
      forall feeding field, showsSpinner st feeding field = false)
  /\ (forall m ok, currentMutation st = Some m ->
        savingField (settle updateMutation m ok st) = None)
  /\ (forall m ok, currentMutation st <> Some m ->
        savingField (settle updateMutation m ok st) = savingField st
        /\ highlightedField (settle updateMutation m ok st) = highlightedField st
        /\ timers (settle updateMutation m ok st) = timers st).
Proof.
  intros Hreach. destruct (reachable_tracked st Hreach) as [Hfresh Hspin].
  assert (Hkey : forall key, savingField st = Some key ->
            exists mu, latestInFlight st = Some mu
                       /\ In mu (inFlight st)
                       /\ key = (upd_id (variables mu), upd_field (variables mu))).
  { intros key Hk. unfold spinnerFollows in Hspin. rewrite Hk in Hspin.
    destruct Hspin as (mu & Hmu & Hkey). exists mu.
    split; [exact Hmu |]. split; [| exact Hkey].
    unfold latestInFlight in Hmu. destruct (currentMutation st); [| discriminate].
    apply find_some in Hmu. tauto. }
  split; [exact Hkey |]. split; [| split].
  - intros Hnone feeding field. unfold showsSpinner.
    destruct (savingField st) as [key |] eqn:Hk; [| reflexivity].
    destruct (Hkey key eq_refl) as (mu & _ & Hin & _).
    rewrite Hnone in Hin. contradiction.
  - intros m ok Hc. unfold settle.
    destruct (find _ (inFlight st)) as [mu |] eqn:Hfind.
    + destruct ok; cbn [updateMutation onSuccess onError mutate_onSuccess mutate_onError];
        unfold isLatest; cbn; rewrite Hc, Nat.eqb_refl; reflexivity.
    + destruct (savingField st) as [key |] eqn:Hk; [| reflexivity].
      destruct (Hkey key eq_refl) as (mu & Hmu & _).
      unfold latestInFlight in Hmu. rewrite Hc in Hmu. congruence.
  - intros m ok Hc. unfold settle.
    destruct (find _ (inFlight st)) as [mu |]; [| repeat split].
    destruct ok; cbn [updateMutation onSuccess onError mutate_onSuccess mutate_onError];
      unfold isLatest; cbn;
      (destruct (currentMutation st) as [c |]; [| repeat split]);
      (destruct (Nat.eqb_spec c m); [subst; congruence | repeat split]).
Qed.

Lemma spinner_follows_latest_update_witness :
  savingField
    (settle updateMutation 1 true (run Scenarios.twoInFlight Scenarios.feedingTable))
  = None.
Proof.
  destruct (spinner_follows_latest_update
              (run Scenarios.twoInFlight Scenarios.feedingTable))
    as (_ & _ & H & _).
  - exists 0, [Scenarios.feeding7; Scenarios.feeding8], Scenarios.twoInFlight.
    reflexivity.
  - apply H. vm_compute. reflexivity.
Defined.

End SpinnerFacts.


(** ** A burst of edits in the sleep table *)

Module SleepBurstFacts.
Import Js Runtime RuntimeFacts SleepLog SleepLogFacts TableViews.

Lemma run_app (evs1 evs2 : list Event) (st : State Sleep) :
  run (evs1 ++ evs2) st = run evs2 (run evs1 st).
Proof. apply fold_left_app. Qed.

(** While the edits of a burst follow each other within the delay,
    nothing is sent. *)
Lemma burst_quiet (burst : list Edit) (st : State Sleep) :
  invariant st ->
  Forall (fun e => 0 <= edit_gap e < 500) burst ->
  invariant (run (burstEvents burst) st)
  /\ requests (run (burstEvents burst) st) = requests st
  /\ now (run (burstEvents burst) st) = now st + burstLength burst.
Proof.
  revert st. induction burst as [| e burst IH]; intros st Hinv Hgaps.
  - cbn. split; [exact Hinv |]. split; [reflexivity | lia].
  - inversion Hgaps as [| e' l' Hgap Hrest]; subst.
    cbn [burstEvents flat_map app burstLength fold_right run fold_left step].
    destruct (handleInlineEdit_schedules (edit_sleep e) (edit_field e) (edit_value e)
                st Hinv) as (_ & _ & Hreq1 & Hnow1 & _ & Hinv1).
    destruct (debounced_edit (edit_sleep e) (edit_field e) (edit_value e) st Hinv)
      as [Hquiet _].
    specialize (Hquiet (edit_gap e) Hgap).
    pose proof (sleep_advance_invariant (edit_gap e) _ Hinv1) as Hinv2.
    destruct (IH _ Hinv2 Hrest) as (Hi & Hr & Hn).
    split; [exact Hi |]. split.
    + unfold burstEvents, run in Hr. rewrite Hr. exact Hquiet.
    + unfold burstEvents, run in Hn. rewrite Hn, advance_now, Hnow1.
      unfold burstLength. lia.
Qed.

(** X16. A burst of edits is sent once. When edits of the sleep table
    follow each other, each less than 500 ms after the one before,
    whatever records and fields they are for, nothing is sent during the
    burst; only the last edit is sent, once, 500 ms after it was made. *)
Theorem debounce_burst
    (st : State Sleep) (burst : list Edit)
    (sleep : Sleep) (field : string) (value : Value) :
  reachable st ->
  Forall (fun e => 0 <= edit_gap e < 500) burst ->
  let st' := run (burstEvents burst ++ [InlineEdit sleep field value]) st in
  requests st' = requests st
  /\ (forall dt, 0 <= dt < 500 -> requests (step st' (Tick dt)) = requests st)
  /\ (forall dt, 500 <= dt ->
      requests (step st' (Tick dt))
      = requests st
        ++ [(now st + burstLength burst + 500,
             {| upd_id := SleepForm.id sleep; upd_field := field;
                upd_value := value |})]).
Proof.
  intros Hreach Hgaps st'. subst st'. rewrite run_app.
  apply sleep_reachable_invariant in Hreach.
  destruct (burst_quiet burst st Hreach Hgaps) as (Hinv & Hreq & Hnow).
  cbn [run fold_left step].
  destruct (handleInlineEdit_schedules sleep field value _ Hinv)
    as (_ & _ & Hreq1 & _).
  destruct (debounced_edit sleep field value _ Hinv) as [Hquiet Hsend].
  unfold run in *.
  split; [rewrite Hreq1; exact Hreq |]. split.
  - intros dt Hdt. rewrite (Hquiet dt Hdt). exact Hreq.
  - intros dt Hdt. rewrite (Hsend dt Hdt), Hreq, Hnow. reflexivity.
Qed.

Lemma debounce_burst_witness :
  requests
    (step
       (run (burstEvents
               [ {| edit_sleep := Scenarios.sleep1; edit_field := "notes";
                    edit_value := Str "r"; edit_gap := 100 |};
                 {| edit_sleep := Scenarios.sleep2; edit_field := "notes";
                    edit_value := Str "calm"; edit_gap := 200 |};
                 {| edit_sleep := Scenarios.sleep1; edit_field := "notes";
                    edit_value := Str "re"; edit_gap := 499 |} ]
             ++ [InlineEdit Scenarios.sleep1 "notes" (Str "restless")])
          (initial 0 [Scenarios.sleep1; Scenarios.sleep2]))
       (Tick 500))
  = [(1299, {| upd_id := 1; upd_field := "notes"; upd_value := Str "restless" |})].
Proof.
  destruct (debounce_burst (initial 0 [Scenarios.sleep1; Scenarios.sleep2])
              [ {| edit_sleep := Scenarios.sleep1; edit_field := "notes";
                   edit_value := Str "r"; edit_gap := 100 |};
                {| edit_sleep := Scenarios.sleep2; edit_field := "notes";
                   edit_value := Str "calm"; edit_gap := 200 |};
                {| edit_sleep := Scenarios.sleep1; edit_field := "notes";
                   edit_value := Str "re"; edit_gap := 499 |} ]
              Scenarios.sleep1 "notes" (Str "restless"))
    as (_ & _ & H).
  - exists 0, [Scenarios.sleep1; Scenarios.sleep2], []. reflexivity.
  - repeat constructor; cbn [edit_gap]; lia.
  - exact (H 500 ltac:(lia)).
Defined.

End SleepBurstFacts.


(** ** Deleting a record *)

Module DeleteFlowFacts.
Import Runtime DeleteFlow.

Lemma delete_run_app (msg : Messages) (evs1 evs2 : list Event) (st : State) :
  run msg (evs1 ++ evs2) st = run msg evs2 (run msg evs1 st).
Proof. apply fold_left_app. Qed.

(** X17. No delete without a confirmation. However the menus, the dialog
    and the answers follow each other, every record the delete operation
    is called for was chosen from a row menu before, and is never the
    record with identifier 0, for which the dialog does not open. At most
    one delete is unanswered at any time, every answered delete has left
    exactly one notice, and the list was refreshed once for each notice
    of success. *)
Theorem delete_needs_confirmation (msg : Messages) (evs : list Event) :
  let st := run msg evs initial in
  (forall id, In id (deleteCalls st) -> id <> 0 /\ In (MenuDelete id) evs)
  /\ (forall id, deleteConfirmId st = Some id -> In (MenuDelete id) evs)
  /\ List.length (deleteCalls st)
     = (List.length (notices st) + (if isPending st then 1 else 0))%nat
  /\ refreshes st
     = List.length (filter (fun t => negb (isDestructive t)) (notices st)).
Proof.
  induction evs as [| e evs IH] using rev_ind.
  - cbn. split; [intros id [] |]. split; [discriminate |]. split; reflexivity.
  - cbn zeta in *. rewrite delete_run_app. cbn [run fold_left].
    set (st := run msg evs initial) in *.
    destruct IH as (Hcalls & Hconf & Hlen & Href).
    assert (Hcalls' : forall id, In id (deleteCalls st) ->
                        id <> 0 /\ In (MenuDelete id) (evs ++ [e])).
    { intros id Hin. destruct (Hcalls id Hin). split; [assumption |].
      apply in_or_app. now left. }
    assert (Hconf' : forall id, deleteConfirmId st = Some id ->
                       In (MenuDelete id) (evs ++ [e])).
    { intros id Hin. apply in_or_app. left. now apply Hconf. }
    destruct e as [id0 | | | | ok]; cbn [step].
    + split; [exact Hcalls' |]. split; [| split; assumption].
      cbn. intros id Hid. injection Hid as ->. apply in_or_app. right. now left.
    + split; [exact Hcalls' |]. split; [discriminate | split; assumption].
    + split; [exact Hcalls' |]. split; [discriminate | split; assumption].
    + unfold deleteClick.
      destruct (isPending st) eqn:Hp;
        [rewrite ?Hp; exact (conj Hcalls' (conj Hconf' (conj Hlen Href))) |].
      destruct (deleteConfirmId st) as [id0 |] eqn:Hc;
        [| rewrite ?Hp, ?Hc; exact (conj Hcalls' (conj Hconf' (conj Hlen Href)))].
      destruct (id0 =? 0) eqn:Hz;
        [rewrite ?Hp, ?Hc; exact (conj Hcalls' (conj Hconf' (conj Hlen Href))) |].
      apply Z.eqb_neq in Hz. cbn.
      split; [| split; [exact Hconf' | split; [| exact Href]]].
      * intros id Hin. apply in_app_or in Hin. destruct Hin as [Hin | [<- | []]].
        -- now apply Hcalls'.
        -- split; [exact Hz | now apply Hconf'].
      * rewrite length_app, Hlen. cbn. lia.
    + unfold settled.
      destruct (isPending st) eqn:Hp;
        [| rewrite ?Hp; exact (conj Hcalls' (conj Hconf' (conj Hlen Href)))].
      destruct ok; cbn.
      * split; [exact Hcalls' |]. split; [discriminate |].
        rewrite length_app, filter_app, length_app, Hlen, Href. cbn. split; lia.
      * split; [exact Hcalls' |]. split; [exact Hconf' |].
        rewrite length_app, filter_app, length_app, Hlen, Href. cbn. split; lia.
Qed.

(** X18. The answer to a delete. A delete that succeeds closes the
    dialog, whichever record it is open for by then, and a further press
    on Delete does nothing. A delete that fails leaves the dialog as it
    is, so that Delete can be pressed again and calls the operation for
    the record the dialog shows. While a delete is unanswered the button
    does nothing. *)
Theorem delete_answer (msg : Messages) (st : State) :
  isPending st = true ->
  deleteClick st = st
  /\ dialogOpen (settled msg true st) = false
  /\ refreshes (settled msg true st) = S (refreshes st)
  /\ deleteClick (settled msg true st) = settled msg true st
  /\ deleteConfirmId (settled msg false st) = deleteConfirmId st
  /\ refreshes (settled msg false st) = refreshes st
  /\ (exists notice,
        notices (settled msg false st) = notices st ++ [notice]
        /\ isDestructive notice = true)
  /\ (forall id, deleteConfirmId st = Some id -> id <> 0 ->
        dialogOpen (settled msg false st) = true
        /\ deleteCalls (deleteClick (settled msg false st)) = deleteCalls st ++ [id]).
Proof.
  intros Hp. unfold settled, deleteClick. rewrite Hp. cbn.
  split; [reflexivity |]. split; [reflexivity |]. split; [reflexivity |].
  split; [reflexivity |]. split; [reflexivity |]. split; [reflexivity |].
  split; [eexists; split; reflexivity |].
  intros id Hid Hz. unfold dialogOpen. cbn. rewrite Hid.
  apply Z.eqb_neq in Hz. rewrite Hz. split; reflexivity.
Qed.

Lemma delete_answer_witness :
  deleteCalls
    (run sleepMessages [MenuDelete 3; DeleteClick; Settled false; DeleteClick] initial)
  = [3; 3].
Proof.
  destruct (delete_answer sleepMessages
              (run sleepMessages [MenuDelete 3; DeleteClick] initial))
    as (_ & _ & _ & _ & _ & _ & _ & H).
  - reflexivity.
  - destruct (H 3) as [_ H3]; [reflexivity | discriminate |]. exact H3.
Defined.

End DeleteFlowFacts.


(** ** What an event sends and what an answer shows *)

Module UpdatesFacts.
Import Js Runtime RuntimeFacts.

Lemma settle_requests_sleep (m : nat) (ok : bool) (st : State SleepLog.Sleep) :
  requests (settle SleepLog.updateMutation m ok st) = requests st.
Proof.
  unfold settle. destruct (find _ (inFlight st)); [| reflexivity].
  destruct ok; cbn; unfold isLatest; cbn;
    destruct (currentMutation st) as [c |]; try destruct (Nat.eqb c m); reflexivity.
Qed.

Lemma settle_requests_feeding (m : nat) (ok : bool) (st : State FeedingLog.Feeding) :
  requests (settle FeedingLog.updateMutation m ok st) = requests st.
Proof.
  unfold settle. destruct (find _ (inFlight st)); [| reflexivity].
  destruct ok; cbn; unfold isLatest; cbn;
    destruct (currentMutation st) as [c |]; try destruct (Nat.eqb c m); reflexivity.
Qed.

Lemma sleep_tick_sends (dt : Z) (st : State SleepLog.Sleep) :
  SleepLog.invariant st ->
  exists sent, requests (advance dt st) = requests st ++ sent
               /\ (List.length sent <= 1)%nat.
Proof.
  intros [Hl Hq]. unfold SleepLog.linked in Hl.
  destruct (editTimeoutRef st) as [h |].
  - destruct Hl as (t & Hp & _).
    assert (Hin : In t (pendingCommits st)) by (rewrite Hp; now left).
    apply pendingCommits_In in Hin. destruct Hin as [Hin Hcommit].
    destruct Hq as (_ & _ & Hdue). rewrite Forall_forall in Hdue.
    specialize (Hdue t Hin).
    unfold isCommit in Hcommit.
    destruct (action t) as [c | |] eqn:Ha; try discriminate.
    destruct (Z.ltb_spec (now st + Z.max 0 dt) (due t)) as [Hlt | Hge].
    + destruct (advance_waiting dt st t Hp Hlt) as (_ & Hr & _).
      exists []. rewrite app_nil_r. split; [exact Hr | cbn; lia].
    + destruct (advance_dispatch dt st t c Hp Ha Hdue Hge) as (_ & Hr & _).
      exists [(due t, c)]. split; [exact Hr | cbn; lia].
  - destruct (advance_idle dt st Hl) as (_ & Hr & _).
    exists []. rewrite app_nil_r. split; [exact Hr | cbn; lia].
Qed.

(** What the focus callback sends: at most the one update of the input
    that loses the focus, and nothing while the cards are displayed. *)
Lemma focus_sends (field : string) (st : State FeedingLog.Feeding) :
  exists sent,
    requests (FeedingLog.focus field st) = requests st ++ sent
    /\ (List.length sent <= 1)%nat
    /\ (forall x, In x sent -> fst x = now st)
    /\ (FeedingLog.wide (document st) = false -> sent = []).
Proof.
  destruct (FeedingLog.wide (document st)) eqn:Hw.
  - destruct (FeedingLogFacts.focus_cases field st)
      as [-> | [[d ->] | (d & feeding & f & v & ->)]].
    + exists []. rewrite app_nil_r. split; [reflexivity |].
      split; [cbn; lia |]. split; [intros x [] | discriminate].
    + exists []. rewrite app_nil_r. split; [reflexivity |].
      split; [cbn; lia |]. split; [intros x [] | discriminate].
    + eexists [_]. split; [reflexivity |]. split; [cbn; lia |].
      split; [| discriminate]. intros x [<- | []]. reflexivity.
  - rewrite FeedingKeysFacts.focus_narrow by exact Hw.
    exists []. rewrite app_nil_r. split; [reflexivity |].
    split; [cbn; lia |]. split; [intros x [] | reflexivity].
Qed.

(** The focus callback leaves the layout as it is. *)
Lemma focus_wide (field : string) (st : State FeedingLog.Feeding) :
  FeedingLog.wide (document (FeedingLog.focus field st))
  = FeedingLog.wide (document st).
Proof.
  unfold FeedingLog.focus.
  destruct (FeedingLog.focusTarget _ field); [| reflexivity].
  destruct (FeedingLog.targetRow _ _ field 0); [| reflexivity].
  destruct (negb _); [reflexivity |].
  destruct (FeedingLog.activeElement (document st)) as [[row' field'] |];
    [| reflexivity].
  destruct (_ && _); reflexivity.
Qed.

(** While time passes the feeding table sends what the focus timers
    that come due make it send, each at most one update. *)
Lemma feeding_run_timers_sends
    (n : nat) (deadline : Z) (st : State FeedingLog.Feeding) :
  pendingCommits st = [] -> now st <= deadline ->
  exists sent,
    requests (run_timers n deadline st) = requests st ++ sent
    /\ (List.length sent <= List.length (dueFocus deadline (timers st)))%nat
    /\ (forall x, In x sent -> now st <= fst x <= deadline)
    /\ (FeedingLog.wide (document st) = false -> sent = []).
Proof.
  revert st. induction n as [| n IH]; intros st Hnone Hnow.
  { exists []. rewrite app_nil_r. split; [reflexivity |].
    split; [cbn; lia |]. split; [intros x [] | reflexivity]. }
  cbn [run_timers].
  destruct (pick deadline (timers st)) as [[u rest] |] eqn:Hp.
  2:{ exists []. rewrite app_nil_r. split; [reflexivity |].
      split; [cbn; lia |]. split; [intros x [] | reflexivity]. }
  destruct (pick_split _ _ _ _ Hp) as (l1 & l2 & E1 & E2).
  destruct (pick_earliest _ _ _ _ Hp) as [Hu _].
  set (s0 := set_now (Z.max (now st) (due u)) (set_timers rest st)).
  assert (Hnone0 : filter isCommit rest = [] /\ isCommit u = false).
  { unfold pendingCommits in Hnone. rewrite E1, filter_app in Hnone.
    cbn [filter] in Hnone. rewrite E2, filter_app.
    destruct (isCommit u); apply app_eq_nil in Hnone;
      destruct Hnone as [H1 H2]; [discriminate H2 |].
    rewrite H1, H2. split; reflexivity. }
  destruct Hnone0 as [Hrest Hcu].
  assert (Hstep : exists sent1,
             requests (fire (action u) s0) = requests st ++ sent1
             /\ (List.length sent1 <= (if isFocus u then 1 else 0))%nat
             /\ (forall x, In x sent1 -> fst x = now s0)
             /\ (FeedingLog.wide (document st) = false -> sent1 = [])
             /\ FeedingLog.wide (document (fire (action u) s0))
                = FeedingLog.wide (document st)).
  { unfold isCommit in Hcu. unfold isFocus.
    destruct (action u) as [call | | field]; [discriminate Hcu | |].
    - exists []. rewrite app_nil_r. cbn.
      split; [reflexivity |]. split; [lia |].
      split; [intros x [] |]. split; reflexivity.
    - cbn [fire]. change (focusField field s0) with (FeedingLog.focus field s0).
      destruct (focus_sends field s0) as (sent1 & H1 & H2 & H3 & H4).
      exists sent1.
      exact (conj H1 (conj H2 (conj H3 (conj H4 (focus_wide field s0))))). }
  destruct Hstep as (sent1 & Hr1 & Hl1 & Hn1 & Hw1 & Hwide).
  destruct (IH (fire (action u) s0)) as (sent2 & Hr2 & Hl2 & Hn2 & Hw2).
  { unfold pendingCommits. rewrite fire_timers. exact Hrest. }
  { rewrite fire_now. cbn [s0 now set_now]. lia. }
  exists (sent1 ++ sent2). rewrite Hr2, Hr1, app_assoc.
  split; [reflexivity |].
  rewrite fire_timers, fire_now in *. cbn [s0 timers set_now set_timers now] in *.
  split; [| split].
  - rewrite length_app.
    assert (Hcount : (List.length (dueFocus deadline (timers st))
                      = (if isFocus u then 1 else 0)
                        + List.length (dueFocus deadline rest))%nat).
    { unfold dueFocus. rewrite E1, E2, !filter_app, !length_app. cbn [filter].
      assert (Hle : (due u <=? deadline) = true) by (apply Z.leb_le; exact Hu).
      rewrite Hle, andb_true_r.
      destruct (isFocus u); cbn [List.length]; lia. }
    lia.
  - intros x Hx. apply in_app_or in Hx. destruct Hx as [Hx | Hx].
    + rewrite (Hn1 x Hx). lia.
    + specialize (Hn2 x Hx). lia.
  - intros Hw. rewrite (Hw1 Hw), Hw2; [reflexivity |].
    rewrite Hwide. exact Hw.
Qed.

Lemma feeding_tick_sends (dt : Z) (st : State FeedingLog.Feeding) :
  FeedingLog.invariant st ->
  exists sent,
    requests (advance dt st) = requests st ++ sent
    /\ (List.length sent
        <= List.length (dueFocus (now st + Z.max 0 dt) (timers st)))%nat
    /\ (forall x, In x sent -> now st <= fst x <= now st + Z.max 0 dt)
    /\ (FeedingLog.wide (document st) = false -> sent = []).
Proof.
  intros (Hnone & _ & _). unfold advance. cbn [requests set_now].
  apply feeding_run_timers_sends; [exact Hnone | lia].
Qed.

Lemma feeding_step_sends (st : State FeedingLog.Feeding) (e : FeedingLog.Event) :
  (forall dt, e <> FeedingLog.Tick dt) ->
  exists sent, requests (FeedingLog.step st e) = requests st ++ sent
               /\ (List.length sent <= 1)%nat
               /\ (forall x, In x sent -> fst x = now st).
Proof.
  intros Hne.
  assert (Hsame : forall st' : State FeedingLog.Feeding,
            requests st' = requests st ->
            exists sent, requests st' = requests st ++ sent
                         /\ (List.length sent <= 1)%nat
                         /\ (forall x, In x sent -> fst x = now st)).
  { intros st' H. exists []. rewrite app_nil_r.
    split; [exact H |]. split; [cbn; lia | intros x []]. }
  assert (Hone : forall (st' : State FeedingLog.Feeding) call,
            requests st' = requests st ++ [(now st, call)] ->
            exists sent, requests st' = requests st ++ sent
                         /\ (List.length sent <= 1)%nat
                         /\ (forall x, In x sent -> fst x = now st)).
  { intros st' call H. exists [(now st, call)].
    split; [exact H |]. split; [cbn; lia |]. intros x [<- | []]. reflexivity. }
  destruct e as [ f | f | f | key v f field | f field v | f v | f v | open | key
                | outside table cards | dom | dt | m ok | l ];
    cbn [FeedingLog.step].
  - apply Hsame. reflexivity.
  - apply Hsame. destruct (FeedingLog.isBottle f); reflexivity.
  - apply Hsame. reflexivity.
  - unfold FeedingLog.handleKeyDown.
    destruct (String.eqb key "Enter"); [eapply Hone; reflexivity |].
    destruct (String.eqb key "Escape").
    { unfold FeedingLog.input_onBlur.
      destruct (String.eqb field "duration"); [eapply Hone; reflexivity |].
      destruct (String.eqb field "amount"); [eapply Hone; reflexivity |].
      destruct (String.eqb field "notes"); [eapply Hone; reflexivity |].
      apply Hsame. reflexivity. }
    destruct (String.eqb key "Tab"); [| apply Hsame; reflexivity].
    destruct (FeedingLog.fieldText f field) as [shown |];
      [destruct (String.eqb v shown) |];
      [apply Hsame; reflexivity | eapply Hone; reflexivity ..].
  - unfold FeedingLog.input_onBlur.
    destruct (String.eqb field "duration"); [eapply Hone; reflexivity |].
    destruct (String.eqb field "amount"); [eapply Hone; reflexivity |].
    destruct (String.eqb field "notes"); [eapply Hone; reflexivity |].
    apply Hsame. reflexivity.
  - eapply Hone. reflexivity.
  - eapply Hone. reflexivity.
  - apply Hsame. destruct open; reflexivity.
  - destruct (String.eqb key "Escape"); [apply Hsame; reflexivity |].
    destruct (String.eqb key "Tab"); [| apply Hsame; reflexivity].
    match goal with
    | |- context [FeedingLog.focus ?f ?s] =>
        destruct (focus_sends f s) as (sent & H1 & H2 & H3 & _)
    end.
    exists sent. exact (conj H1 (conj H2 H3)).
  - unfold FeedingLog.handleClickOutside.
    destruct outside; [| apply Hsame; reflexivity].
    destruct (editingId st); [| apply Hsame; reflexivity].
    destruct (FeedingLog.querySelector _); [| apply Hsame; reflexivity].
    destruct (find _ (records st)); [| apply Hsame; reflexivity].
    eapply Hone. reflexivity.
  - apply Hsame. reflexivity.
  - exfalso. exact (Hne dt eq_refl).
  - apply Hsame. apply settle_requests_feeding.
  - apply Hsame. reflexivity.
Qed.

(** X19. What one event sends, from any state the tables can reach. No
    update already sent is ever withdrawn or changed. In the sleep
    table no event sends more than one update, and only the passing of
    time sends. In the feeding table every event other than the passing
    of time sends at most one update, stamped with the time of that
    event, and an answer, a refetch or a change of the document sends
    nothing. When time passes there, no more updates are sent than
    focus timers come due, all stamped within the time passed, and none
    while the cards are displayed or no focus timer is due. The tick
    that fires the focus timer set by Tab on the duration of row 7,
    its input holding the focus, sends one update. *)
Theorem one_update_per_event :
  (forall (st : State SleepLog.Sleep) (e : SleepLog.Event),
      SleepLog.reachable st ->
      exists sent,
        requests (SleepLog.step st e) = requests st ++ sent
        /\ (List.length sent <= 1)%nat
        /\ ((forall dt, e <> SleepLog.Tick dt) -> sent = []))
  /\ (forall (st : State FeedingLog.Feeding) (e : FeedingLog.Event),
        FeedingLog.reachable st ->
        exists sent,
          requests (FeedingLog.step st e) = requests st ++ sent
          /\ ((forall dt, e <> FeedingLog.Tick dt) ->
              (List.length sent <= 1)%nat
              /\ (forall x, In x sent -> fst x = now st))
          /\ (forall m ok, e = FeedingLog.Settled m ok -> sent = [])
          /\ (forall l, e = FeedingLog.Refetched l -> sent = [])
          /\ (forall dom, e = FeedingLog.DocumentChanged dom -> sent = [])
          /\ (forall dt, e = FeedingLog.Tick dt ->
              (List.length sent
               <= List.length (dueFocus (now st + Z.max 0 dt) (timers st)))%nat
              /\ (forall x, In x sent -> now st <= fst x <= now st + Z.max 0 dt)
              /\ (FeedingLog.wide (document st) = false -> sent = [])
              /\ (dueFocus (now st + Z.max 0 dt) (timers st) = [] -> sent = [])))
  /\ (let dom := {| FeedingLog.wide := true;
                    FeedingLog.activeElement := Some (0%nat, "duration");
                    FeedingLog.tableControls :=
                      {| FeedingLog.triggerValue := "";
                         FeedingLog.durationValue := "20";
                         FeedingLog.amountValue := "4.5";
                         FeedingLog.notesValue := "" |};
                    FeedingLog.cardControls := FeedingLog.noControls |} in
      let st := FeedingLog.run
                  [ FeedingLog.Activate Scenarios.feeding7;
                    FeedingLog.DocumentChanged dom;
                    FeedingLog.KeyDown "Tab" "20" Scenarios.feeding7 "duration" ]
                  Scenarios.feedingTable in
      requests st = []
      /\ requests (FeedingLog.step st (FeedingLog.Tick 0))
         = [(0, {| upd_id := 7; upd_field := "duration";
                   upd_value := Num (Dec 20 0) |})]).
Proof.
  split; [| split].
  - intros st e Hreach. apply SleepLogFacts.sleep_reachable_invariant in Hreach.
    destruct e as [s f v | outside | dt | m ok | l].
    + exists []. rewrite app_nil_r.
      split; [apply SleepLogFacts.only_time_sends; discriminate |].
      split; [cbn; lia | reflexivity].
    + exists []. rewrite app_nil_r.
      split; [apply SleepLogFacts.only_time_sends; discriminate |].
      split; [cbn; lia | reflexivity].
    + destruct (sleep_tick_sends dt st Hreach) as (sent & Hr & Hlen).
      exists sent. split; [exact Hr |]. split; [exact Hlen |].
      intros Hne. exfalso. exact (Hne dt eq_refl).
    + exists []. rewrite app_nil_r.
      split; [apply SleepLogFacts.only_time_sends; discriminate |].
      split; [cbn; lia | reflexivity].
    + exists []. rewrite app_nil_r.
      split; [apply SleepLogFacts.only_time_sends; discriminate |].
      split; [cbn; lia | reflexivity].
  - intros st e Hreach. apply FeedingLogFacts.feeding_reachable_invariant in Hreach.
    assert (Hnil : forall sent : list (Z * UpdateCall),
               requests st = requests st ++ sent -> sent = []).
    { intros sent H. rewrite <- (app_nil_r (requests st)) in H at 1.
      apply app_inv_head in H. now symmetry. }
    destruct (match e with FeedingLog.Tick _ => true | _ => false end) eqn:Htick.
    + destruct e; try discriminate Htick.
      destruct (feeding_tick_sends dt st Hreach) as (sent & Hr & Hlen & Hnow & Hw).
      exists sent. cbn [FeedingLog.step]. split; [exact Hr |].
      split; [intros Hne; exfalso; exact (Hne dt eq_refl) |].
      split; [discriminate |]. split; [discriminate |]. split; [discriminate |].
      intros dt' E. injection E as <-.
      split; [exact Hlen |]. split; [exact Hnow |]. split; [exact Hw |].
      intros Hnone. rewrite Hnone in Hlen. destruct sent; [reflexivity |].
      cbn in Hlen. lia.
    + assert (Hne : forall dt, e <> FeedingLog.Tick dt)
        by (intros dt ->; discriminate Htick).
      destruct (feeding_step_sends st e Hne) as (sent & Hr & Hlen & Hnow).
      exists sent. split; [exact Hr |]. split; [intros _; split; assumption |].
      split; [| split; [| split]].
      * intros m ok ->. cbn [FeedingLog.step] in Hr.
        rewrite settle_requests_feeding in Hr. exact (Hnil _ Hr).
      * intros l ->. cbn [FeedingLog.step] in Hr. exact (Hnil _ Hr).
      * intros dom ->. cbn [FeedingLog.step] in Hr. exact (Hnil _ Hr).
      * intros dt ->. discriminate Htick.
  - cbv zeta. split; vm_compute; reflexivity.
Qed.

(** X20. The notices of an answer. When the update sent last succeeds,
    two notices appear in either table, the one of the table and
    Changes saved successfully, which goes after 2000 ms. When it fails,
    the feeding table shows two error notices and the sleep table one.
    The answer to an earlier update, good or bad, shows the notice of
    the table alone, in either table. *)
Theorem answer_notices :
  (forall (st : State FeedingLog.Feeding) m mu,
      find (fun x => Nat.eqb (mutationId x) m) (inFlight st) = Some mu ->
      (currentMutation st = Some m ->
       map toast_description (toasts (settle FeedingLog.updateMutation m true st))
       = map toast_description (toasts st)
         ++ ["Feeding log updated successfully"; "Changes saved successfully"]
       /\ map toast_description (toasts (settle FeedingLog.updateMutation m false st))
          = map toast_description (toasts st)
            ++ ["Failed to update feeding log"; "Failed to save changes"])
      /\ (currentMutation st <> Some m ->
          map toast_description (toasts (settle FeedingLog.updateMutation m true st))
          = map toast_description (toasts st) ++ ["Feeding log updated successfully"]
          /\ map toast_description
               (toasts (settle FeedingLog.updateMutation m false st))
             = map toast_description (toasts st) ++ ["Failed to update feeding log"]))
  /\ (forall (st : State SleepLog.Sleep) m mu,
        find (fun x => Nat.eqb (mutationId x) m) (inFlight st) = Some mu ->
        (currentMutation st = Some m ->
         map toast_description (toasts (settle SleepLog.updateMutation m true st))
         = map toast_description (toasts st)
           ++ ["Sleep log updated successfully"; "Changes saved successfully"])
        /\ (currentMutation st <> Some m ->
            map toast_description (toasts (settle SleepLog.updateMutation m true st))
            = map toast_description (toasts st)
              ++ ["Sleep log updated successfully"])
        /\ map toast_description (toasts (settle SleepLog.updateMutation m false st))
           = map toast_description (toasts st) ++ ["Failed to update sleep log"]).
Proof.
  split.
  - intros st m mu Hfind. unfold settle. rewrite Hfind. cbn. unfold isLatest. cbn.
    split.
    + intros ->. rewrite Nat.eqb_refl. cbn.
      rewrite !map_app, <- !app_assoc. split; reflexivity.
    + intros Hc. destruct (currentMutation st) as [c |].
      * destruct (Nat.eqb_spec c m); [subst; congruence |].
        cbn. rewrite !map_app. split; reflexivity.
      * cbn. rewrite !map_app. split; reflexivity.
  - intros st m mu Hfind. unfold settle. rewrite Hfind. cbn. unfold isLatest. cbn.
    split; [| split].
    + intros ->. rewrite Nat.eqb_refl. cbn.
      rewrite !map_app, <- !app_assoc. reflexivity.
    + intros Hc. destruct (currentMutation st) as [c |].
      * destruct (Nat.eqb_spec c m); [subst; congruence |].
        cbn. rewrite !map_app. reflexivity.
      * cbn. rewrite !map_app. reflexivity.
    + destruct (currentMutation st) as [c |]; [destruct (Nat.eqb c m) |];
        cbn; rewrite !map_app; reflexivity.
Qed.

End UpdatesFacts.

